(** * PerfBatch: the in-browser flexbox benchmark page (src/main.tsx)

    A shallow embedding of the benchmark runner: the formatting helpers,
    the prop generator, the result store and the two measurement phases
    with their per-case driver.  Host effects (frame waits, the optional
    garbage-collection hook, the clock, the random source, the document)
    are threaded through an explicit world with a small state-and-exception
    monad. *)

From Stdlib Require Import ZArith QArith Qround Qabs Lqa.
From stdpp Require Import gmap strings list pretty.

Local Open Scope Z_scope.
Set Warnings "-register-all".

(** ** Numbers

    Byte counts and loop counters are JavaScript numbers that only ever
    hold integers here; they are modelled as [Z].  Quantities obtained by
    dividing (scaled byte values, clock readings) are exact rationals [Q],
    and the sums, differences and quotients of timings are exact.  Dividing
    by 1024 is exact on doubles, so [formatBytes] computes the same value
    in both.  Binary rounding is modelled where an array index, a
    comparison or the printed notation depends on it: the product in
    [pick], the probability literals of [maybe] and the digits of a
    number of magnitude 1e21 or more. *)

(** IEEE 754 binary64, on rationals: 53 significant bits, the smallest
    positive value [2^-1074], results rounded to the nearest value and to
    the one with the even significand when two are equally near. *)
Module Double.

Definition scale : Z := 2 ^ 1074.

(** The nearest integer, the even one of two equally near. *)
Definition nearest_even (t : Q) : Z :=
  let f := Qfloor t in
  match (t - inject_Z f ?= 1 # 2)%Q with
  | Lt => f
  | Gt => f + 1
  | Eq => if Z.even f then f else f + 1
  end.

(** The spacing of the doubles around [x >= 0] is [2^shift / 2^1074]: 52
    bits below the leading bit of [x], and never below [2^-1074]. *)
Definition shift (x : Q) : Z :=
  Z.max 0 (Z.log2 (Qfloor (x * inject_Z scale)) - 52).

Definition round_pos (x : Q) : Q :=
  let s := shift x in
  (inject_Z (nearest_even (x * inject_Z scale / inject_Z (2 ^ s)) * 2 ^ s)
   / inject_Z scale)%Q.

(** The double nearest to a real below the overflow threshold. *)
Definition round (x : Q) : Q :=
  if Qlt_le_dec x 0 then (- round_pos (- x))%Q else round_pos x.

(** From [2^1024 - 2^970] on a real rounds to an infinity. *)
Definition overflows (x : Q) : bool :=
  Qle_bool (inject_Z (2 ^ 1024 - 2 ^ 970)) (Qabs x).

(** The rationals that are doubles. *)
Definition binary64 (x : Q) : bool :=
  negb (overflows x) && Qeq_bool (round x) x.

End Double.

Module Fmt.

(** Decimal digits of a non-negative integer ([String(n)]). *)
Definition digits (n : Z) : string := pretty (Z.to_N n).

(** [s.padStart(d, "0")]. *)
Definition pad_zeros (d : nat) (s : string) : string :=
  String.concat "" (replicate (d - String.length s) "0") +:+ s.

(** [round_digits d x] is the integer [n] for which [n / 10^d - x] is as
    close to zero as possible, the larger one when two are equally close
    (Number.prototype.toFixed, step 10.a). *)
Definition round_digits (d : nat) (x : Q) : Z :=
  Qfloor (x * inject_Z (10 ^ Z.of_nat d) + (1 # 2))%Q.

(** Rendering of a non-negative number [n] of [10^-d] units: the integer
    digits, then a point and exactly [d] fraction digits when [d > 0]. *)
Definition fixed_point (d : nat) (n : Z) : string :=
  let scale := 10 ^ Z.of_nat d in
  digits (n / scale) +:+
  match d with
  | O => ""
  | _ => "." +:+ pad_zeros d (digits (n mod scale))
  end.

(** Whether the decimal [v] reads back as the double [x]. *)
Definition reads_as (x v : Z) : bool :=
  negb (Double.overflows (inject_Z v)) &&
  Qeq_bool (Double.round (inject_Z v)) (inject_Z x).

(** The decimal with [k] significant digits out of [nd] that reads back
    as [x], if there is one: the nearer to [x] when the decimals on both
    sides of [x] do, the one with the even last digit when they are
    equally near. *)
Definition candidate (x : Z) (nd k : nat) : option Z :=
  let p := 10 ^ Z.of_nat (nd - k) in
  let lo := x / p * p in
  let hi := lo + p in
  match reads_as x lo, reads_as x hi with
  | true, true =>
      Some (if x - lo <? hi - x then lo
            else if hi - x <? x - lo then hi
            else if Z.even (x / p) then lo else hi)
  | true, false => Some lo
  | false, true => Some hi
  | false, false => None
  end.

(** The decimal with the fewest significant digits, [k] or more, that
    reads back as [x] (Number::toString, step 5). *)
Fixpoint shortest (fuel : nat) (x : Z) (nd k : nat) : Z :=
  match fuel with
  | O => x
  | S fuel' =>
      match candidate x nd k with
      | Some v => v
      | None => shortest fuel' x nd (S k)
      end
  end.

Fixpoint strip_zeros (fuel : nat) (s : Z) : Z :=
  match fuel with
  | O => s
  | S fuel' =>
      if (0 <? s) && (s mod 10 =? 0) then strip_zeros fuel' (s / 10) else s
  end.

(** [String(x)] for a double [x >= 1e21], which is an integer: the
    shortest digits that read back as [x], a point after the first of
    them when there are more, and the decimal exponent. *)
Definition exponent_notation (x : Z) : string :=
  let nd := String.length (digits x) in
  let v := shortest nd x nd 1 in
  let n := String.length (digits v) in
  let s := digits (strip_zeros n v) in
  match s with
  | String d EmptyString => String d "e+" +:+ digits (Z.of_nat n - 1)
  | String d rest =>
      String d ("." +:+ rest) +:+ "e+" +:+ digits (Z.of_nat n - 1)
  | EmptyString => s
  end.

(** [String(x)] for a finite [x >= 1e21]; a value past the largest double
    stands for an infinity. *)
Definition to_string_large (x : Q) : string :=
  if Double.overflows x then "Infinity"
  else exponent_notation (Qfloor (Double.round x)).

(** [x.toFixed(d)] for a finite [x]: fixed-point digits below 1e21, and
    [String(x)] from there on (Number.prototype.toFixed, step 9). *)
Definition toFixed (d : nat) (x : Q) : string :=
  if Qle_bool (inject_Z (10 ^ 21)) (Qabs x)
  then (if Qlt_le_dec x 0 then "-" else "") +:+ to_string_large (Qabs x)
  else if Qlt_le_dec x 0
  then "-" +:+ fixed_point d (round_digits d (Qabs x))
  else fixed_point d (round_digits d x).

End Fmt.

(** A JavaScript number: a finite value, an infinity or NaN.  Finite
    values are exact rationals, and the sign of zero is not tracked. *)
Inductive number :=
| Fin (q : Q)
| PosInf
| NegInf
| NaN.

Module Num.

Definition of_Z (z : Z) : number := Fin (inject_Z z).

Definition neg (a : number) : number :=
  match a with
  | Fin q => Fin (- q)%Q
  | PosInf => NegInf
  | NegInf => PosInf
  | NaN => NaN
  end.

Definition add (a b : number) : number :=
  match a, b with
  | NaN, _ | _, NaN => NaN
  | Fin x, Fin y => Fin (x + y)%Q
  | PosInf, NegInf | NegInf, PosInf => NaN
  | PosInf, _ | _, PosInf => PosInf
  | NegInf, _ | _, NegInf => NegInf
  end.

Definition sub (a b : number) : number := add a (neg b).

(** Sign of a number as seen by a division: zero counts as positive. *)
Definition negative (a : number) : bool :=
  match a with
  | Fin q => if Qlt_le_dec q 0 then true else false
  | NegInf => true
  | _ => false
  end.

Definition signed_inf (neg_sign : bool) : number :=
  if neg_sign then NegInf else PosInf.

Definition is_zero (q : Q) : bool := Qeq_bool q 0.

(** [a / b]: a finite quotient when the divisor is a non-zero finite
    number; [0 / 0] is NaN and any other division by zero an infinity. *)
Definition div (a b : number) : number :=
  match a, b with
  | NaN, _ | _, NaN => NaN
  | Fin x, Fin y =>
      if is_zero y
      then if is_zero x then NaN else signed_inf (negative a)
      else Fin (x / y)%Q
  | Fin _, _ => Fin 0
  | _, Fin _ => signed_inf (xorb (negative a) (negative b))
  | _, _ => NaN
  end.

(** The number a real rounds to. *)
Definition of_real (x : Q) : number :=
  if Double.overflows x
  then signed_inf (if Qlt_le_dec x 0 then true else false)
  else Fin (Double.round x).

(** [a * b], rounded; zero times an infinity is NaN. *)
Definition mul (a b : number) : number :=
  match a, b with
  | NaN, _ | _, NaN => NaN
  | Fin x, Fin y => of_real (x * y)
  | Fin x, _ | _, Fin x =>
      if is_zero x then NaN else signed_inf (xorb (negative a) (negative b))
  | _, _ => signed_inf (xorb (negative a) (negative b))
  end.

(** [x.toFixed(d)]; non-finite numbers print by name. *)
Definition toFixed (d : nat) (a : number) : string :=
  match a with
  | Fin q => Fmt.toFixed d q
  | PosInf => "Infinity"
  | NegInf => "-Infinity"
  | NaN => "NaN"
  end.

(** [Number(x.toFixed(d))]: the value the printed digits denote. *)
Definition rounded (d : nat) (a : number) : number :=
  match a with
  | Fin q =>
      let n := Fmt.round_digits d (Qabs q) in
      let v := (inject_Z n / inject_Z (10 ^ Z.of_nat d))%Q in
      Fin (if Qlt_le_dec q 0 then - v else v)%Q
  | _ => a
  end.

End Num.

(** ** Memory samples *)

Record MemorySample := mkMemorySample {
  usedJSHeapSize : option Z;
  totalJSHeapSize : option Z;
  jsHeapSizeLimit : option Z
}.

(** [formatMs]. *)
Definition formatMs (ms : number) : string := Num.toFixed 2 ms +:+ " ms".

Definition units : list string := ["B"; "KB"; "MB"; "GB"].

(** The [while (v >= 1024 && i < units.length - 1)] loop of [formatBytes].
    [room] is [units.length - 1 - i], the number of unit steps still
    allowed; the loop stops by itself when it reaches zero. *)
Fixpoint scale_loop (room : nat) (v : Q) (i : nat) : Q * nat :=
  match room with
  | O => (v, i)
  | S room' =>
      if Qle_bool 1024 v then scale_loop room' (v / 1024)%Q (S i) else (v, i)
  end.

Definition scaleBytes (abs : Z) : Q * nat :=
  scale_loop (length units - 1) (inject_Z abs) 0.

(** [formatBytes]; [None] is [undefined].  The deltas passed to it are
    differences of byte counts, hence integers. *)
Definition formatBytes (bytes : option Z) : string :=
  match bytes with
  | None => "-"
  | Some bytes =>
      let sign := if bytes <? 0 then "-" else "" in
      let abs := Z.abs bytes in
      let '(v, i) := scaleBytes abs in
      sign +:+ Fmt.toFixed 2 v +:+ " " +:+ default "" (units !! i)
  end.

Definition memDelta (a b : option MemorySample) : option Z :=
  let av := a ≫= usedJSHeapSize in
  let bv := b ≫= usedJSHeapSize in
  match av, bv with
  | Some av, Some bv => Some (bv - av)
  | _, _ => None
  end.

(** A sample of which only the used-heap count is known. *)
Definition used_only (n : Z) : option MemorySample :=
  Some (mkMemorySample (Some n) None None).

(** ** Props and React elements *)

(** The values a prop can hold in this page. *)
Inductive jsval :=
| VUndef
| VNum (n : Z)
| VStr (s : string)
| VObj (fields : list (string * jsval)).

(** A PropSet is a JavaScript object used as a map from keys to values. *)
Abbreviation PropSet := (gmap string jsval).

(** The three interchangeable implementations. *)
Inductive Impl := FlexBasic | NativeFlexBasicElement | RlkFlexbox.

Inductive ElementType :=
| HostTag (tag : string)
| FragmentT
| ProfilerT
| MountSignalT
| ImplT (impl : Impl).

(** A React element descriptor.  Callback props (the commit and profiler
    callbacks) are not data; their effect is part of [root_render]. *)
Inductive element :=
| Element (type : ElementType) (key : option string) (props : PropSet)
          (children : list element).

(** [String(v)] for the values used as keys. *)
Definition js_string (v : jsval) : string :=
  match v with
  | VUndef => "undefined"
  | VNum n => pretty n
  | VStr s => s
  | VObj _ => "[object Object]"
  end.

(** [React.createElement(type, config, children)]: the key is taken out of
    the config and turned into a string, the rest are the props. *)
Definition createElement (type : ElementType) (config : option PropSet)
    (children : list element) : element :=
  let cfg := default ∅ config in
  let key := match cfg !! "key" with
             | Some VUndef | None => None
             | Some v => Some (js_string v)
             end in
  Element type key (delete "key" cfg) children.

(** What a variable of type [unknown] holds in [runCreateOnlyForest]. *)
Inductive unknown :=
| Null
| Elem (e : element).

(** [React.isValidElement]: true exactly of element descriptors. *)
Definition isValidElement (v : unknown) : bool :=
  match v with
  | Null => false
  | Elem _ => true
  end.

(** ** Results *)

Abbreviation BenchName := string (only parsing).

Record Memory := mkMemory {
  createBefore : option MemorySample;
  createAfter : option MemorySample;
  mountBefore : option MemorySample;
  mountAfter : option MemorySample
}.

Record CaseResult := mkCaseResult {
  name : BenchName;
  createOnlyMsTotal : number;
  createOnlyMsPerOp : number;
  updateMsTotal : number;
  updateMsPerOp : number;
  reactActualDurationMsTotal : number;
  memory : option Memory
}.

(** The row printed by [console.table]. *)
Record ConsoleRow := mkConsoleRow {
  row_name : BenchName;
  row_random : bool;
  row_flexboxes : Z;
  row_items_per_flexbox : Z;
  row_props_sample : option PropSet;
  row_create_total_ms : number;
  row_create_ms_per_op : number;
  row_update_total_ms : number;
  row_update_ms_per_op : number;
  row_react_actual_ms_total : number;
  row_heap_delta_create : string;
  row_heap_delta_after_batch : string
}.

(** ** The host and the world *)

(** [performance.memory] when the browser exposes it. *)
Record HeapInfo := mkHeapInfo {
  heap_used : Z;
  heap_total : Z;
  heap_limit : Z
}.

(** A DOM string: its UTF-16 code units. *)
Abbreviation DOMString := (list N).

(** The code units of a literal written in ASCII. *)
Definition code_units (s : string) : DOMString :=
  Ascii.N_of_ascii <$> String.list_ascii_of_string s.

(** A [<style>] element of the document with its [data-emotion] attribute,
    if it has one. *)
Record StyleTag := mkStyleTag { data_emotion : option DOMString }.

(** What the browser answers: whether [window.gc] is a function, and the
    successive readings of the clock, of the heap counters and of the
    random source; per [root.render], the durations the profiler reports
    for that commit and the style tags the implementation injects. *)
Record Host := mkHost {
  gc_exposed : bool;
  performance_now : nat -> Q;
  performance_memory : nat -> option HeapInfo;
  math_random : nat -> Q;
  profiler_durations : nat -> list Q;
  injected_styles : nat -> list StyleTag
}.

(** How many readings of each kind have been taken. *)
Record Cursors := mkCursors {
  clock_reads : nat;
  memory_reads : nat;
  random_draws : nat;
  renders : nat
}.

(** A [<div>] made by [document.createElement], known by its identity. *)
Record Container := mkContainer {
  cid : nat;
  cstyle : list (string * string)
}.

Record Document := mkDocument {
  created : nat;
  body : list Container;
  head : list StyleTag;
  roots : list (nat * option element)
}.

(** The component state kept by [useState]. *)
Record Page := mkPage {
  running : bool;
  results : option (list CaseResult);
  error : option string
}.

Inductive Event :=
| EvGC
| EvFrame
| EvConsoleTable (rows : list ConsoleRow).

Record World := mkWorld {
  host : Host;
  cursors : Cursors;
  log : list Event;
  document : Document;
  page : Page
}.

Definition with_cursors (f : Cursors -> Cursors) (w : World) : World :=
  mkWorld (host w) (f (cursors w)) (log w) (document w) (page w).
Definition with_log (f : list Event -> list Event) (w : World) : World :=
  mkWorld (host w) (cursors w) (f (log w)) (document w) (page w).
Definition with_document (f : Document -> Document) (w : World) : World :=
  mkWorld (host w) (cursors w) (log w) (f (document w)) (page w).
Definition with_page (f : Page -> Page) (w : World) : World :=
  mkWorld (host w) (cursors w) (log w) (document w) (f (page w)).

(** ** Computations: state passing with exceptions *)

Inductive exn :=
| Error (message : string)
| TypeError (message : string).

Definition message (e : exn) : string :=
  match e with
  | Error m | TypeError m => m
  end.

Inductive outcome (A : Type) :=
| Return (a : A)
| Throw (e : exn).
Arguments Return {A} a.
Arguments Throw {A} e.

(** A computation runs in a world and leaves a world, also when it throws:
    effects done before the exception stay done. *)
Definition M (A : Type) : Type := World -> outcome A * World.

Definition ret {A} (a : A) : M A := fun w => (Return a, w).
Definition throw {A} (e : exn) : M A := fun w => (Throw e, w).
Definition bind {A B} (m : M A) (k : A -> M B) : M B :=
  fun w =>
    match m w with
    | (Return a, w') => k a w'
    | (Throw e, w') => (Throw e, w')
    end.
Definition get : M World := fun w => (Return w, w).
Definition modify (f : World -> World) : M unit := fun w => (Return tt, f w).

Declare Scope js_scope.
Delimit Scope js_scope with js.
Notation "x <- m ;; k" := (bind m (fun x => k))
  (at level 100, m at next level, right associativity) : js_scope.
Notation "m ;; k" := (bind m (fun _ => k))
  (at level 100, right associativity) : js_scope.
Local Open Scope js_scope.

(** [try { body } catch (e) { handler e } finally { fin }]. *)
Definition try_catch_finally (body : M unit) (handler : exn -> M unit)
    (fin : M unit) : M unit :=
  fun w =>
    match body w with
    | (Return _, w1) => fin w1
    | (Throw e, w1) =>
        match handler e w1 with
        | (Return _, w2) => fin w2
        | (Throw e', w2) =>
            match fin w2 with
            | (Return _, w3) => (Throw e', w3)
            | (Throw e'', w3) => (Throw e'', w3)
            end
        end
    end.

(** [for (let i = 0; i < bound; i++)] with the loop's variables in [s]. *)
Fixpoint for_loop {S} (n : nat) (i : Z) (body : Z -> S -> M S) (s : S) : M S :=
  match n with
  | O => ret s
  | Datatypes.S n' => s' <- body i s ;; for_loop n' (i + 1) body s'
  end.

Definition for_upto {S} (bound : Z) (body : Z -> S -> M S) (s : S) : M S :=
  for_loop (Z.to_nat bound) 0 body s.

(** [Array.from({ length }, () => f())]: [length] calls, in order; a
    negative length counts as zero. *)
Fixpoint repeatM {A} (n : nat) (f : M A) : M (list A) :=
  match n with
  | O => ret []
  | Datatypes.S n' => x <- f ;; xs <- repeatM n' f ;; ret (x :: xs)
  end.

Definition array_from {A} (length : Z) (f : M A) : M (list A) :=
  repeatM (Z.to_nat length) f.

(** [arr[idx]]: [None] stands for [undefined], also out of range. *)
Definition js_index {A} (arr : list A) (idx : Z) : option A :=
  if idx <? 0 then None else arr !! Z.to_nat idx.

(** ** Host primitives *)

Definition log_event (e : Event) : M unit :=
  modify (with_log (fun l => l ++ [e])).

(** [raf]: resolves at the next animation frame. *)
Definition raf : M unit := log_event EvFrame.

Definition now : M number :=
  fun w =>
    let c := cursors w in
    (Return (Fin (performance_now (host w) (clock_reads c))),
     with_cursors (fun c => mkCursors (S (clock_reads c)) (memory_reads c)
                                      (random_draws c) (renders c)) w).

Definition maybeGC : M unit :=
  w <- get ;;
  if gc_exposed (host w)
  then log_event EvGC ;; raf
  else ret tt.

Definition readMemory : M (option MemorySample) :=
  fun w =>
    let c := cursors w in
    let w' := with_cursors (fun c => mkCursors (clock_reads c) (S (memory_reads c))
                                               (random_draws c) (renders c)) w in
    match performance_memory (host w) (memory_reads c) with
    | None => (Return None, w')
    | Some mem =>
        (Return (Some (mkMemorySample (Some (heap_used mem))
                                      (Some (heap_total mem))
                                      (Some (heap_limit mem)))), w')
    end.

(** [Math.random()]. *)
Definition random : M Q :=
  fun w =>
    let c := cursors w in
    (Return (math_random (host w) (random_draws c)),
     with_cursors (fun c => mkCursors (clock_reads c) (memory_reads c)
                                      (S (random_draws c)) (renders c)) w).

(** The code units [trim] strips: the WhiteSpace and LineTerminator code
    points of ECMAScript (tab, line feed, vertical tab, form feed,
    carriage return, space, U+00A0, U+1680, U+2000 to U+200A, U+2028,
    U+2029, U+202F, U+205F, U+3000, U+FEFF), all of one code unit. *)
Definition is_white_space (c : N) : bool :=
  (existsb (N.eqb c)
     [9; 10; 11; 12; 13; 32; 160; 5760; 8232; 8233; 8239; 8287; 12288; 65279]
   || (8192 <=? c) && (c <=? 8202))%N.

Fixpoint trim_start (s : DOMString) : DOMString :=
  match s with
  | c :: s' => if is_white_space c then trim_start s' else s
  | [] => s
  end.

Definition trim_end (s : DOMString) : DOMString := rev (trim_start (rev s)).

(** [s.trim()]. *)
Definition trim (s : DOMString) : DOMString := trim_end (trim_start s).

(** [s.startsWith(p)]. *)
Fixpoint starts_with (p s : DOMString) : bool :=
  match p, s with
  | [], _ => true
  | a :: p', b :: s' => (a =? b)%N && starts_with p' s'
  | _ :: _, [] => false
  end.

(** Removes the [<style data-emotion="css ...">] tags. *)
Definition cleanupEmotionStyleTags : M unit :=
  modify (with_document (fun d =>
    let doomed (el : StyleTag) : bool :=
      match data_emotion el with
      | None => false
      | Some key => starts_with (code_units "css") (trim key)
      end in
    mkDocument (created d) (body d)
               (List.filter (fun el => negb (doomed el)) (head d)) (roots d))).

(** [document.createElement('div')]. *)
Definition document_createElement : M Container :=
  fun w =>
    let d := document w in
    (Return (mkContainer (created d) []),
     with_document (fun d => mkDocument (S (created d)) (body d) (head d) (roots d)) w).

(** [container.style.prop = value]. *)
Definition set_style (prop value : string) (c : Container) : Container :=
  mkContainer (cid c) (cstyle c ++ [(prop, value)]).

(** [document.body.appendChild(container)]. *)
Definition body_appendChild (c : Container) : M unit :=
  modify (with_document (fun d =>
    mkDocument (created d) (body d ++ [c]) (head d) (roots d))).

(** [container.remove()]. *)
Definition container_remove (c : Container) : M unit :=
  modify (with_document (fun d =>
    mkDocument (created d)
               (List.filter (fun c' => negb (Nat.eqb (cid c') (cid c))) (body d))
               (head d) (roots d))).

(** [createRoot(container)]: a root with nothing rendered yet, known by
    its container. *)
Definition createRoot (c : Container) : M nat :=
  fun w =>
    (Return (cid c),
     with_document (fun d =>
       mkDocument (created d) (body d) (head d)
                  ((cid c, None) :: roots d)) w).

Definition set_root (root : nat) (tree : option element)
    (rs : list (nat * option element)) : list (nat * option element) :=
  List.map (fun r => if Nat.eqb (fst r) root then (root, tree) else r) rs.

(** [root.render(tree)] up to the commit: the tree becomes the root's
    content, the implementation may inject style tags, and the profiler
    callback is called with the durations the host reports. *)
Definition root_render (root : nat) (tree : element) : M (list Q) :=
  fun w =>
    let k := renders (cursors w) in
    let w1 := with_document (fun d =>
                mkDocument (created d) (body d)
                           (head d ++ injected_styles (host w) k)
                           (set_root root (Some tree) (roots d))) w in
    (Return (profiler_durations (host w) k),
     with_cursors (fun c => mkCursors (clock_reads c) (memory_reads c)
                                      (random_draws c) (S (renders c))) w1).

(** [root.unmount()]. *)
Definition root_unmount (root : nat) : M unit :=
  modify (with_document (fun d =>
    mkDocument (created d) (body d) (head d)
               (List.filter (fun r => negb (Nat.eqb (fst r) root)) (roots d)))).

(** [setRunning], [setError], [setResults] with an updater. *)
Definition setRunning (b : bool) : M unit :=
  modify (with_page (fun p => mkPage b (results p) (error p))).
Definition setError (e : option string) : M unit :=
  modify (with_page (fun p => mkPage (running p) (results p) e)).
Definition setResults (f : option (list CaseResult) -> option (list CaseResult))
    : M unit :=
  modify (with_page (fun p => mkPage (running p) (f (results p)) (error p))).

(** ** The result store *)

(** [list.findIndex(p)], [-1] when no entry satisfies [p]. *)
Fixpoint findIndex_from {A} (p : A -> bool) (l : list A) (i : Z) : Z :=
  match l with
  | [] => -1
  | x :: l' => if p x then i else findIndex_from p l' (i + 1)
  end.

Definition findIndex {A} (p : A -> bool) (l : list A) : Z :=
  findIndex_from p l 0.

(** The updater passed to [setResults] by [upsertResult]. *)
Definition upsert (next : CaseResult) (prev : option (list CaseResult))
    : list CaseResult :=
  let list := default [] prev in
  let idx := findIndex (fun r => String.eqb (name r) (name next)) list in
  if 0 <=? idx then <[Z.to_nat idx := next]> list else list ++ [next].

Definition upsertResult (next : CaseResult) : M unit :=
  setResults (fun prev => Some (upsert next prev)).

(** ** Phase results *)

Module Create.
Record memory_t := mkMemory {
  createBefore : option MemorySample;
  createAfter : option MemorySample
}.
Record result := mkResult {
  name : BenchName;
  createOnlyMsTotal : number;
  createOnlyMsPerOp : number;
  memory : memory_t
}.
End Create.

Module Update.
Record memory_t := mkMemory {
  mountBefore : option MemorySample;
  mountAfter : option MemorySample
}.
Record result := mkResult {
  name : BenchName;
  updateMsTotal : number;
  updateMsPerOp : number;
  reactActualDurationMsTotal : number;
  memory : memory_t
}.
End Update.

(** ** The component *)

(** The settings the component's closures capture.  The counters are
    the whole numbers delivered by the number inputs; they can be zero or
    negative, which the inputs' [min] attributes do not prevent. *)
Record Config := mkConfig {
  createIterations : Z;
  mountLoops : Z;
  flexboxCount : Z;
  itemsPerFlexbox : Z;
  randomPropsEnabled : bool
}.

(** [buildChildren(count)]: [count] placeholder [<div>]s keyed by index. *)
Definition buildChildren (count : Z) : list element :=
  (fun i =>
     createElement (HostTag "div")
       (Some (<["style" := VObj [("width", VNum 4); ("height", VNum 4)]]>
              (<["key" := VNum i]> ∅)))
       []) <$> seqZ 0 count.

Definition directions : list jsval :=
  [VStr "horizontal"; VStr "horizontal-reverse"; VStr "vertical";
   VStr "vertical-reverse"].
Definition aligns : list jsval :=
  [VStr "stretch"; VStr "center"; VStr "flex-start"; VStr "flex-end";
   VStr "start"; VStr "end"; VStr "baseline"].
Definition justifies : list jsval :=
  [VStr "flex-start"; VStr "center"; VStr "flex-end"; VStr "space-between";
   VStr "space-around"; VStr "space-evenly"; VStr "start"; VStr "end";
   VStr "left"; VStr "right"].
Definition wraps : list jsval := [VStr "nowrap"; VStr "wrap"; VStr "wrap-reverse"].
Definition gaps : list jsval :=
  [VNum 0; VNum 2; VNum 4; VNum 8; VNum 12; VNum 16; VNum 24].
Definition paddings : list jsval :=
  [VNum 0; VNum 2; VNum 4; VNum 8; VNum 12; VNum 16; VNum 24].
Definition sizes : list jsval :=
  [VNum 120; VNum 240; VNum 360; VNum 480; VNum 640].
Definition flexChoices : list jsval :=
  [VNum 0; VNum 1; VNum 2; VNum 3; VStr "0 1 auto"].

(** [arr[Math.floor(Math.random() * arr.length)]]: the product is
    rounded to a double before the floor is taken; the floor of an
    infinity is that infinity, which is no index. *)
Definition pick (arr : list jsval) : M jsval :=
  r <- random ;;
  ret (match Num.mul (Fin r) (Num.of_Z (Z.of_nat (length arr))) with
       | Fin x => default VUndef (js_index arr (Qfloor x))
       | _ => VUndef
       end).

(** [Math.random() < probability ? value : undefined], a comparison of
    two doubles. *)
Definition maybe (value : jsval) (probability : Q) : M jsval :=
  r <- random ;;
  ret (if Qlt_le_dec r probability then value else VUndef).

(** [if (v !== undefined) next[key] = v]. *)
Definition set_if_defined (key : string) (v : jsval) (next : PropSet) : PropSet :=
  match v with
  | VUndef => next
  | _ => <[key := v]> next
  end.

(** The literals [0.35] and [0.4] denote the doubles nearest to them. *)
Definition buildRandomProps : M PropSet :=
  direction <- pick directions ;;
  align <- pick aligns ;;
  justify <- pick justifies ;;
  wrap <- pick wraps ;;
  gap <- pick gaps ;;
  padding <- pick paddings ;;
  let next : PropSet :=
    <["padding" := padding]> (<["gap" := gap]> (<["wrap" := wrap]>
    (<["justify" := justify]> (<["align" := align]>
    (<["direction" := direction]> ∅))))) in
  ws <- pick sizes ;;
  w <- maybe ws (Double.round (35 # 100)) ;;
  let next := set_if_defined "width" w next in
  hs <- pick sizes ;;
  h <- maybe hs (Double.round (35 # 100)) ;;
  let next := set_if_defined "height" h next in
  fs <- pick flexChoices ;;
  f <- maybe fs (Double.round (4 # 10)) ;;
  let next := set_if_defined "flex" f next in
  ret next.

Definition buildFixedProps : PropSet :=
  <["wrap" := VStr "wrap"]> (<["align" := VStr "center"]>
  (<["justify" := VStr "space-between"]> (<["padding" := VNum 8]>
  (<["gap" := VNum 8]> (<["direction" := VStr "horizontal"]> ∅))))).

(** The registered cases. *)
Definition cases : list (BenchName * Impl) :=
  [("local(FlexBasic)", FlexBasic);
   ("native(WebComponent)", NativeFlexBasicElement);
   ("react-layout-kit(Flexbox)", RlkFlexbox)].

Section PerfBatch.

Variable cfg : Config.

Definition buildPropsList : M (list PropSet) :=
  for_upto (flexboxCount cfg)
    (fun _ list =>
       p <- (if randomPropsEnabled cfg then buildRandomProps
             else ret buildFixedProps) ;;
       ret (list ++ [p]))
    [].

(** [propsList.map((p, idx) => createElement(Impl, {...p, key: idx},
    buildChildren(itemsPerFlexbox)))]. *)
Definition implElements (impl : Impl) (propsList : list PropSet) : list element :=
  imap (fun idx p =>
          createElement (ImplT impl)
            (Some (<["key" := VNum (Z.of_nat idx)]> p))
            (buildChildren (itemsPerFlexbox cfg)))
       propsList.

Definition buildBenchmarkTree (impl : Impl) (propsList : list PropSet) : element :=
  let children :=
    implElements impl propsList ++
    [createElement MountSignalT (Some (<["key" := VStr "__m"]> ∅)) []] in
  createElement ProfilerT (Some (<["id" := VStr "bench"]> ∅))
    [createElement FragmentT None children].

Definition runCreateOnlyForest (name : BenchName) (impl : Impl)
    (propsList : list PropSet) (iterations : Z) : M Create.result :=
  maybeGC ;;
  before <- readMemory ;;
  start <- now ;;
  last <- for_upto iterations
            (fun _ _ =>
               ret (Elem (createElement FragmentT None
                            (implElements impl propsList))))
            Null ;;
  (if isValidElement last then ret tt
   else throw (Error "create-only sanity check failed")) ;;
  end_ <- now ;;
  maybeGC ;;
  afterCreate <- readMemory ;;
  let total := Num.sub end_ start in
  ret (Create.mkResult name total (Num.div total (Num.of_Z iterations))
         (Create.mkMemory before afterCreate)).

(** [renderAndWait] of the update phase, for the root of that phase.  The
    profiler callback adds up the durations of the commit; the commit
    signal is taken to arrive. *)
Definition renderAndWait (root : nat) (impl : Impl)
    (nextPropsList : option (list PropSet)) : M (number * number) :=
  t0 <- now ;;
  tree <- match nextPropsList with
          | Some l => ret (buildBenchmarkTree impl l)
          | None =>
              throw (TypeError
                "Cannot read properties of undefined (reading 'map')")
          end ;;
  ds <- root_render root tree ;;
  let actualDurationMs :=
    fold_left (fun acc d => Num.add acc (Fin d)) ds (Fin 0) in
  raf ;;
  t1 <- now ;;
  ret (Num.sub t1 t0, actualDurationMs).

Definition runUpdateBatchKeepMounted (name : BenchName) (impl : Impl)
    (propsLists : list (list PropSet)) (loops : Z) : M Update.result :=
  if Z.of_nat (length propsLists) <? loops + 1
  then throw (Error "propsLists must include warmup + loops")
  else
    container <- document_createElement ;;
    let container :=
      set_style "top" "0"
        (set_style "left" "-10000px"
           (set_style "position" "absolute" container)) in
    body_appendChild container ;;
    root <- createRoot container ;;
    renderAndWait root impl (js_index propsLists 0) ;;
    maybeGC ;;
    before <- readMemory ;;
    totals <- for_upto loops
                (fun i totals =>
                   r <- renderAndWait root impl (js_index propsLists (i + 1)) ;;
                   ret (Num.add (fst totals) (fst r),
                        Num.add (snd totals) (snd r)))
                (Fin 0, Fin 0) ;;
    maybeGC ;;
    after <- readMemory ;;
    root_unmount root ;;
    container_remove container ;;
    raf ;;
    cleanupEmotionStyleTags ;;
    maybeGC ;;
    ret (Update.mkResult name (fst totals)
           (Num.div (fst totals) (Num.of_Z loops)) (snd totals)
           (Update.mkMemory before after)).

(** [Array.from({ length: mountLoops + 1 }, () => buildPropsList())]. *)
Definition propsListsForUpdate : M (list (list PropSet)) :=
  array_from (mountLoops cfg + 1) buildPropsList.

Definition merge (n : BenchName) (create : Create.result)
    (update : Update.result) : CaseResult :=
  mkCaseResult n
    (Create.createOnlyMsTotal create) (Create.createOnlyMsPerOp create)
    (Update.updateMsTotal update) (Update.updateMsPerOp update)
    (Update.reactActualDurationMsTotal update)
    (Some (mkMemory
             (Create.createBefore (Create.memory create))
             (Create.createAfter (Create.memory create))
             (Update.mountBefore (Update.memory update))
             (Update.mountAfter (Update.memory update)))).

Definition console_row (propsList : list PropSet) (r : CaseResult) : ConsoleRow :=
  mkConsoleRow (name r) (randomPropsEnabled cfg) (flexboxCount cfg)
    (itemsPerFlexbox cfg) (js_index propsList 0)
    (Num.rounded 2 (createOnlyMsTotal r))
    (Num.rounded 6 (createOnlyMsPerOp r))
    (Num.rounded 2 (updateMsTotal r))
    (Num.rounded 4 (updateMsPerOp r))
    (Num.rounded 2 (reactActualDurationMsTotal r))
    (formatBytes (memDelta (memory r ≫= createBefore) (memory r ≫= createAfter)))
    (formatBytes (memDelta (memory r ≫= mountBefore) (memory r ≫= mountAfter))).

(** The [try] block of [runOne]. *)
Definition runOne_try (name : BenchName) : M unit :=
  raf ;;
  c <- match List.find (fun x => String.eqb (fst x) name) cases with
       | Some c => ret c
       | None => throw (Error ("Unknown case: " +:+ name))
       end ;;
  propsList <- buildPropsList ;;
  propsLists <- propsListsForUpdate ;;
  create <- runCreateOnlyForest (fst c) (snd c) propsList (createIterations cfg) ;;
  update <- runUpdateBatchKeepMounted (fst c) (snd c) propsLists (mountLoops cfg) ;;
  let merged := merge (fst c) create update in
  upsertResult merged ;;
  log_event (EvConsoleTable [console_row propsList merged]).

Definition runOne (name : BenchName) : M unit :=
  setError None ;;
  setRunning true ;;
  try_catch_finally
    (runOne_try name)
    (fun e => setError (Some (message e)))
    (setRunning false).

End PerfBatch.

(** * Vocabulary of the statements *)

(** The sign printed in front of a byte delta. *)
Definition delta_sign (d : Z) : string := if d <? 0 then "-" else "".

(** Replace-or-append, by recursion on the store: the first entry with
    the name of [next] is replaced, and [next] is appended when there is
    none. *)
Fixpoint replace_or_append (next : CaseResult) (l : list CaseResult)
    : list CaseResult :=
  match l with
  | [] => [next]
  | r :: l' =>
      if String.eqb (name r) (name next) then next :: l'
      else r :: replace_or_append next l'
  end.

(** Position of the first entry with the name of [next]. *)
Fixpoint first_same (next : CaseResult) (l : list CaseResult) : option nat :=
  match l with
  | [] => None
  | r :: l' =>
      if String.eqb (name r) (name next) then Some 0%nat
      else S <$> first_same next l'
  end.

(** The case names held by a store, in order. *)
Definition names (s : option (list CaseResult)) : list string :=
  name <$> default [] s.

(** The entries of case [n]. *)
Definition named (n : string) (r : CaseResult) : bool := String.eqb (name r) n.

(** The states of the Result Store: it starts empty, Clear empties it, and
    every other change is an upsert. *)
Inductive store_state : option (list CaseResult) -> Prop :=
| store_cleared : store_state None
| store_upserted (r : CaseResult) (s : option (list CaseResult)) :
    store_state s -> store_state (Some (upsert r s)).

(** The fixed PropSet, written as the object literal it is compared with. *)
Definition fixed_literal : PropSet :=
  list_to_map
    [("direction", VStr "horizontal"); ("gap", VNum 8); ("padding", VNum 8);
     ("justify", VStr "space-between"); ("align", VStr "center");
     ("wrap", VStr "wrap")].

(** One more reading of the random source. *)
Definition drawn (w : World) : World :=
  with_cursors (fun c => mkCursors (clock_reads c) (memory_reads c)
                                   (S (random_draws c)) (renders c)) w.

(** The random source answers with doubles in [0, 1). *)
Definition unit_interval_source (h : Host) : Prop :=
  forall k : nat,
    Double.binary64 (math_random h k) = true /\ (0 <= math_random h k < 1)%Q.

(** A value of the given enumeration under [key]. *)
Definition drawn_from (arr : list jsval) (key : string) (p : PropSet) : Prop :=
  exists v, p !! key = Some v /\ v ∈ arr.

(** Absent, or a value of the given enumeration under [key]. *)
Definition optional_from (arr : list jsval) (key : string) (p : PropSet) : Prop :=
  p !! key = None \/ drawn_from arr key p.

(** [spec m w Qr Qt]: run in [w], the computation [m] either returns a
    value and a world satisfying [Qr] or throws an exception in a world
    satisfying [Qt]. *)
Definition spec {A} (m : M A) (w : World)
    (Qr : A -> World -> Prop) (Qt : exn -> World -> Prop) : Prop :=
  match m w with
  | (Return a, w') => Qr a w'
  | (Throw e, w') => Qt e w'
  end.

(** What the measured code leaves alone: [frame w w' k] says that [w']
    has the host and the component state of [w], and [k] more clock
    readings taken. *)
Record frame (w w' : World) (k : nat) : Prop := mkFrame {
  frame_host : host w' = host w;
  frame_page : page w' = page w;
  frame_clock : clock_reads (cursors w') = (clock_reads (cursors w) + k)%nat
}.

(** A step that always returns, reads the clock [k] times and keeps the
    host and the component state. *)
Definition quiet {A} (k : nat) (m : M A) : Prop :=
  forall w, exists a w', m w = (Return a, w') /\ frame w w' k.

(** ** A sample host, for examples *)

Module Sample.

(** The clock advances one millisecond per reading, the heap grows by a
    kilobyte per reading, the random source always answers one half. *)
Definition host (gc : bool) : Host :=
  mkHost gc
    (fun k => inject_Z (Z.of_nat k))
    (fun k => Some (mkHeapInfo (1000 * Z.of_nat k) 50000 90000))
    (fun _ => 1 # 2)%Q
    (fun _ => [1 # 4]%Q)
    (fun _ => []).

Definition world (gc : bool) : World :=
  mkWorld (host gc) (mkCursors 0 0 0 0) [] (mkDocument 0 [] [] [])
          (mkPage false None None).

Definition config (iterations loops : Z) : Config :=
  mkConfig iterations loops 2 1 false.

Definition result (n : BenchName) (ms : Z) : CaseResult :=
  mkCaseResult n (Num.of_Z ms) (Num.of_Z ms) (Num.of_Z ms) (Num.of_Z ms)
               (Num.of_Z ms) None.

End Sample.

(** The world in which the creation loop runs: after settling, the first
    memory sample and the start reading. *)
Definition create_started (w : World) : World :=
  snd (now (snd (readMemory (snd (maybeGC w))))).

(** The clock reading taken [k] readings after the world [w]. *)
Definition clock_of (w : World) (k : nat) : number :=
  Fin (performance_now (host w) (clock_reads (cursors w) + k)).

(** Sum of the wall times of [j] measured renders, the first of which
    starts at clock reading [c]; each render takes two readings. *)
Fixpoint wall_total (h : Host) (c : nat) (j : nat) : number :=
  match j with
  | O => Fin 0
  | S j' =>
      Num.add (wall_total h c j')
              (Num.sub (Fin (performance_now h (S (c + 2 * j'))))
                       (Fin (performance_now h (c + 2 * j'))))
  end.

(** A computation that leaves the component state alone, whether it
    returns or throws. *)
Definition keeps_page {A} (m : M A) : Prop :=
  forall w, page (snd (m w)) = page w.

(** Number of readings of the random source taken so far. *)
Definition draws (w : World) : nat := random_draws (cursors w).

(** A step that always returns and takes [k] readings of the random
    source, with a result satisfying [P]. *)
Definition draws_exactly {A} (k : nat) (P : A -> Prop) (m : M A) : Prop :=
  forall w, exists a w',
    m w = (Return a, w') /\ P a /\ draws w' = (draws w + k)%nat.

(** Readings of the random source taken by one call of [buildPropsList]. *)
Definition draws_per_list (cfg : Config) : nat :=
  if randomPropsEnabled cfg then (12 * Z.to_nat (flexboxCount cfg))%nat else 0%nat.

(** The world in which the [try] block of [runOne] starts: the error is
    cleared and the running flag set. *)
Definition started (w : World) : World :=
  with_page (fun p => mkPage true (results p) None) w.

(** * Vocabulary of the further properties *)

(** The events one call of [maybeGC] adds on the host [h]. *)
Definition gc_events (h : Host) : list Event :=
  if gc_exposed h then [EvGC; EvFrame] else [].

(** The style tags [cleanupEmotionStyleTags] removes: those whose
    [data-emotion] attribute, trimmed, starts with [css]. *)
Definition is_emotion_css (el : StyleTag) : bool :=
  match data_emotion el with
  | None => false
  | Some key => starts_with (code_units "css") (trim key)
  end.

(** An attribute value that reads [css] after any white space. *)
Definition css_keyed (key : DOMString) : Prop :=
  exists ws rest,
    key = ws ++ code_units "css" ++ rest /\
    Forall (fun c => is_white_space c = true) ws.

(** A style tag of the emotion cache [css]. *)
Definition emotion_tag (el : StyleTag) : Prop :=
  exists key, data_emotion el = Some key /\ css_keyed key.

(** [without_emotion_tags l l']: the list [l'] is [l] with the tags of
    the emotion cache taken out and every other tag left in its place. *)
Inductive without_emotion_tags : list StyleTag -> list StyleTag -> Prop :=
| tags_done : without_emotion_tags [] []
| tag_removed (el : StyleTag) (l l' : list StyleTag) :
    emotion_tag el ->
    without_emotion_tags l l' -> without_emotion_tags (el :: l) l'
| tag_kept (el : StyleTag) (l l' : list StyleTag) :
    ~ emotion_tag el ->
    without_emotion_tags l l' -> without_emotion_tags (el :: l) (el :: l').

(** The identities in use in a document are below the next one that
    [document.createElement] hands out. *)
Definition fresh_ids (d : Document) : Prop :=
  Forall (fun c => (cid c < created d)%nat) (body d) /\
  Forall (fun r => (fst r < created d)%nat) (roots d).

(** The sample [readMemory] makes of a heap reading. *)
Definition sample_of (mem : HeapInfo) : MemorySample :=
  mkMemorySample (Some (heap_used mem)) (Some (heap_total mem))
                 (Some (heap_limit mem)).

(** The [k]-th memory sample the host gives. *)
Definition memory_at (h : Host) (k : nat) : option MemorySample :=
  sample_of <$> performance_memory h k.

(** [moved w w' dc dm dr ev]: from [w] to [w'] the host, the component
    state and the random cursor are kept, [dc] clock readings, [dm] heap
    readings and [dr] renders are taken, and the events [ev] are added. *)
Record moved (w w' : World) (dc dm dr : nat) (ev : list Event) : Prop := mkMoved {
  moved_host : host w' = host w;
  moved_page : page w' = page w;
  moved_random : random_draws (cursors w') = random_draws (cursors w);
  moved_clock : clock_reads (cursors w') = (clock_reads (cursors w) + dc)%nat;
  moved_memory : memory_reads (cursors w') = (memory_reads (cursors w) + dm)%nat;
  moved_renders : renders (cursors w') = (renders (cursors w) + dr)%nat;
  moved_log : log w' = log w ++ ev
}.

(** What the profiler callback adds up during the [k]-th render. *)
Definition commit_duration (h : Host) (k : nat) : number :=
  fold_left (fun acc d => Num.add acc (Fin d)) (profiler_durations h k) (Fin 0).

(** Sum of the profiler durations of [j] renders from the [r]-th on. *)
Fixpoint actual_total (h : Host) (r : nat) (j : nat) : number :=
  match j with
  | O => Fin 0
  | S j' => Num.add (actual_total h r j') (commit_duration h (r + j'))
  end.

(** The style tags injected by [j] renders from the [r]-th on. *)
Definition injected_by (h : Host) (r j : nat) : list StyleTag :=
  flat_map (injected_styles h) (seq r j).

(** The offscreen container the update phase makes in the document [d]. *)
Definition offscreen (d : Document) : Container :=
  set_style "top" "0"
    (set_style "left" "-10000px"
       (set_style "position" "absolute" (mkContainer (created d) []))).

(** The world after [k] more readings of the random source. *)
Definition after_draws (k : nat) (w : World) : World := Nat.iter k drawn w.

(** A step that always returns, with a result satisfying [P], and does
    nothing but read the random source [k] times. *)
Definition generates {A} (k : nat) (P : A -> Prop) (m : M A) : Prop :=
  forall w, exists a, m w = (Return a, after_draws k w) /\ P a.

(** The case names the page registers. *)
Definition case_names : list string := fst <$> cases.

(** The result a successful run of the case [name] stores, for a run
    started in [w]: the creation total is the difference of the first two
    clock readings, the update total the sum over the measured renders
    after the warmup, and the memory samples are the first four heap
    readings. *)
Definition expected_result (cfg : Config) (name : BenchName) (w : World)
    : CaseResult :=
  let h := host w in
  let c := clock_reads (cursors w) in
  let m := memory_reads (cursors w) in
  let n := Z.to_nat (mountLoops cfg) in
  let ctotal := Num.sub (Fin (performance_now h (S c))) (Fin (performance_now h c)) in
  let utotal := wall_total h (c + 4) n in
  mkCaseResult name
    ctotal (Num.div ctotal (Num.of_Z (createIterations cfg)))
    utotal (Num.div utotal (Num.of_Z (mountLoops cfg)))
    (actual_total h (S (renders (cursors w))) n)
    (Some (mkMemory (memory_at h m) (memory_at h (S m))
                    (memory_at h (S (S m))) (memory_at h (S (S (S m)))))).

(** The events of a successful run, before the console table. *)
Definition run_events (cfg : Config) (h : Host) : list Event :=
  [EvFrame] ++ (gc_events h ++ gc_events h) ++
  ([EvFrame] ++ gc_events h ++ replicate (Z.to_nat (mountLoops cfg)) EvFrame ++
   gc_events h ++ [EvFrame] ++ gc_events h).

(** The buttons of the page. *)
Inductive Button := RunLocal | RunNative | RunRlk | ClearBtn.

(** [onClick] of a button, with the settings of the render in which it
    is clicked.  Every button is disabled while a run is in flight, and a
    disabled button does not call its handler. *)
Definition click (cfg : Config) (b : Button) : M unit :=
  w <- get ;;
  if running (page w) then ret tt
  else match b with
       | RunLocal => runOne cfg "local(FlexBasic)"
       | RunNative => runOne cfg "native(WebComponent)"
       | RunRlk => runOne cfg "react-layout-kit(Flexbox)"
       | ClearBtn => setResults (fun _ => None)
       end.

(** A sequence of clicks, each with the settings in force at the time. *)
Fixpoint clicks (l : list (Config * Button)) : M unit :=
  match l with
  | [] => ret tt
  | (cfg, b) :: rest => click cfg b ;; clicks rest
  end.

(** The invariant of the Result Store: one row per name, and only names
    of registered cases. *)
Definition store_ok (s : option (list CaseResult)) : Prop :=
  NoDup (names s) /\ forall n, n ∈ names s -> n ∈ case_names.

(** A world whose random source always answers the double nearest to
    4/7, which is below 4/7. *)
Definition rounding_world : World :=
  mkWorld
    (mkHost true (fun k => inject_Z (Z.of_nat k)) (fun _ => None)
            (fun _ => Double.round (4 # 7)) (fun _ => []) (fun _ => []))
    (mkCursors 0 0 0 0) [] (mkDocument 0 [] [] []) (mkPage false None None).

(** The [k]-th answer of the random source from the world [w] on. *)
Definition nth_draw (w : World) (k : nat) : Q :=
  math_random (host w) (random_draws (cursors w) + k).

(** The product [r * arr.length] as the code computes it, in doubles. *)
Definition scaled (arr : list jsval) (r : Q) : Q :=
  Double.round (r * inject_Z (Z.of_nat (length arr))).

(** [arr[Math.floor(r * arr.length)]] as a lookup. *)
Definition bucket (arr : list jsval) (r : Q) : option jsval :=
  arr !! Z.to_nat (Qfloor (scaled arr r)).

(** The value a field gets when it is set only if [r] is below [p]. *)
Definition gated (p r : Q) (v : option jsval) : option jsval :=
  if Qlt_le_dec r p then v else None.

(** The keys a random PropSet can have. *)
Definition prop_keys : list string :=
  ["direction"; "align"; "justify"; "wrap"; "gap"; "padding";
   "width"; "height"; "flex"].

(** The key, the props and the children of an element descriptor. *)
Definition element_key (e : element) : option string :=
  match e with Element _ k _ _ => k end.
Definition element_props (e : element) : PropSet :=
  match e with Element _ _ p _ => p end.
Definition element_children (e : element) : list element :=
  match e with Element _ _ _ c => c end.

(** The placeholder [<div>] with key [i]. *)
Definition placeholder (i : Z) : element :=
  Element (HostTag "div") (Some (pretty i))
    (<["style" := VObj [("width", VNum 4); ("height", VNum 4)]]> ∅) [].

(** The commit signal at the end of the benchmark tree. *)
Definition mount_signal : element := Element MountSignalT (Some "__m") ∅ [].

(** The unit of a byte count by its magnitude. *)
Definition unit_of (abs : Z) : string :=
  if abs <? 1024 then "B"
  else if abs <? 1024 ^ 2 then "KB"
  else if abs <? 1024 ^ 3 then "MB"
  else "GB".

(** The power of 1024 that goes with the unit of a byte count. *)
Definition unit_scale (abs : Z) : Z :=
  if abs <? 1024 then 1
  else if abs <? 1024 ^ 2 then 1024
  else if abs <? 1024 ^ 3 then 1024 ^ 2
  else 1024 ^ 3.

(** Three props lists for examples. *)
Definition sample_lists : list (list PropSet) :=
  [[buildFixedProps]; [buildFixedProps]; []].

(** One row of the results table: its React key and its eight cells. *)
Definition table_row (r : CaseResult) : string * list string :=
  (name r,
   [name r;
    formatMs (createOnlyMsTotal r);
    formatMs (createOnlyMsPerOp r);
    formatMs (updateMsTotal r);
    formatMs (updateMsPerOp r);
    formatMs (reactActualDurationMsTotal r);
    formatBytes (memDelta (memory r ≫= createBefore) (memory r ≫= createAfter));
    formatBytes (memDelta (memory r ≫= mountBefore) (memory r ≫= mountAfter))]).

(** The body of the results table, [None] when no table is rendered
    ([results ? <table> ... : null]). *)
Definition render_table (results : option (list CaseResult))
    : option (list (string * list string)) :=
  List.map table_row <$> results.

(** * Properties *)

(** ** Byte formatting *)

Example formatBytes_sample :
  formatBytes (memDelta (used_only 1000000) (used_only 1048576)) = "47.44 KB".
Proof. vm_compute. reflexivity. Qed.

Lemma pow1024_pos (n : nat) : (0 < inject_Z (1024 ^ Z.of_nat n))%Q.
Proof.
  replace 0%Q with (inject_Z 0) by reflexivity.
  rewrite <- Zlt_Qlt. apply Z.pow_pos_nonneg; lia.
Qed.

Lemma pow1024_succ (n : nat) :
  (inject_Z (1024 ^ Z.of_nat (S n)) == 1024 * inject_Z (1024 ^ Z.of_nat n))%Q.
Proof.
  rewrite Nat2Z.inj_succ, Z.pow_succ_r by lia.
  rewrite inject_Z_mult. reflexivity.
Qed.

(** What the unit loop computes: it divides by 1024 once per step taken,
    stops at the last unit or as soon as the value is below 1024, and a
    step is only taken from a value of at least 1024. *)
Lemma scale_loop_spec (room : nat) :
  forall (v : Q) (i : nat),
    let '(v', i') := scale_loop room v i in
    (i <= i' <= i + room)%nat /\
    (v' == v / inject_Z (1024 ^ Z.of_nat (i' - i)))%Q /\
    (i' = (i + room)%nat \/ (v' < 1024)%Q) /\
    (i' = i \/ (1 <= v')%Q).
Proof.
  induction room as [|room IH]; intros v i; simpl.
  - replace (i - i)%nat with 0%nat by lia.
    change (inject_Z (1024 ^ Z.of_nat 0)) with 1%Q.
    split; [lia |]. split; [field |]. split; left; lia.
  - destruct (Qle_bool 1024 v) eqn:Hge.
    + specialize (IH (v / 1024)%Q (S i)).
      destruct (scale_loop room (v / 1024) (S i)) as [v' i'].
      destruct IH as ([Hlo Hhi] & Hv & Hstop & Hone).
      split; [lia |]. split; [| split].
      * replace (i' - i)%nat with (S (i' - S i)) by lia.
        rewrite Hv, pow1024_succ.
        pose proof (pow1024_pos (i' - S i)) as Hp.
        field. intros Hz. rewrite Hz in Hp. apply (Qlt_irrefl 0), Hp.
      * destruct Hstop as [-> | Hlt]; [left; lia | right; exact Hlt].
      * right. destruct Hone as [-> | Hle]; [| exact Hle].
        replace (S i - S i)%nat with 0%nat in Hv by lia.
        rewrite Hv. apply Qle_bool_iff in Hge.
        apply Qle_shift_div_l; [reflexivity |].
        change (inject_Z (1024 ^ Z.of_nat 0)) with 1%Q.
        apply Qle_shift_div_l; [reflexivity |].
        rewrite !Qmult_1_l. exact Hge.
    + split; [lia |]. split; [| split].
      * replace (i - i)%nat with 0%nat by lia.
        change (inject_Z (1024 ^ Z.of_nat 0)) with 1%Q. field.
      * right. apply Qnot_le_lt. intros Hle.
        apply Qle_bool_iff in Hle. congruence.
      * left; reflexivity.
Qed.

(** [toFixed] prints the nearest number of hundredths. *)
Lemma round_digits_nearest (d : nat) (x : Q) :
  let scale := inject_Z (10 ^ Z.of_nat d) in
  (x * scale - (1 # 2) < inject_Z (Fmt.round_digits d x) <= x * scale + (1 # 2))%Q.
Proof.
  unfold Fmt.round_digits. cbv zeta.
  set (y := (x * inject_Z (10 ^ Z.of_nat d) + (1 # 2))%Q).
  split.
  - pose proof (Qlt_floor y) as H.
    rewrite inject_Z_plus in H.
    apply Qplus_lt_l with (z := 1%Q).
    eapply Qle_lt_trans; [| exact H].
    unfold y. ring_simplify. apply Qle_refl.
  - apply Qfloor_le.
Qed.

(** No formatted number is the bare marker. *)
Lemma formatBytes_Some_not_marker (d : Z) : formatBytes (Some d) ≠ "-".
Proof.
  unfold formatBytes. destruct (scaleBytes (Z.abs d)) as [v i].
  destruct (d <? 0).
  - simpl. intros H. injection H as H.
    destruct (Fmt.toFixed 2 v); discriminate.
  - simpl. destruct (Fmt.toFixed 2 v) as [|c s]; simpl; [discriminate |].
    intros H. injection H as _ H. destruct s; discriminate.
Qed.

(** C3 (as amended): a delta with an absent used-heap operand prints as
    the marker ["-"]; a delta of two present operands never prints as the
    marker, it prints the sign of the delta, the magnitude divided by 1024
    once per unit step (up to GB, stopping below 1024) rounded to the
    nearest hundredth, and the unit; the delta of 1,000,000 and 1,048,576
    used bytes is 48,576 bytes and prints as ["47.44 KB"]. *)
Theorem formatBytes_memDelta_spec (a b : option MemorySample) :
  match a ≫= usedJSHeapSize, b ≫= usedJSHeapSize with
  | Some av, Some bv =>
      let d := bv - av in
      let '(v, i) := scaleBytes (Z.abs d) in
      (i <= 3)%nat /\
      (v == inject_Z (Z.abs d) / inject_Z (1024 ^ Z.of_nat i))%Q /\
      (i = 3%nat \/ (v < 1024)%Q) /\
      (i = 0%nat \/ (1 <= v)%Q) /\
      (v * 100 - (1 # 2) < inject_Z (Fmt.round_digits 2 v) <= v * 100 + (1 # 2))%Q /\
      formatBytes (memDelta a b) =
        delta_sign d +:+ Fmt.toFixed 2 v +:+ " " +:+ default "" (units !! i) /\
      formatBytes (memDelta a b) ≠ "-"
  | _, _ => formatBytes (memDelta a b) = "-"
  end /\
  formatBytes (memDelta (used_only 1000000) (used_only 1048576)) = "47.44 KB".
Proof.
  split; [| vm_compute; reflexivity].
  unfold memDelta.
  destruct (a ≫= usedJSHeapSize) as [av|]; [| reflexivity].
  destruct (b ≫= usedJSHeapSize) as [bv|]; [| reflexivity].
  cbv zeta.
  pose proof (formatBytes_Some_not_marker (bv - av)) as Hmark.
  unfold formatBytes in *. unfold scaleBytes in *.
  pose proof (scale_loop_spec (length units - 1) (inject_Z (Z.abs (bv - av))) 0) as H.
  destruct (scale_loop (length units - 1) (inject_Z (Z.abs (bv - av))) 0) as [v i].
  destruct H as ([_ Hhi] & Hv & Hstop & Hone).
  change (length units - 1)%nat with 3%nat in *.
  replace (i - 0)%nat with i in Hv by lia.
  repeat split; try assumption; try lia.
  - apply (round_digits_nearest 2 v).
  - apply (round_digits_nearest 2 v).
Qed.

(** C3, the example as stated: the formatted delta of 1,000,000 and
    1,048,576 used bytes is not a value from 1.00 KB up to 2.00 KB. *)
Lemma formatBytes_example_not_1KB :
  ~ (exists n : Z, 100 <= n < 200 /\
       formatBytes (memDelta (used_only 1000000) (used_only 1048576)) =
       Fmt.fixed_point 2 n +:+ " KB").
Proof.
  intros (n & Hn & H).
  assert (n / 100 = 1) as Hq by (symmetry; apply Z.div_unique with (r := n - 100); lia).
  unfold Fmt.fixed_point in H. change (10 ^ Z.of_nat 2) with 100 in H.
  rewrite Hq in H.
  vm_compute in H. discriminate H.
Qed.

(** ** The result store *)

Lemma findIndex_from_first_same (next : CaseResult) (l : list CaseResult) :
  forall i : Z,
    findIndex_from (fun r => String.eqb (name r) (name next)) l i =
    match first_same next l with
    | Some k => i + Z.of_nat k
    | None => -1
    end.
Proof.
  induction l as [|r l IH]; intros i; simpl; [reflexivity |].
  destruct (String.eqb (name r) (name next)); [simpl; lia |].
  rewrite IH. destruct (first_same next l); simpl; lia.
Qed.

Lemma replace_or_append_first_same (next : CaseResult) (l : list CaseResult) :
  replace_or_append next l =
  match first_same next l with
  | Some k => <[k := next]> l
  | None => l ++ [next]
  end.
Proof.
  induction l as [|r l IH]; simpl; [reflexivity |].
  destruct (String.eqb (name r) (name next)); [reflexivity |].
  rewrite IH. destruct (first_same next l); reflexivity.
Qed.

(** The index-based code of [upsertResult] is replace-or-append. *)
Lemma upsert_replace_or_append (next : CaseResult)
    (prev : option (list CaseResult)) :
  upsert next prev = replace_or_append next (default [] prev).
Proof.
  unfold upsert, findIndex.
  rewrite findIndex_from_first_same, replace_or_append_first_same.
  destruct (first_same next (default [] prev)) as [k|].
  - replace (0 <=? 0 + Z.of_nat k) with true by (symmetry; apply Z.leb_le; lia).
    replace (Z.to_nat (0 + Z.of_nat k)) with k by lia. reflexivity.
  - reflexivity.
Qed.

Lemma replace_or_append_names (next : CaseResult) (l : list CaseResult) (n : string) :
  n ∈ (name <$> replace_or_append next l) <->
  n = name next \/ n ∈ (name <$> l).
Proof.
  induction l as [|r l IH]; simpl.
  - rewrite list_elem_of_singleton, elem_of_nil. tauto.
  - destruct (String.eqb (name r) (name next)) eqn:E; simpl.
    + apply String.eqb_eq in E. rewrite !elem_of_cons, E. tauto.
    + rewrite !elem_of_cons, IH. tauto.
Qed.

Lemma replace_or_append_NoDup (next : CaseResult) (l : list CaseResult) :
  NoDup (name <$> l) -> NoDup (name <$> replace_or_append next l).
Proof.
  induction l as [|r l IH]; simpl; intros Hnd.
  - apply NoDup_singleton.
  - apply NoDup_cons in Hnd as [Hnotin Hnd].
    destruct (String.eqb (name r) (name next)) eqn:E; simpl.
    + apply String.eqb_eq in E. apply NoDup_cons. rewrite <- E. auto.
    + apply NoDup_cons. split; [| auto].
      rewrite replace_or_append_names. intros [Heq | Hin]; [| auto].
      apply String.eqb_neq in E. auto.
Qed.

(** A store never holds two entries with one name. *)
Lemma store_state_NoDup (s : option (list CaseResult)) :
  store_state s -> NoDup (names s).
Proof.
  induction 1 as [|r s _ IH]; unfold names in *; simpl.
  - apply NoDup_nil_2.
  - rewrite upsert_replace_or_append. apply replace_or_append_NoDup, IH.
Qed.

Lemma replace_twice (r1 r2 : CaseResult) (l : list CaseResult) :
  name r1 = name r2 ->
  replace_or_append r2 (replace_or_append r1 l) = replace_or_append r2 l.
Proof.
  intros Hn. induction l as [|r l IH]; simpl.
  - rewrite Hn, String.eqb_refl. reflexivity.
  - rewrite Hn. destruct (String.eqb (name r) (name r2)) eqn:E; simpl.
    + rewrite Hn, String.eqb_refl. reflexivity.
    + rewrite E, IH. reflexivity.
Qed.

Lemma replace_others (next : CaseResult) (l : list CaseResult) :
  List.filter (fun r => negb (named (name next) r)) (replace_or_append next l) =
  List.filter (fun r => negb (named (name next) r)) l.
Proof.
  unfold named. induction l as [|r l IH]; simpl.
  - rewrite String.eqb_refl. reflexivity.
  - destruct (String.eqb (name r) (name next)) eqn:E; simpl.
    + rewrite String.eqb_refl. reflexivity.
    + rewrite E. simpl. rewrite IH. reflexivity.
Qed.

Lemma replace_named (next : CaseResult) (l : list CaseResult) :
  NoDup (name <$> l) ->
  List.filter (named (name next)) (replace_or_append next l) = [next].
Proof.
  unfold named. induction l as [|r l IH]; simpl; intros Hnd.
  - rewrite String.eqb_refl. reflexivity.
  - apply NoDup_cons in Hnd as [Hnotin Hnd].
    destruct (String.eqb (name r) (name next)) eqn:E; simpl.
    + rewrite String.eqb_refl. f_equal.
      apply String.eqb_eq in E. rewrite E in Hnotin.
      clear -Hnotin. induction l as [|x l IH]; simpl; [reflexivity |].
      rewrite fmap_cons, not_elem_of_cons in Hnotin. destruct Hnotin as [Hne Hnotin].
      destruct (String.eqb (name x) (name next)) eqn:E'.
      * apply String.eqb_eq in E'. congruence.
      * auto.
    + rewrite E. auto.
Qed.

(** C9: upserting two results with one case name into a store leaves what
    upserting the later one alone leaves; the store then has exactly one
    entry with that name, the later result, and the entries with other
    names are the same, in the same order. *)
Theorem upsert_idempotent_by_name (s : option (list CaseResult))
    (r1 r2 : CaseResult) :
  store_state s ->
  name r1 = name r2 ->
  let s' := upsert r2 (Some (upsert r1 s)) in
  s' = upsert r2 s /\
  List.filter (named (name r2)) s' = [r2] /\
  List.filter (fun r => negb (named (name r2) r)) s' =
  List.filter (fun r => negb (named (name r2) r)) (default [] s).
Proof.
  intros Hs Hn s'. subst s'.
  rewrite !upsert_replace_or_append. simpl.
  rewrite replace_twice by exact Hn.
  split; [reflexivity |]. split.
  - apply replace_named. apply (store_state_NoDup s Hs).
  - apply replace_others.
Qed.

(** ** The prop generator *)

(** A loop whose body only appends one fixed value and has no effect. *)
Lemma for_loop_append {A} (c : A) (n : nat) :
  forall (i : Z) (acc : list A) (w : World),
    for_loop n i (fun _ list => x <- ret c ;; ret (list ++ [x])) acc w =
    (Return (acc ++ replicate n c), w).
Proof.
  induction n as [|n IH]; intros i acc w; simpl.
  - rewrite app_nil_r. reflexivity.
  - unfold bind at 1. simpl. unfold bind at 1. unfold ret at 1.
    rewrite IH, <- app_assoc. reflexivity.
Qed.

Lemma buildFixedProps_literal : buildFixedProps = fixed_literal.
Proof.
  apply map_eq. intros k. unfold buildFixedProps, fixed_literal. simpl.
  repeat (rewrite !lookup_insert; repeat case_decide; subst; try reflexivity;
          try congruence).
Qed.

(** C6 (as amended): with randomization disabled [buildPropsList]
    returns, in any world and without touching it, a list of PropSets all
    equal to [{direction: horizontal, gap: 8, padding: 8,
    justify: space-between, align: center, wrap: wrap}]: exactly [N] of
    them for a whole container count [N >= 0], and none for a negative
    count. *)
Theorem buildPropsList_fixed (cfg : Config) (w : World) :
  randomPropsEnabled cfg = false ->
  exists l : list PropSet,
    buildPropsList cfg w = (Return l, w) /\
    l = replicate (Z.to_nat (flexboxCount cfg)) fixed_literal /\
    Z.of_nat (length l) = Z.max 0 (flexboxCount cfg) /\
    Forall (fun p => p = fixed_literal) l.
Proof.
  intros Hfixed.
  exists (replicate (Z.to_nat (flexboxCount cfg)) fixed_literal).
  split; [| split; [reflexivity | split]].
  - unfold buildPropsList, for_upto. rewrite Hfixed.
    rewrite for_loop_append, buildFixedProps_literal. reflexivity.
  - rewrite length_replicate. lia.
  - apply Forall_replicate. reflexivity.
Qed.

(** C6, as stated: for the container count -3 the list is empty, not a
    list of exactly -3 PropSets. *)
Lemma buildPropsList_fixed_negative_count :
  randomPropsEnabled (mkConfig 3 2 (-3) 1 false) = false /\
  buildPropsList (mkConfig 3 2 (-3) 1 false) (Sample.world true) =
    (Return [], Sample.world true) /\
  ~ (exists (l : list PropSet) (w' : World),
       buildPropsList (mkConfig 3 2 (-3) 1 false) (Sample.world true) =
         (Return l, w') /\
       Z.of_nat (length l) = flexboxCount (mkConfig 3 2 (-3) 1 false)).
Proof.
  split; [reflexivity |]. split; [reflexivity |].
  intros (l & w' & E & Hlen).
  change (buildPropsList (mkConfig 3 2 (-3) 1 false) (Sample.world true))
    with (@Return (list PropSet) [], Sample.world true) in E.
  injection E as <- _. discriminate Hlen.
Qed.

(** ** Binary rounding *)

Lemma nearest_even_floor (t : Q) :
  Qfloor t <= Double.nearest_even t <= Qfloor t + 1.
Proof.
  unfold Double.nearest_even. cbv zeta.
  destruct (t - inject_Z (Qfloor t) ?= 1 # 2)%Q; [destruct (Z.even _) | |]; lia.
Qed.


Lemma nearest_even_near (t : Q) :
  (t - (1 # 2) <= inject_Z (Double.nearest_even t) <= t + (1 # 2))%Q.
Proof.
  unfold Double.nearest_even. cbv zeta.
  pose proof (Qfloor_le t) as Hf. pose proof (Qlt_floor t) as Hu.
  rewrite inject_Z_plus in Hu. change (inject_Z 1) with 1%Q in Hu.
  destruct (t - inject_Z (Qfloor t) ?= 1 # 2)%Q eqn:E.
  - apply Qeq_alt in E.
    destruct (Z.even _); rewrite ?inject_Z_plus; change (inject_Z 1) with 1%Q; lra.
  - apply Qlt_alt in E. lra.
  - apply Qgt_alt in E. rewrite inject_Z_plus. change (inject_Z 1) with 1%Q. lra.
Qed.

Lemma scale_pos : (0 < inject_Z Double.scale)%Q.
Proof. reflexivity. Qed.

Lemma pow2_pos (s : Z) : 0 <= s -> (0 < inject_Z (2 ^ s))%Q.
Proof.
  intros Hs. replace 0%Q with (inject_Z 0) by reflexivity.
  rewrite <- Zlt_Qlt. apply Z.pow_pos_nonneg; lia.
Qed.

Lemma shift_nonneg (x : Q) : 0 <= Double.shift x.
Proof. unfold Double.shift. lia. Qed.

(** The spacing is at most [2^-52] times the value, unless it is the
    smallest one. *)
Lemma shift_cases (x : Q) :
  Double.shift x = 0 \/
  (inject_Z (2 ^ Double.shift x) * inject_Z (2 ^ 52)
   <= x * inject_Z Double.scale)%Q.
Proof.
  unfold Double.shift.
  set (f := Qfloor (x * inject_Z Double.scale)).
  destruct (Z_le_gt_dec (Z.log2 f - 52) 0) as [Hle | Hgt]; [left; lia | right].
  replace (Z.max 0 (Z.log2 f - 52)) with (Z.log2 f - 52) by lia.
  rewrite <- inject_Z_mult, <- Z.pow_add_r by lia.
  replace (Z.log2 f - 52 + 52) with (Z.log2 f) by lia.
  assert (0 < f) as Hf.
  { destruct (Z_lt_le_dec 0 f) as [H | H]; [exact H |].
    rewrite (Z.log2_nonpos f H) in Hgt. lia. }
  eapply Qle_trans; [| apply Qfloor_le]. fold f.
  rewrite <- Zle_Qle. apply Z.log2_spec, Hf.
Qed.


(** What [round_pos] returns, without the division. *)
Lemma round_pos_scaled (x : Q) :
  let t := (x * inject_Z Double.scale / inject_Z (2 ^ Double.shift x))%Q in
  (Double.round_pos x * inject_Z Double.scale ==
   inject_Z (Double.nearest_even t) * inject_Z (2 ^ Double.shift x))%Q /\
  (t * inject_Z (2 ^ Double.shift x) == x * inject_Z Double.scale)%Q.
Proof.
  cbv zeta. unfold Double.round_pos. cbv zeta.
  pose proof scale_pos as HK.
  pose proof (pow2_pos _ (shift_nonneg x)) as HP.
  rewrite inject_Z_mult.
  split; field; intros Hz; rewrite Hz in *; discriminate.
Qed.

(** A rounded value is within half the spacing of the real. *)
Lemma round_pos_near (x : Q) :
  let K := inject_Z Double.scale in
  let P := inject_Z (2 ^ Double.shift x) in
  (x * K - P * (1 # 2) <= Double.round_pos x * K <= x * K + P * (1 # 2))%Q.
Proof.
  cbv zeta.
  destruct (round_pos_scaled x) as [Hr Ht]. cbv zeta in Hr, Ht.
  pose proof (pow2_pos _ (shift_nonneg x)) as HP.
  set (t := (x * inject_Z Double.scale / inject_Z (2 ^ Double.shift x))%Q) in *.
  pose proof (nearest_even_near t) as [Hlo Hhi].
  rewrite Hr, <- Ht.
  set (P := inject_Z (2 ^ Double.shift x)) in *.
  set (n := inject_Z (Double.nearest_even t)) in *.
  split; nra.
Qed.

Lemma round_pos_nonneg (x : Q) : (0 <= x)%Q -> (0 <= Double.round_pos x)%Q.
Proof.
  intros Hx.
  destruct (round_pos_scaled x) as [Hr Ht]. cbv zeta in Hr, Ht.
  pose proof scale_pos as HK.
  pose proof (pow2_pos _ (shift_nonneg x)) as HP.
  set (t := (x * inject_Z Double.scale / inject_Z (2 ^ Double.shift x))%Q) in *.
  assert (0 <= t)%Q as Ht0.
  { unfold t. apply Qle_shift_div_l; [exact HP |]. rewrite Qmult_0_l.
    apply Qmult_le_0_compat; [exact Hx | apply Qlt_le_weak, HK]. }
  assert (0 <= inject_Z (Double.nearest_even t))%Q as Hn.
  { replace 0%Q with (inject_Z 0) by reflexivity. rewrite <- Zle_Qle.
    pose proof (nearest_even_floor t) as [Hf _].
    assert (0 <= Qfloor t); [| lia].
    change 0 with (Qfloor 0). apply Qfloor_resp_le, Ht0. }
  set (P := inject_Z (2 ^ Double.shift x)) in *.
  set (n := inject_Z (Double.nearest_even t)) in *.
  set (K := inject_Z Double.scale) in *.
  assert (0 <= Double.round_pos x * K)%Q as H by (rewrite Hr; nra).
  nra.
Qed.


Lemma round_nonneg (x : Q) : (0 <= x)%Q -> Double.round x = Double.round_pos x.
Proof.
  intros Hx. unfold Double.round.
  destruct (Qlt_le_dec x 0) as [Hneg | _]; [| reflexivity].
  exfalso. exact (Qlt_not_le _ _ Hneg Hx).
Qed.

Lemma small_no_overflow (x : Q) :
  (0 <= x < inject_Z (2 ^ 53))%Q -> Double.overflows x = false.
Proof.
  intros [Hlo Hhi]. unfold Double.overflows.
  destruct (Qle_bool _ (Qabs x)) eqn:E; [| reflexivity].
  apply Qle_bool_iff in E. rewrite Qabs_pos in E by exact Hlo.
  exfalso. apply (Qlt_not_le _ _ Hhi).
  eapply Qle_trans; [| exact E]. rewrite <- Zle_Qle. vm_compute. discriminate.
Qed.

(** The doubles below one stop at [1 - 2^-53]. *)
Lemma binary64_below_one (q : Q) :
  Double.binary64 q = true -> (0 <= q < 1)%Q -> (q <= 1 - (1 # 2 ^ 53))%Q.
Proof.
  intros Hd [Hlo Hhi].
  destruct (Qlt_le_dec (1 - (1 # 2 ^ 53)) q) as [Hgt | Hle]; [exfalso | exact Hle].
  change (2 ^ 53)%positive with 9007199254740992%positive in Hgt.
  unfold Double.binary64 in Hd. apply andb_true_iff in Hd as [_ Hd].
  apply Qeq_bool_iff in Hd. rewrite round_nonneg in Hd by exact Hlo.
  destruct (round_pos_scaled q) as [Hr _]. cbv zeta in Hr.
  rewrite Hd in Hr.
  set (K := inject_Z Double.scale) in *.
  assert (K == inject_Z (2 ^ 53) * inject_Z (2 ^ 1021))%Q as HK
    by (rewrite <- inject_Z_mult; reflexivity).
  assert (0 < inject_Z (2 ^ 1021))%Q as HB by reflexivity.
  assert (inject_Z (2 ^ 53) == 9007199254740992)%Q as H53 by reflexivity.
  assert (Double.shift q = 1021) as Hs.
  { unfold Double.shift. fold K.
    assert (2 ^ 1074 - 2 ^ 1021 <= Qfloor (q * K) < 2 ^ 1074) as [Hf1 Hf2].
    { split.
      - rewrite <- (Qfloor_Z (2 ^ 1074 - 2 ^ 1021)). apply Qfloor_resp_le.
        change (2 ^ 1074 - 2 ^ 1021) with ((2 ^ 53 - 1) * 2 ^ 1021).
        rewrite inject_Z_mult.
        unfold Zminus. rewrite inject_Z_plus, H53.
        change (inject_Z (- (1))) with (-1)%Q.
        rewrite HK, H53.
        set (B := inject_Z (2 ^ 1021)) in *.
        assert (9007199254740992 - 1 <= q * 9007199254740992)%Q by lra.
        nra.
      - rewrite Zlt_Qlt. eapply Qle_lt_trans; [apply Qfloor_le |].
        change (inject_Z (2 ^ 1074)) with K.
        assert (0 < K)%Q by reflexivity. nra. }
    rewrite (Z.log2_unique (Qfloor (q * K)) 1073); [reflexivity | lia |].
    split; [| exact Hf2].
    eapply Z.le_trans; [| exact Hf1]. vm_compute. discriminate. }
  rewrite Hs in Hr.
  set (n := Double.nearest_even _) in Hr.
  assert (inject_Z (2 ^ 53) - 1 < inject_Z n < inject_Z (2 ^ 53))%Q as [Hn1 Hn2].
  { rewrite HK in Hr. set (B := inject_Z (2 ^ 1021)) in *.
    rewrite H53 in *.
    assert (q * 9007199254740992 == inject_Z n)%Q as Hq.
    { apply (Qmult_inj_r _ _ B); [intros Hz; rewrite Hz in HB; discriminate |].
      rewrite <- Hr. ring. }
    rewrite <- Hq. split; lra. }
  assert (inject_Z 9007199254740991 < inject_Z n)%Q as Hn1'.
  { change (inject_Z 9007199254740991) with 9007199254740991%Q.
    rewrite H53 in Hn1. lra. }
  rewrite <- Zlt_Qlt in Hn1', Hn2.
  change (2 ^ 53) with 9007199254740992 in Hn2. lia.
Qed.

(** The rounded product of a double below one and a whole number [n] is
    below [n]. *)
Lemma round_product_below (q : Q) (n : Z) :
  Double.binary64 q = true -> (0 <= q < 1)%Q -> 1 <= n ->
  (0 <= Double.round_pos (q * inject_Z n) < inject_Z n)%Q.
Proof.
  intros Hd Hq Hn.
  pose proof (binary64_below_one q Hd Hq) as Hq1. destruct Hq as [Hq0 _].
  change (2 ^ 53)%positive with 9007199254740992%positive in Hq1.
  assert (1 <= inject_Z n)%Q as Hn1.
  { change 1%Q with (inject_Z 1). rewrite <- Zle_Qle. exact Hn. }
  set (N := inject_Z n) in *.
  assert (0 <= q * N)%Q as Hx0 by nra.
  split; [apply round_pos_nonneg, Hx0 |].
  pose proof (round_pos_near (q * N)) as [_ Hup]. cbv zeta in Hup.
  pose proof scale_pos as HK.
  assert (inject_Z (2 ^ 1021) * 9007199254740992 == inject_Z Double.scale)%Q
    as HK' by reflexivity.
  assert (0 < inject_Z (2 ^ 1021))%Q as HB by reflexivity.
  assert (inject_Z (2 ^ 52) == 4503599627370496)%Q as H52 by reflexivity.
  set (K := inject_Z Double.scale) in *.
  set (r := Double.round_pos (q * N)) in *.
  assert (q * N <= N - N * (1 # 9007199254740992))%Q as Hx1 by nra.
  assert (r * K < N * K)%Q; [| nra].
  destruct (shift_cases (q * N)) as [Hs | Hs].
  - rewrite Hs in Hup. change (inject_Z (2 ^ 0)) with 1%Q in Hup.
    set (B := inject_Z (2 ^ 1021)) in *.
    assert (q * N * K <= N * K - N * (1 # 9007199254740992) * K)%Q by nra.
    assert (N * (1 # 9007199254740992) * K == N * B)%Q as E.
    { rewrite <- HK'. field. }
    assert (1 <= N * B)%Q.
    { assert (1 <= B)%Q by (unfold B; rewrite <- (Zle_Qle 1); vm_compute; discriminate).
      nra. }
    lra.
  - fold K in Hs. rewrite H52 in Hs.
    set (P := inject_Z (2 ^ Double.shift (q * N))) in *.
    assert (P * (1 # 2) <= q * N * K * (1 # 9007199254740992))%Q as HP by lra.
    assert (r * K <= q * N * K * (1 + (1 # 9007199254740992)))%Q as H1 by lra.
    assert (0 < N * K)%Q as HNK by nra.
    assert (q * N * K <= (1 - (1 # 9007199254740992)) * (N * K))%Q as H2 by nra.
    set (NK := (N * K)%Q) in *. set (y := (q * N * K)%Q) in *.
    lra.
Qed.

(** ** Random PropSets *)

(** The index [pick] computes from a double in [0, 1) is an index of the
    array. *)
Lemma floor_scaled_in_range (r : Q) (n : nat) :
  Double.binary64 r = true -> (0 <= r < 1)%Q -> (0 < n)%nat ->
  0 <= Qfloor (Double.round (r * inject_Z (Z.of_nat n))) < Z.of_nat n.
Proof.
  intros Hd Hr Hn.
  destruct (round_product_below r (Z.of_nat n) Hd Hr) as [Hlo Hhi]; [lia |].
  assert (0 <= r * inject_Z (Z.of_nat n))%Q as Hx.
  { apply Qmult_le_0_compat; [apply Hr |].
    change 0%Q with (inject_Z 0). rewrite <- Zle_Qle. lia. }
  rewrite (round_nonneg _ Hx).
  split.
  - change 0 with (Qfloor 0). apply Qfloor_resp_le, Hlo.
  - rewrite Zlt_Qlt. eapply Qle_lt_trans; [apply Qfloor_le | exact Hhi].
Qed.

(** What [pick] returns when the product does not overflow. *)
Lemma pick_scaled (arr : list jsval) (w : World) :
  let r := math_random (host w) (random_draws (cursors w)) in
  let x := (r * inject_Z (Z.of_nat (length arr)))%Q in
  (0 <= x < inject_Z (2 ^ 53))%Q ->
  pick arr w =
    (Return (default VUndef (js_index arr (Qfloor (Double.round x)))), drawn w).
Proof.
  intros r x Hx. unfold pick, bind, random, ret, Num.mul, Num.of_Z, Num.of_real.
  fold r. fold x. rewrite (small_no_overflow x Hx). reflexivity.
Qed.

Lemma scaled_small (r : Q) (n : nat) :
  (0 <= r < 1)%Q -> Z.of_nat n < 2 ^ 32 ->
  (0 <= r * inject_Z (Z.of_nat n) < inject_Z (2 ^ 53))%Q.
Proof.
  intros [Hlo Hhi] Hn.
  assert (0 <= inject_Z (Z.of_nat n))%Q as Hn0.
  { change 0%Q with (inject_Z 0). rewrite <- Zle_Qle. lia. }
  assert (inject_Z (Z.of_nat n) < inject_Z (2 ^ 32))%Q as Hn1
    by (rewrite <- Zlt_Qlt; exact Hn).
  assert (inject_Z (2 ^ 32) == 4294967296)%Q as E32 by reflexivity.
  assert (inject_Z (2 ^ 53) == 9007199254740992)%Q as E53 by reflexivity.
  rewrite E53. rewrite E32 in Hn1.
  set (N := inject_Z (Z.of_nat n)) in *.
  split; nra.
Qed.

Lemma pick_in (arr : list jsval) (w : World) :
  unit_interval_source (host w) -> arr <> [] ->
  Z.of_nat (length arr) < 2 ^ 32 ->
  exists v, v ∈ arr /\ pick arr w = (Return v, drawn w).
Proof.
  intros Hsrc Hne Hlen.
  destruct (Hsrc (random_draws (cursors w))) as [Hd Hr].
  rewrite pick_scaled by (apply scaled_small; assumption). cbv zeta.
  set (r := math_random (host w) (random_draws (cursors w))) in *.
  destruct (floor_scaled_in_range r (length arr) Hd Hr) as [Hlo Hhi].
  { destruct arr; [congruence | simpl; lia]. }
  unfold js_index.
  replace (Qfloor (Double.round (r * inject_Z (Z.of_nat (length arr)))) <? 0)
    with false by (symmetry; apply Z.ltb_ge; exact Hlo).
  destruct (lookup_lt_is_Some_2 arr
              (Z.to_nat (Qfloor (Double.round
                                   (r * inject_Z (Z.of_nat (length arr)))))))
    as [v Hv]; [lia |].
  exists v. split; [eapply list_elem_of_lookup_2; exact Hv |].
  rewrite Hv. reflexivity.
Qed.

Lemma maybe_cases (value : jsval) (p : Q) (w : World) :
  exists v, (v = value \/ v = VUndef) /\ maybe value p w = (Return v, drawn w).
Proof.
  unfold maybe, bind, random, ret.
  destruct (Qlt_le_dec _ p); eauto.
Qed.

Lemma lookup_set_if_defined_ne (k k' : string) (v : jsval) (m : PropSet) :
  k <> k' -> set_if_defined k v m !! k' = m !! k'.
Proof.
  intros Hne. destruct v; simpl; try reflexivity; apply lookup_insert_ne, Hne.
Qed.

Lemma lookup_set_if_defined_fresh (k : string) (v : jsval) (m : PropSet) :
  m !! k = None ->
  set_if_defined k v m !! k = None \/
  (v <> VUndef /\ set_if_defined k v m !! k = Some v).
Proof.
  intros Hm. destruct v; simpl; [left; exact Hm | right ..];
    (split; [discriminate | apply lookup_insert_eq]).
Qed.

Lemma bind_Return {A B} (m : M A) (k : A -> M B) (w w' : World) (a : A) :
  m w = (Return a, w') -> bind m k w = k a w'.
Proof. intros E. unfold bind. rewrite E. reflexivity. Qed.

Ltac pick_step arr Hsrc :=
  match goal with
  | |- context [bind (pick arr) _ ?w] =>
      let v := fresh "v" in
      let Hin := fresh "Hin" in
      let E := fresh "E" in
      destruct (pick_in arr w) as (v & Hin & E);
      [exact Hsrc | discriminate | reflexivity |];
      rewrite (bind_Return _ _ _ _ _ E); clear E
  end.

Ltac maybe_step :=
  match goal with
  | |- context [bind (maybe ?x ?p) _ ?w] =>
      let v := fresh "m" in
      let Hc := fresh "Hc" in
      let E := fresh "E" in
      destruct (maybe_cases x p w) as (v & Hc & E);
      rewrite (bind_Return _ _ _ _ _ E); clear E
  end.

Lemma optional_from_set (arr : list jsval) (k : string) (x v : jsval) (m : PropSet) :
  m !! k = None -> x ∈ arr -> v = x \/ v = VUndef ->
  optional_from arr k (set_if_defined k v m).
Proof.
  intros Hm Hx Hv.
  destruct (lookup_set_if_defined_fresh k v m Hm) as [Hnone | [Hdef Hsome]].
  - left. exact Hnone.
  - right. exists v. split; [exact Hsome |].
    destruct Hv as [-> | ->]; [exact Hx | congruence].
Qed.

Lemma optional_from_keep (arr : list jsval) (k k' : string) (v : jsval) (m : PropSet) :
  k <> k' -> optional_from arr k' m -> optional_from arr k' (set_if_defined k v m).
Proof.
  intros Hne. unfold optional_from, drawn_from.
  rewrite lookup_set_if_defined_ne by exact Hne. tauto.
Qed.

Lemma drawn_from_keep (arr : list jsval) (k k' : string) (v : jsval) (m : PropSet) :
  k <> k' -> drawn_from arr k' m -> drawn_from arr k' (set_if_defined k v m).
Proof.
  intros Hne. unfold drawn_from.
  rewrite lookup_set_if_defined_ne by exact Hne. tauto.
Qed.

(** C7: whatever doubles the random source answers in [0, 1),
    [buildRandomProps]
    returns a PropSet in which direction, align, justify, wrap, gap and
    padding are present and taken from their enumerations (of 4, 7, 10 and
    3 names, and the numbers 0, 2, 4, 8, 12, 16, 24), width and height are
    absent or one of 120, 240, 360, 480, 640, and flex is absent or one of
    0, 1, 2, 3, "0 1 auto". *)
Theorem buildRandomProps_enumerations (w : World) :
  unit_interval_source (host w) ->
  exists (p : PropSet) (w' : World),
    buildRandomProps w = (Return p, w') /\
    drawn_from directions "direction" p /\
    drawn_from aligns "align" p /\
    drawn_from justifies "justify" p /\
    drawn_from wraps "wrap" p /\
    drawn_from gaps "gap" p /\
    drawn_from paddings "padding" p /\
    optional_from sizes "width" p /\
    optional_from sizes "height" p /\
    optional_from flexChoices "flex" p /\
    (length directions, length aligns, length justifies, length wraps)
      = (4, 7, 10, 3)%nat /\
    gaps = VNum <$> [0; 2; 4; 8; 12; 16; 24] /\
    paddings = VNum <$> [0; 2; 4; 8; 12; 16; 24] /\
    sizes = VNum <$> [120; 240; 360; 480; 640] /\
    flexChoices = [VNum 0; VNum 1; VNum 2; VNum 3; VStr "0 1 auto"].
Proof.
  intros Hsrc. unfold buildRandomProps.
  pick_step directions Hsrc. pick_step aligns Hsrc. pick_step justifies Hsrc.
  pick_step wraps Hsrc. pick_step gaps Hsrc. pick_step paddings Hsrc.
  cbv zeta.
  pick_step sizes Hsrc. maybe_step.
  pick_step sizes Hsrc. maybe_step.
  pick_step flexChoices Hsrc. maybe_step.
  unfold ret. eexists _, _. split; [reflexivity |].
  repeat match goal with
         | |- _ /\ _ => split
         end; try reflexivity.
  1-6: repeat (apply drawn_from_keep; [discriminate |]);
       eexists; split; [reflexivity | assumption].
  all: repeat (apply optional_from_keep; [discriminate |]).
  all: match goal with
       | Hc : ?m = ?x \/ ?m = VUndef
         |- optional_from _ _ (set_if_defined _ ?m _) =>
           apply (optional_from_set _ _ x m); [| assumption | exact Hc]
       end.
  all: rewrite ?lookup_set_if_defined_ne by discriminate; reflexivity.
Qed.

(** ** Reasoning about computations *)

Lemma spec_ret {A} (a : A) (w : World) Qr Qt : Qr a w -> spec (ret a) w Qr Qt.
Proof. intros H. exact H. Qed.

Lemma spec_throw {A} (e : exn) (w : World) (Qr : A -> World -> Prop) Qt :
  Qt e w -> spec (throw e) w Qr Qt.
Proof. intros H. exact H. Qed.

Lemma spec_bind {A B} (m : M A) (k : A -> M B) (w : World) Qr Qt :
  spec m w (fun a w' => spec (k a) w' Qr Qt) Qt -> spec (bind m k) w Qr Qt.
Proof.
  unfold spec, bind. destruct (m w) as [[a|e] w']; intros H; exact H.
Qed.

Lemma spec_weaken {A} (m : M A) (w : World)
    (Qr Qr' : A -> World -> Prop) (Qt Qt' : exn -> World -> Prop) :
  spec m w Qr Qt ->
  (forall a w', Qr a w' -> Qr' a w') ->
  (forall e w', Qt e w' -> Qt' e w') ->
  spec m w Qr' Qt'.
Proof.
  unfold spec. destruct (m w) as [[a|e] w']; intros H Hr Ht; auto.
Qed.

Lemma spec_run {A} (m : M A) (w : World) Qr Qt :
  spec m w Qr Qt ->
  (exists a w', m w = (Return a, w') /\ Qr a w') \/
  (exists e w', m w = (Throw e, w') /\ Qt e w').
Proof.
  unfold spec. destruct (m w) as [[a|e] w']; intros H; [left | right]; eauto.
Qed.

Lemma frame_refl (w : World) : frame w w 0.
Proof. split; [reflexivity | reflexivity | lia]. Qed.

Lemma frame_trans (w w1 w2 : World) (k1 k2 : nat) :
  frame w w1 k1 -> frame w1 w2 k2 -> frame w w2 (k1 + k2).
Proof.
  intros [Hh1 Hp1 Hc1] [Hh2 Hp2 Hc2]. split; [congruence | congruence | lia].
Qed.

Lemma spec_quiet {A} (k : nat) (m : M A) (w : World) Qr Qt :
  quiet k m -> (forall a w', frame w w' k -> Qr a w') -> spec m w Qr Qt.
Proof.
  intros Hq H. destruct (Hq w) as (a & w' & E & Hf).
  unfold spec. rewrite E. auto.
Qed.

Lemma quiet_ret {A} (a : A) : quiet 0 (ret a).
Proof. intros w. exists a, w. split; [reflexivity | apply frame_refl]. Qed.

Lemma quiet_bind {A B} (k1 k2 : nat) (m : M A) (f : A -> M B) :
  quiet k1 m -> (forall a, quiet k2 (f a)) -> quiet (k1 + k2) (bind m f).
Proof.
  intros Hm Hf w. destruct (Hm w) as (a & w1 & E1 & F1).
  destruct (Hf a w1) as (b & w2 & E2 & F2).
  exists b, w2. split; [| eapply frame_trans; eassumption].
  unfold bind. rewrite E1. exact E2.
Qed.

Ltac quiet_by_computation :=
  let w := fresh "w" in
  intros w; eexists _, _; split;
  [reflexivity | split; simpl; first [reflexivity | lia]].

Lemma quiet_log_event (e : Event) : quiet 0 (log_event e).
Proof. quiet_by_computation. Qed.

Lemma quiet_raf : quiet 0 raf.
Proof. apply quiet_log_event. Qed.

Lemma quiet_maybeGC : quiet 0 maybeGC.
Proof.
  intros w. unfold maybeGC, bind, get.
  destruct (gc_exposed (host w)); eexists _, _;
    (split; [reflexivity | split; simpl; first [reflexivity | lia]]).
Qed.

Lemma quiet_readMemory : quiet 0 readMemory.
Proof.
  intros w. unfold readMemory.
  destruct (performance_memory (host w) (memory_reads (cursors w)));
    eexists _, _;
    (split; [reflexivity | split; simpl; first [reflexivity | lia]]).
Qed.

Lemma quiet_random : quiet 0 random.
Proof. quiet_by_computation. Qed.

Lemma quiet_pick (arr : list jsval) : quiet 0 (pick arr).
Proof. quiet_by_computation. Qed.

Lemma quiet_maybe (v : jsval) (p : Q) : quiet 0 (maybe v p).
Proof. quiet_by_computation. Qed.

Lemma quiet_cleanupEmotionStyleTags : quiet 0 cleanupEmotionStyleTags.
Proof. quiet_by_computation. Qed.

Lemma quiet_document_createElement : quiet 0 document_createElement.
Proof. quiet_by_computation. Qed.

Lemma quiet_body_appendChild (c : Container) : quiet 0 (body_appendChild c).
Proof. quiet_by_computation. Qed.

Lemma quiet_container_remove (c : Container) : quiet 0 (container_remove c).
Proof. quiet_by_computation. Qed.

Lemma quiet_createRoot (c : Container) : quiet 0 (createRoot c).
Proof. quiet_by_computation. Qed.

Lemma quiet_root_render (root : nat) (tree : element) :
  quiet 0 (root_render root tree).
Proof. quiet_by_computation. Qed.

Lemma quiet_root_unmount (root : nat) : quiet 0 (root_unmount root).
Proof. quiet_by_computation. Qed.

(** A clock reading returns the host's next answer. *)
Lemma now_reading (w : World) :
  exists w',
    now w = (Return (Fin (performance_now (host w) (clock_reads (cursors w)))), w')
    /\ frame w w' 1.
Proof.
  eexists. split; [reflexivity |]. split; simpl; first [reflexivity | lia].
Qed.

Lemma quiet_now : quiet 1 now.
Proof. intros w. destruct (now_reading w) as (w' & E & F). eauto. Qed.

(** Loops: an invariant indexed by the number of rounds done. *)
Lemma spec_for_loop {S} (n : nat) :
  forall (Inv : nat -> S -> World -> Prop) (i : Z) (body : Z -> S -> M S)
         (s : S) (w : World) Qr Qt,
    Inv 0%nat s w ->
    (forall (j : nat) s w, (j < n)%nat -> Inv j s w ->
       spec (body (i + Z.of_nat j) s) w (Inv (Datatypes.S j)) Qt) ->
    (forall s' w', Inv n s' w' -> Qr s' w') ->
    spec (for_loop n i body s) w Qr Qt.
Proof.
  induction n as [|n IH]; intros Inv i body s w Qr Qt H0 Hstep Hend; simpl.
  - apply spec_ret. auto.
  - apply spec_bind.
    eapply spec_weaken;
      [ replace i with (i + Z.of_nat 0) by lia; apply (Hstep 0%nat); [lia | exact H0]
      | | auto ].
    intros s1 w1 H1. simpl in H1.
    apply (IH (fun j => Inv (Datatypes.S j))); [exact H1 | | exact Hend].
    intros j s2 w2 Hj H2.
    replace (i + 1 + Z.of_nat j) with (i + Z.of_nat (Datatypes.S j)) by lia.
    apply Hstep; [lia | exact H2].
Qed.

Lemma quiet_for_loop {S} (body : Z -> S -> M S) :
  (forall i s, quiet 0 (body i s)) ->
  forall (n : nat) (i : Z) (s : S), quiet 0 (for_loop n i body s).
Proof.
  intros Hb n. induction n as [|n IH]; intros i s; simpl.
  - apply quiet_ret.
  - apply (quiet_bind 0 0); [apply Hb | intros s'; apply IH].
Qed.

Lemma quiet_repeatM {A} (f : M A) :
  quiet 0 f -> forall n : nat, quiet 0 (repeatM n f).
Proof.
  intros Hf n. induction n as [|n IH]; simpl.
  - apply quiet_ret.
  - apply (quiet_bind 0 0); [exact Hf | intros x].
    apply (quiet_bind 0 0); [exact IH | intros xs; apply quiet_ret].
Qed.

(** ** Settling *)

(** C4 (as amended): [maybeGC] never fails; when the hook is exposed it
    calls it and then waits for one frame, and when it is not it does
    nothing at all, without waiting for a frame. *)
Theorem maybeGC_settles (w : World) :
  exists w',
    maybeGC w = (Return tt, w') /\
    host w' = host w /\ cursors w' = cursors w /\
    document w' = document w /\ page w' = page w /\
    log w' = log w ++ (if gc_exposed (host w) then [EvGC; EvFrame] else []).
Proof.
  unfold maybeGC, bind, get.
  destruct (gc_exposed (host w)); eexists; (split; [reflexivity |]); simpl.
  - rewrite <- app_assoc. auto.
  - rewrite app_nil_r. auto.
Qed.

(** C4, as stated: without the hook no frame boundary is waited for. *)
Lemma maybeGC_without_hook_no_frame :
  gc_exposed (host (Sample.world false)) = false /\
  maybeGC (Sample.world false) = (Return tt, Sample.world false) /\
  ~ (EvFrame ∈ log (snd (maybeGC (Sample.world false)))).
Proof.
  split; [reflexivity |]. split; [reflexivity |].
  simpl. apply not_elem_of_nil.
Qed.

(** ** The update phase: configuration error *)

(** C1: with fewer than [loops + 1] props lists the update phase throws
    the configuration error at once and leaves the world, and with it the
    document and its roots, as it was. *)
Theorem runUpdateBatchKeepMounted_too_few (cfg : Config) (name : BenchName)
    (impl : Impl) (propsLists : list (list PropSet)) (loops : Z) (w : World) :
  Z.of_nat (length propsLists) < loops + 1 ->
  runUpdateBatchKeepMounted cfg name impl propsLists loops w =
    (Throw (Error "propsLists must include warmup + loops"), w) /\
  document (snd (runUpdateBatchKeepMounted cfg name impl propsLists loops w)) =
    document w.
Proof.
  intros Hlt. unfold runUpdateBatchKeepMounted.
  apply Z.ltb_lt in Hlt. rewrite Hlt. split; reflexivity.
Qed.

(** ** The creation phase *)

Lemma for_loop_const {S} (x : S) (n : nat) :
  forall (i : Z) (s : S) (w : World),
    for_loop n i (fun _ _ => ret x) s w =
    (Return (match n with O => s | _ => x end), w).
Proof.
  induction n as [|n IH]; intros i s w; simpl; [reflexivity |].
  unfold bind at 1. unfold ret at 1. rewrite IH. destruct n; reflexivity.
Qed.

Create HintDb quiet.
#[local] Hint Resolve quiet_ret quiet_log_event quiet_raf quiet_maybeGC
  quiet_readMemory quiet_random quiet_pick quiet_maybe
  quiet_cleanupEmotionStyleTags quiet_document_createElement
  quiet_body_appendChild quiet_container_remove quiet_createRoot
  quiet_root_render quiet_root_unmount quiet_now : quiet.

(** Runs the first step of a sequence when it is a quiet one. *)
Ltac run_quiet :=
  match goal with
  | |- context [bind ?m _ ?w] =>
      let Hq := fresh "Hq" in
      let a := fresh "a" in
      let w' := fresh "w" in
      let E := fresh "E" in
      let F := fresh "F" in
      eassert (Hq : quiet _ m) by (eauto with quiet);
      destruct (Hq w) as (a & w' & E & F); clear Hq;
      rewrite (bind_Return _ _ _ _ _ E)
  end.

(** With no iteration to run, the loop leaves [last] at [null] and the
    sanity check throws in the world of the start reading. *)
Lemma runCreateOnlyForest_rejects (cfg : Config) (name : BenchName)
    (impl : Impl) (propsList : list PropSet) (iterations : Z) (w : World) :
  iterations <= 0 ->
  for_upto iterations
    (fun _ _ =>
       ret (Elem (createElement FragmentT None (implElements cfg impl propsList))))
    Null (create_started w) = (Return Null, create_started w) /\
  runCreateOnlyForest cfg name impl propsList iterations w =
    (Throw (Error "create-only sanity check failed"), create_started w).
Proof.
  intros Hle.
  assert (Z.to_nat iterations = 0%nat) as Hz by lia.
  split.
  - unfold for_upto. rewrite Hz. reflexivity.
  - unfold runCreateOnlyForest, create_started.
    run_quiet. run_quiet. run_quiet.
    rewrite E; cbn [snd]; rewrite E0; cbn [snd]; rewrite E1; cbn [snd].
    unfold for_upto. rewrite Hz. reflexivity.
Qed.

(** C10: with [iterations <= 0] the construction loop is not entered, the
    last value is still [null], [isValidElement] rejects it, and the
    creation phase throws the sanity check error right after the start
    reading of the clock; it returns no result, so no per-operation
    quotient is formed. *)
Theorem runCreateOnlyForest_no_iterations (cfg : Config) (name : BenchName)
    (impl : Impl) (propsList : list PropSet) (iterations : Z) (w : World) :
  iterations <= 0 ->
  for_upto iterations
    (fun _ _ =>
       ret (Elem (createElement FragmentT None (implElements cfg impl propsList))))
    Null (create_started w) = (Return Null, create_started w) /\
  isValidElement Null = false /\
  runCreateOnlyForest cfg name impl propsList iterations w =
    (Throw (Error "create-only sanity check failed"), create_started w) /\
  forall r w', runCreateOnlyForest cfg name impl propsList iterations w <>
               (Return r, w').
Proof.
  intros Hle.
  destruct (runCreateOnlyForest_rejects cfg name impl propsList iterations w Hle)
    as [Hloop Hthrow].
  split; [exact Hloop |]. split; [reflexivity |]. split; [exact Hthrow |].
  intros r w' H. rewrite Hthrow in H. discriminate H.
Qed.

(** ** Per-operation timings *)

Ltac run_now :=
  match goal with
  | |- context [bind now _ ?w] =>
      let w' := fresh "w" in
      let E := fresh "E" in
      let F := fresh "F" in
      destruct (now_reading w) as (w' & E & F);
      rewrite (bind_Return _ _ _ _ _ E)
  end.

Lemma frame_clock_of (w w' : World) (k : nat) :
  frame w w' k ->
  Fin (performance_now (host w') (clock_reads (cursors w'))) = clock_of w k.
Proof.
  intros [Hh _ Hc]. unfold clock_of. rewrite Hh, Hc. reflexivity.
Qed.

(** The creation phase with at least one iteration returns; the total is
    the end reading minus the start reading and the per-operation time is
    that total divided by the iteration count. *)
Lemma runCreateOnlyForest_returns (cfg : Config) (name : BenchName)
    (impl : Impl) (propsList : list PropSet) (iterations : Z) (w : World) :
  1 <= iterations ->
  exists r w',
    runCreateOnlyForest cfg name impl propsList iterations w = (Return r, w') /\
    frame w w' 2 /\
    Create.name r = name /\
    Create.createOnlyMsTotal r = Num.sub (clock_of w 1) (clock_of w 0) /\
    Create.createOnlyMsPerOp r =
      Num.div (Create.createOnlyMsTotal r) (Num.of_Z iterations).
Proof.
  intros Hge. unfold runCreateOnlyForest.
  run_quiet. run_quiet. run_now.
  unfold for_upto at 1.
  destruct (Z.to_nat iterations) as [|n] eqn:Hn; [lia |].
  erewrite bind_Return by apply for_loop_const.
  cbn [isValidElement].
  erewrite bind_Return by reflexivity.
  run_now. run_quiet. run_quiet.
  pose proof (frame_trans _ _ _ _ _ F F0) as G1.
  pose proof (frame_trans _ _ _ _ _ G1 F1) as G2.
  pose proof (frame_trans _ _ _ _ _ G2 F2) as G3.
  pose proof (frame_trans _ _ _ _ _ G3 F3) as G4.
  pose proof (frame_trans _ _ _ _ _ G4 F4) as G5.
  rewrite (frame_clock_of w w1 _ G1), (frame_clock_of w w2 _ G2).
  eexists _, _. split; [reflexivity |].
  split; [exact G5 |]. repeat split; reflexivity.
Qed.

Lemma renderAndWait_returns (cfg : Config) (root : nat) (impl : Impl)
    (l : list PropSet) (w : World) :
  exists d w',
    renderAndWait cfg root impl (Some l) w =
      (Return (Num.sub (clock_of w 1) (clock_of w 0), d), w') /\
    frame w w' 2.
Proof.
  unfold renderAndWait.
  run_now. erewrite bind_Return by reflexivity.
  run_quiet. run_quiet. run_now.
  pose proof (frame_trans _ _ _ _ _ F F0) as G1.
  pose proof (frame_trans _ _ _ _ _ G1 F1) as G2.
  pose proof (frame_trans _ _ _ _ _ G2 F2) as G3.
  rewrite (frame_clock_of w w2 _ G2).
  rewrite (frame_clock_of w w 0 (frame_refl w)).
  eexists _, _. split; [reflexivity | exact G3].
Qed.

Lemma js_index_Some {A} (arr : list A) (i : Z) :
  0 <= i < Z.of_nat (length arr) -> exists x, js_index arr i = Some x.
Proof.
  intros [Hlo Hhi]. unfold js_index.
  replace (i <? 0) with false by (symmetry; apply Z.ltb_ge; exact Hlo).
  apply lookup_lt_is_Some_2. lia.
Qed.

(** The update phase with enough props lists returns; the total is the
    sum of the wall times of the measured renders (the warmup render, the
    first two clock readings, is left out) and the per-operation time is
    that total divided by the loop count. *)
Lemma runUpdateBatchKeepMounted_returns (cfg : Config) (name : BenchName)
    (impl : Impl) (propsLists : list (list PropSet)) (loops : Z) (w : World) :
  0 <= loops ->
  loops + 1 <= Z.of_nat (length propsLists) ->
  exists r w',
    runUpdateBatchKeepMounted cfg name impl propsLists loops w = (Return r, w') /\
    frame w w' (2 + 2 * Z.to_nat loops) /\
    Update.name r = name /\
    Update.updateMsTotal r =
      wall_total (host w) (clock_reads (cursors w) + 2) (Z.to_nat loops) /\
    Update.updateMsPerOp r =
      Num.div (Update.updateMsTotal r) (Num.of_Z loops).
Proof.
  intros Hloops Hlen.
  cut (spec (runUpdateBatchKeepMounted cfg name impl propsLists loops) w
         (fun r w' =>
            frame w w' (2 + 2 * Z.to_nat loops) /\
            Update.name r = name /\
            Update.updateMsTotal r =
              wall_total (host w) (clock_reads (cursors w) + 2) (Z.to_nat loops) /\
            Update.updateMsPerOp r =
              Num.div (Update.updateMsTotal r) (Num.of_Z loops))
         (fun _ _ => False)).
  { intros H. apply spec_run in H as [H | (e & w' & _ & [])]. exact H. }
  unfold runUpdateBatchKeepMounted.
  replace (Z.of_nat (length propsLists) <? loops + 1) with false
    by (symmetry; apply Z.ltb_ge; lia).
  apply spec_bind, (spec_quiet 0); [apply quiet_document_createElement |].
  intros container w1 F1.
  apply spec_bind, (spec_quiet 0); [apply quiet_body_appendChild |].
  intros _ w2 F2.
  apply spec_bind, (spec_quiet 0); [apply quiet_createRoot |].
  intros root w3 F3.
  pose proof (frame_trans _ _ _ _ _ (frame_trans _ _ _ _ _ F1 F2) F3) as G3.
  destruct (js_index_Some propsLists 0) as [l0 Hl0]; [lia |]. rewrite Hl0.
  destruct (renderAndWait_returns cfg root impl l0 w3) as (d0 & w4 & E4 & F4).
  apply spec_bind. unfold spec at 1. rewrite E4.
  pose proof (frame_trans _ _ _ _ _ G3 F4) as G4. clear E4.
  apply spec_bind, (spec_quiet 0); [apply quiet_maybeGC |].
  intros _ w5 F5.
  apply spec_bind, (spec_quiet 0); [apply quiet_readMemory |].
  intros before w6 F6.
  pose proof (frame_trans _ _ _ _ _ (frame_trans _ _ _ _ _ G4 F5) F6) as G6.
  cbn [Nat.add] in G6.
  apply spec_bind. unfold for_upto.
  apply (spec_for_loop (Z.to_nat loops)
           (fun j s w' =>
              frame w w' (2 + 2 * j) /\
              fst s = wall_total (host w) (clock_reads (cursors w) + 2) j)).
  - split; [exact G6 | reflexivity].
  - intros j s w7 Hj [F7 Hs].
    destruct (js_index_Some propsLists (0 + Z.of_nat j + 1)) as [l Hl]; [lia |].
    rewrite Hl.
    destruct (renderAndWait_returns cfg root impl l w7) as (d & w8 & E8 & F8).
    apply spec_bind. unfold spec at 1. rewrite E8.
    apply spec_ret. cbn [fst snd]. split.
    + replace (2 + 2 * S j)%nat with (2 + 2 * j + 2)%nat by lia.
      eapply frame_trans; eassumption.
    + rewrite Hs. cbn [wall_total]. f_equal. unfold clock_of.
      destruct F7 as [Hh _ Hc]. rewrite Hh, Hc.
      replace (clock_reads (cursors w) + (2 + 2 * j) + 1)%nat
        with (S (clock_reads (cursors w) + 2 + 2 * j)) by lia.
      replace (clock_reads (cursors w) + (2 + 2 * j) + 0)%nat
        with (clock_reads (cursors w) + 2 + 2 * j)%nat by lia.
      reflexivity.
  - intros totals w7 [F7 Htot].
    apply spec_bind, (spec_quiet 0); [apply quiet_maybeGC |].
    intros _ w8 F8.
    apply spec_bind, (spec_quiet 0); [apply quiet_readMemory |].
    intros after w9 F9.
    apply spec_bind, (spec_quiet 0); [apply quiet_root_unmount |].
    intros _ w10 F10.
    apply spec_bind, (spec_quiet 0); [apply quiet_container_remove |].
    intros _ w11 F11.
    apply spec_bind, (spec_quiet 0); [apply quiet_raf |].
    intros _ w12 F12.
    apply spec_bind, (spec_quiet 0); [apply quiet_cleanupEmotionStyleTags |].
    intros _ w13 F13.
    apply spec_bind, (spec_quiet 0); [apply quiet_maybeGC |].
    intros _ w14 F14.
    apply spec_ret. cbn.
    split; [| split; [reflexivity | split; [exact Htot | reflexivity]]].
    pose proof (frame_trans _ _ _ _ _ F7 F8) as H8.
    pose proof (frame_trans _ _ _ _ _ H8 F9) as H9.
    pose proof (frame_trans _ _ _ _ _ H9 F10) as H10.
    pose proof (frame_trans _ _ _ _ _ H10 F11) as H11.
    pose proof (frame_trans _ _ _ _ _ H11 F12) as H12.
    pose proof (frame_trans _ _ _ _ _ H12 F13) as H13.
    pose proof (frame_trans _ _ _ _ _ H13 F14) as H14.
    destruct H14 as [Hh Hp Hc]. split; [exact Hh | exact Hp | lia].
Qed.

(** C5 (as amended): for counts of at least 1 both phases return, the
    creation total is the end reading minus the start reading, the update
    total is the sum of the wall times of the measured renders, and each
    per-operation time is its total divided by its count; with no
    iteration the creation phase throws its sanity check error instead of
    dividing. *)
Theorem per_op_timings (cfg : Config) (name : BenchName) (impl : Impl)
    (propsList : list PropSet) (propsLists : list (list PropSet))
    (iterations loops : Z) (w : World) :
  1 <= iterations ->
  1 <= loops ->
  loops + 1 <= Z.of_nat (length propsLists) ->
  (exists r w',
     runCreateOnlyForest cfg name impl propsList iterations w = (Return r, w') /\
     Create.createOnlyMsTotal r = Num.sub (clock_of w 1) (clock_of w 0) /\
     Create.createOnlyMsPerOp r =
       Num.div (Create.createOnlyMsTotal r) (Num.of_Z iterations)) /\
  (exists r w',
     runUpdateBatchKeepMounted cfg name impl propsLists loops w = (Return r, w') /\
     Update.updateMsTotal r =
       wall_total (host w) (clock_reads (cursors w) + 2) (Z.to_nat loops) /\
     Update.updateMsPerOp r =
       Num.div (Update.updateMsTotal r) (Num.of_Z loops)) /\
  runCreateOnlyForest cfg name impl propsList 0 w =
    (Throw (Error "create-only sanity check failed"), create_started w).
Proof.
  intros Hi Hl Hlen. split; [| split].
  - destruct (runCreateOnlyForest_returns cfg name impl propsList iterations w Hi)
      as (r & w' & E & _ & _ & Ht & Hp).
    exists r, w'. auto.
  - destruct (runUpdateBatchKeepMounted_returns cfg name impl propsLists loops w)
      as (r & w' & E & _ & _ & Ht & Hp); [lia | lia |].
    exists r, w'. auto.
  - apply (runCreateOnlyForest_rejects cfg name impl propsList 0 w). lia.
Qed.

Lemma per_op_timings_witness :
  1 <= 3 /\ 1 <= 2 /\
  2 + 1 <= Z.of_nat (length [[buildFixedProps]; []; [buildFixedProps]]) /\
  exists r w',
    runUpdateBatchKeepMounted (Sample.config 3 2) "local(FlexBasic)" FlexBasic
      [[buildFixedProps]; []; [buildFixedProps]] 2 (Sample.world true)
    = (Return r, w') /\
    Update.updateMsTotal r =
      wall_total (host (Sample.world true))
                 (clock_reads (cursors (Sample.world true)) + 2) (Z.to_nat 2) /\
    Update.updateMsPerOp r = Num.div (Update.updateMsTotal r) (Num.of_Z 2).
Proof.
  split; [lia |]. split; [lia |]. split; [simpl; lia |].
  apply (per_op_timings (Sample.config 3 2) "local(FlexBasic)" FlexBasic
           [buildFixedProps] [[buildFixedProps]; []; [buildFixedProps]] 3 2
           (Sample.world true)); simpl; lia.
Defined.

(** C5, as stated: a loop count of 0 is neither rejected nor guarded by
    the update phase, which returns a result whose per-operation time is
    the quotient by zero; through the driver that result is stored. *)
Lemma runUpdateBatchKeepMounted_zero_loops_divides :
  (exists r w',
     runUpdateBatchKeepMounted (Sample.config 3 0) "local(FlexBasic)" FlexBasic
       [[buildFixedProps]] 0 (Sample.world false) = (Return r, w') /\
     Update.updateMsPerOp r = Num.div (Update.updateMsTotal r) (Num.of_Z 0) /\
     Update.updateMsPerOp r = NaN) /\
  List.map updateMsPerOp
    (default [] (results (page (snd (runOne (Sample.config 3 0)
                                       "local(FlexBasic)"
                                       (Sample.world false)))))) = [NaN].
Proof.
  split.
  - eexists _, _. split; [vm_compute; reflexivity |].
    split; reflexivity.
  - vm_compute. reflexivity.
Qed.

(** ** The per-case driver *)

Lemma keeps_page_quiet {A} (k : nat) (m : M A) : quiet k m -> keeps_page m.
Proof.
  intros Hq w. destruct (Hq w) as (a & w' & E & F).
  rewrite E. exact (frame_page _ _ _ F).
Qed.

Lemma keeps_page_throw {A} (e : exn) : keeps_page (@throw A e).
Proof. intros w. reflexivity. Qed.

Lemma keeps_page_bind {A B} (m : M A) (k : A -> M B) :
  keeps_page m -> (forall a, keeps_page (k a)) -> keeps_page (bind m k).
Proof.
  intros Hm Hk w. unfold bind. specialize (Hm w).
  destruct (m w) as [[a|e] w1]; simpl in *.
  - rewrite Hk. exact Hm.
  - exact Hm.
Qed.

Lemma keeps_page_for_loop {S} (body : Z -> S -> M S) :
  (forall i s, keeps_page (body i s)) ->
  forall (n : nat) (i : Z) (s : S), keeps_page (for_loop n i body s).
Proof.
  intros Hb n. induction n as [|n IH]; intros i s; simpl.
  - intros w. reflexivity.
  - apply keeps_page_bind; [apply Hb | intros s'; apply IH].
Qed.

Lemma quiet_buildRandomProps : quiet 0 buildRandomProps.
Proof.
  unfold buildRandomProps.
  repeat (apply (quiet_bind 0 0); [solve [eauto with quiet] | intros ?]; cbv zeta).
  apply quiet_ret.
Qed.

Lemma quiet_buildPropsList (cfg : Config) : quiet 0 (buildPropsList cfg).
Proof.
  unfold buildPropsList, for_upto. apply quiet_for_loop. intros i s.
  apply (quiet_bind 0 0); [| intros p; apply quiet_ret].
  destruct (randomPropsEnabled cfg);
    [apply quiet_buildRandomProps | apply quiet_ret].
Qed.

Lemma quiet_propsListsForUpdate (cfg : Config) : quiet 0 (propsListsForUpdate cfg).
Proof. apply quiet_repeatM, quiet_buildPropsList. Qed.

Lemma keeps_page_renderAndWait (cfg : Config) (root : nat) (impl : Impl)
    (next : option (list PropSet)) :
  keeps_page (renderAndWait cfg root impl next).
Proof.
  unfold renderAndWait.
  apply keeps_page_bind; [apply (keeps_page_quiet 1), quiet_now | intros t0].
  apply keeps_page_bind.
  { destruct next; [apply (keeps_page_quiet 0), quiet_ret | apply keeps_page_throw]. }
  intros tree.
  apply keeps_page_bind; [apply (keeps_page_quiet 0), quiet_root_render | intros ds].
  apply keeps_page_bind; [apply (keeps_page_quiet 0), quiet_raf | intros _].
  apply keeps_page_bind; [apply (keeps_page_quiet 1), quiet_now | intros t1].
  apply (keeps_page_quiet 0), quiet_ret.
Qed.

Ltac keeps_page_auto :=
  cbv beta zeta;
  lazymatch goal with
  | |- keeps_page (bind _ _) =>
      apply keeps_page_bind; [keeps_page_auto | intros ?; keeps_page_auto]
  | |- keeps_page (throw _) => apply keeps_page_throw
  | |- keeps_page (renderAndWait _ _ _ _) => apply keeps_page_renderAndWait
  | |- keeps_page (for_upto _ _ _) =>
      unfold for_upto; apply keeps_page_for_loop; intros ? ?; keeps_page_auto
  | |- keeps_page (if ?c then _ else _) => destruct c; keeps_page_auto
  | |- keeps_page _ => eapply keeps_page_quiet; solve [eauto with quiet]
  end.

Lemma keeps_page_runCreateOnlyForest (cfg : Config) (name : BenchName)
    (impl : Impl) (propsList : list PropSet) (iterations : Z) :
  keeps_page (runCreateOnlyForest cfg name impl propsList iterations).
Proof. unfold runCreateOnlyForest. keeps_page_auto. Qed.

Lemma keeps_page_runUpdateBatchKeepMounted (cfg : Config) (name : BenchName)
    (impl : Impl) (propsLists : list (list PropSet)) (loops : Z) :
  keeps_page (runUpdateBatchKeepMounted cfg name impl propsLists loops).
Proof. unfold runUpdateBatchKeepMounted. keeps_page_auto. Qed.

Lemma draws_ret {A} (P : A -> Prop) (a : A) : P a -> draws_exactly 0 P (ret a).
Proof. intros H w. exists a, w. split; [reflexivity |]. split; [exact H | lia]. Qed.

Lemma draws_bind {A B} (k1 k2 : nat) (P : A -> Prop) (Q : B -> Prop)
    (m : M A) (f : A -> M B) :
  draws_exactly k1 P m -> (forall a, P a -> draws_exactly k2 Q (f a)) ->
  draws_exactly (k1 + k2) Q (bind m f).
Proof.
  intros Hm Hf w. destruct (Hm w) as (a & w1 & E1 & Pa & D1).
  destruct (Hf a Pa w1) as (b & w2 & E2 & Qb & D2).
  exists b, w2. rewrite (bind_Return _ _ _ _ _ E1).
  split; [exact E2 |]. split; [exact Qb | lia].
Qed.

Lemma draws_pick (arr : list jsval) : draws_exactly 1 (fun _ => True) (pick arr).
Proof.
  intros w. eexists _, _. split; [reflexivity |]. split; [exact I |].
  unfold draws. simpl. lia.
Qed.

Lemma draws_maybe (v : jsval) (p : Q) : draws_exactly 1 (fun _ => True) (maybe v p).
Proof.
  intros w. eexists _, _. split; [reflexivity |]. split; [exact I |].
  unfold draws. simpl. lia.
Qed.

(** One random PropSet takes twelve readings: nine picks and three coin
    flips. *)
Lemma draws_buildRandomProps : draws_exactly 12 (fun _ => True) buildRandomProps.
Proof.
  unfold buildRandomProps.
  repeat match goal with
         | |- draws_exactly _ _ (bind (pick ?arr) _) =>
             apply (draws_bind 1 _ (fun _ => True) (fun _ => True) (pick arr));
             [apply draws_pick | intros ? _; cbv zeta]
         | |- draws_exactly _ _ (bind (maybe ?v ?p) _) =>
             apply (draws_bind 1 _ (fun _ => True) (fun _ => True) (maybe v p));
             [apply draws_maybe | intros ? _; cbv zeta]
         end.
  apply draws_ret. exact I.
Qed.

Lemma draws_for_loop_push {A} (k : nat) (g : M A) :
  draws_exactly k (fun _ => True) g ->
  forall (n : nat) (i : Z) (acc : list A),
    draws_exactly (n * k) (fun l => length l = (length acc + n)%nat)
      (for_loop n i (fun _ list => p <- g ;; ret (list ++ [p])) acc).
Proof.
  intros Hg n. induction n as [|n IH]; intros i acc; simpl.
  - apply draws_ret. lia.
  - apply (draws_bind k _ (fun l => length l = S (length acc))).
    + replace k with (k + 0)%nat at 1 by lia.
      apply (draws_bind k 0 (fun _ => True)); [exact Hg |].
      intros p _. apply draws_ret. rewrite length_app. simpl. lia.
    + intros l Hl w. destruct (IH (i + 1) l w) as (l' & w' & E & Hlen & D).
      exists l', w'. split; [exact E |]. split; [lia | exact D].
Qed.

Lemma draws_buildPropsList (cfg : Config) :
  draws_exactly (draws_per_list cfg)
    (fun l => length l = Z.to_nat (flexboxCount cfg)) (buildPropsList cfg).
Proof.
  unfold buildPropsList, for_upto, draws_per_list.
  destruct (randomPropsEnabled cfg).
  - rewrite Nat.mul_comm.
    apply (draws_for_loop_push 12 buildRandomProps draws_buildRandomProps
             (Z.to_nat (flexboxCount cfg)) 0 []).
  - replace 0%nat with (Z.to_nat (flexboxCount cfg) * 0)%nat by lia.
    apply (draws_for_loop_push 0 (ret buildFixedProps)
             (draws_ret _ _ I) (Z.to_nat (flexboxCount cfg)) 0 []).
Qed.

Lemma draws_repeatM {A} (k : nat) (P : A -> Prop) (f : M A) :
  draws_exactly k P f ->
  forall n : nat,
    draws_exactly (n * k) (fun ls => length ls = n /\ Forall P ls) (repeatM n f).
Proof.
  intros Hf n. induction n as [|n IH]; simpl.
  - apply draws_ret. split; [reflexivity | constructor].
  - apply (draws_bind k _ P); [exact Hf | intros x Px].
    replace (n * k)%nat with (n * k + 0)%nat by lia.
    apply (draws_bind _ 0 (fun ls => length ls = n /\ Forall P ls)); [exact IH |].
    intros xs [Hlen Hall]. apply draws_ret. split; [simpl; lia |].
    constructor; assumption.
Qed.

(** The array the driver builds: [loops + 1] lists of [flexboxCount]
    PropSets, each made by its own call of [buildPropsList] with its own
    readings of the random source. *)
Lemma propsListsForUpdate_returns (cfg : Config) (w : World) :
  exists ls w',
    propsListsForUpdate cfg w = (Return ls, w') /\
    Z.of_nat (length ls) = Z.max 0 (mountLoops cfg + 1) /\
    Forall (fun l => length l = Z.to_nat (flexboxCount cfg)) ls /\
    draws w' = (draws w + length ls * draws_per_list cfg)%nat.
Proof.
  unfold propsListsForUpdate, array_from.
  destruct (draws_repeatM _ _ _ (draws_buildPropsList cfg)
              (Z.to_nat (mountLoops cfg + 1)) w)
    as (ls & w' & E & [Hlen Hall] & D).
  exists ls, w'. split; [exact E |]. split; [lia |]. split; [exact Hall |].
  rewrite Hlen. exact D.
Qed.

(** Given no props list and a loop count below zero, the update phase
    passes its length check and fails on the missing warmup list. *)
Lemma runUpdateBatchKeepMounted_no_warmup (cfg : Config) (name : BenchName)
    (impl : Impl) (loops : Z) (w : World) :
  loops <= -1 ->
  exists m w',
    runUpdateBatchKeepMounted cfg name impl [] loops w = (Throw (TypeError m), w').
Proof.
  intros Hneg. unfold runUpdateBatchKeepMounted.
  replace (Z.of_nat (length (@nil (list PropSet))) <? loops + 1) with false
    by (symmetry; apply Z.ltb_ge; simpl; lia).
  eexists _, _. reflexivity.
Qed.

(** Whatever the loop count, the [try] block of the driver never fails
    the length check of the update phase. *)
Lemma runOne_try_enough_lists (cfg : Config) (name : BenchName) (w : World) :
  spec (runOne_try cfg name) w
    (fun _ _ => True)
    (fun e _ => e <> Error "propsLists must include warmup + loops").
Proof.
  unfold runOne_try.
  apply spec_bind, (spec_quiet 0); [apply quiet_raf | intros _ w1 _].
  apply spec_bind.
  destruct (List.find _ cases) as [c|];
    [apply spec_ret | apply spec_throw; simpl; discriminate].
  apply spec_bind, (spec_quiet 0); [apply quiet_buildPropsList |].
  intros propsList w2 _.
  destruct (propsListsForUpdate_returns cfg w2) as (ls & w3 & E3 & Hlen & _).
  apply spec_bind. unfold spec at 1. rewrite E3.
  apply spec_bind.
  destruct (Z_le_gt_dec (createIterations cfg) 0) as [Hle | Hgt].
  - destruct (runCreateOnlyForest_rejects cfg (fst c) (snd c) propsList
                (createIterations cfg) w3 Hle) as [_ E4].
    unfold spec at 1. rewrite E4. discriminate.
  - destruct (runCreateOnlyForest_returns cfg (fst c) (snd c) propsList
                (createIterations cfg) w3) as (create & w4 & E4 & _); [lia |].
    unfold spec at 1. rewrite E4.
    destruct (Z_le_gt_dec 0 (mountLoops cfg)) as [Hloops | Hneg].
    + destruct (runUpdateBatchKeepMounted_returns cfg (fst c) (snd c) ls
                  (mountLoops cfg) w4) as (update & w5 & E5 & _); [lia | lia |].
      apply spec_bind. unfold spec at 1. rewrite E5.
      exact I.
    + assert (ls = []) as -> by (destruct ls; [reflexivity | simpl in Hlen; lia]).
      destruct (runUpdateBatchKeepMounted_no_warmup cfg (fst c) (snd c)
                  (mountLoops cfg) w4) as (m & w5 & E5); [lia |].
      apply spec_bind. unfold spec at 1. rewrite E5. discriminate.
Qed.

(** C8 (as amended): the driver's array of props lists for the update
    phase has exactly [loops + 1] entries for every whole loop count
    [loops >= -1], and none for a smaller one; each entry is a list of
    [flexboxCount] PropSets made by its own call of [buildPropsList], with
    its own readings of the random source; whatever the whole loop count,
    the array passes the length check of the update phase, so what the
    [try] block of the driver throws is never the configuration error;
    and for [loops >= 0] the update phase called with that array
    returns. *)
Theorem propsListsForUpdate_count (cfg : Config) (w : World) :
  (exists ls w',
     propsListsForUpdate cfg w = (Return ls, w') /\
     Z.of_nat (length ls) = Z.max 0 (mountLoops cfg + 1) /\
     Forall (fun l => length l = Z.to_nat (flexboxCount cfg)) ls /\
     draws w' = (draws w + length ls * draws_per_list cfg)%nat /\
     (Z.of_nat (length ls) <? mountLoops cfg + 1) = false /\
     (0 <= mountLoops cfg ->
      forall (name : BenchName) (impl : Impl) (w2 : World),
        exists r w3,
          runUpdateBatchKeepMounted cfg name impl ls (mountLoops cfg) w2 =
          (Return r, w3))) /\
  forall (name : BenchName) (w0 : World),
    match fst (runOne_try cfg name w0) with
    | Return _ => True
    | Throw e => e <> Error "propsLists must include warmup + loops"
    end.
Proof.
  split.
  - destruct (propsListsForUpdate_returns cfg w)
      as (ls & w' & E & Hlen & Hall & D).
    exists ls, w'. split; [exact E |]. split; [exact Hlen |].
    split; [exact Hall |]. split; [exact D |].
    split; [apply Z.ltb_ge; lia |].
    intros Hloops name impl w2.
    destruct (runUpdateBatchKeepMounted_returns cfg name impl ls (mountLoops cfg) w2)
      as (r & w3 & E3 & _); [lia | lia |].
    eauto.
  - intros name w0.
    pose proof (runOne_try_enough_lists cfg name w0) as H.
    unfold spec in H.
    destruct (runOne_try cfg name w0) as [[u|e] w1]; simpl; [exact I | exact H].
Qed.

(** C8, as stated: for the loop count -2 the array is empty, not of
    [loops + 1] entries. *)
Lemma propsListsForUpdate_negative_loops :
  mountLoops (Sample.config 3 (-2)) = -2 /\
  propsListsForUpdate (Sample.config 3 (-2)) (Sample.world true) =
    (Return [], Sample.world true) /\
  ~ (exists (ls : list (list PropSet)) (w' : World),
       propsListsForUpdate (Sample.config 3 (-2)) (Sample.world true) =
         (Return ls, w') /\
       Z.of_nat (length ls) = mountLoops (Sample.config 3 (-2)) + 1).
Proof.
  split; [reflexivity |]. split; [reflexivity |].
  intros (ls & w' & E & Hlen).
  change (propsListsForUpdate (Sample.config 3 (-2)) (Sample.world true))
    with (@Return (list (list PropSet)) [], Sample.world true) in E.
  injection E as <- _. discriminate Hlen.
Qed.

(** Sequencing after a step that keeps the component state: a throw
    anywhere leaves the state of the start. *)
Lemma spec_bind_keeps {A B} (m : M A) (k : A -> M B) (w0 w : World)
    (Qr : B -> World -> Prop) :
  page w = page w0 ->
  keeps_page m ->
  (forall a w1, page w1 = page w0 ->
     spec (k a) w1 Qr (fun _ w' => page w' = page w0)) ->
  spec (bind m k) w Qr (fun _ w' => page w' = page w0).
Proof.
  intros Hp Hm Hk. apply spec_bind. unfold spec at 1.
  specialize (Hm w). destruct (m w) as [[a|e] w1]; simpl in Hm.
  - apply Hk. congruence.
  - congruence.
Qed.

(** The [try] block either throws with the component state untouched, or
    returns after one upsert, which is its only change to that state. *)
Lemma runOne_try_page (cfg : Config) (name : BenchName) (w : World) :
  spec (runOne_try cfg name) w
    (fun _ w' =>
       exists merged,
         page w' = mkPage (running (page w))
                          (Some (upsert merged (results (page w))))
                          (error (page w)))
    (fun _ w' => page w' = page w).
Proof.
  unfold runOne_try.
  apply spec_bind_keeps; [reflexivity | apply (keeps_page_quiet 0), quiet_raf |].
  intros _ w1 H1.
  apply spec_bind_keeps; [exact H1 | |].
  { destruct (List.find _ cases);
      [apply (keeps_page_quiet 0), quiet_ret | apply keeps_page_throw]. }
  intros c w2 H2.
  apply spec_bind_keeps;
    [exact H2 | apply (keeps_page_quiet 0), quiet_buildPropsList |].
  intros propsList w3 H3.
  apply spec_bind_keeps;
    [exact H3 | apply (keeps_page_quiet 0), quiet_propsListsForUpdate |].
  intros propsLists w4 H4.
  apply spec_bind_keeps; [exact H4 | apply keeps_page_runCreateOnlyForest |].
  intros create w5 H5.
  apply spec_bind_keeps; [exact H5 | apply keeps_page_runUpdateBatchKeepMounted |].
  intros update w6 H6.
  unfold spec. cbn. rewrite H6. eauto.
Qed.

(** C2: [runOne] itself never throws and always leaves the running flag
    cleared.  When its [try] block throws, the message of the exception
    is stored as the error and the results are exactly those from before
    the run; only when the block returns are the results changed, by one
    upsert, with no error stored. *)
Theorem runOne_outcomes (cfg : Config) (name : BenchName) (w : World) :
  let w' := snd (runOne cfg name w) in
  fst (runOne cfg name w) = Return tt /\
  running (page w') = false /\
  match runOne_try cfg name (started w) with
  | (Throw e, _) =>
      error (page w') = Some (message e) /\
      results (page w') = results (page w)
  | (Return _, _) =>
      error (page w') = None /\
      exists merged,
        results (page w') = Some (upsert merged (results (page w)))
  end.
Proof.
  pose proof (runOne_try_page cfg name (started w)) as Hs.
  unfold spec in Hs.
  unfold runOne, bind, setError, setRunning, modify, try_catch_finally.
  change (with_page (fun p => mkPage true (results p) (error p))
            (with_page (fun p => mkPage (running p) (results p) None) w))
    with (started w).
  destruct (runOne_try cfg name (started w)) as [[[]|e] w1]; cbn.
  - destruct Hs as [merged Hp]. rewrite Hp. cbn. eauto.
  - rewrite Hs. cbn. auto.
Qed.

(** The three documented failures, as the driver reports them. *)
Example runOne_unknown_case :
  page (snd (runOne (Sample.config 3 2) "nope" (Sample.world true))) =
  mkPage false None (Some "Unknown case: nope").
Proof. vm_compute. reflexivity. Qed.

Example runOne_sanity_check :
  page (snd (runOne (Sample.config 0 2) "native(WebComponent)" (Sample.world true))) =
  mkPage false None (Some "create-only sanity check failed").
Proof. vm_compute. reflexivity. Qed.

Example runOne_success :
  names (results (page (snd (runOne (Sample.config 3 2) "local(FlexBasic)"
                                    (Sample.world true))))) =
  ["local(FlexBasic)"].
Proof. vm_compute. reflexivity. Qed.

(** ** The theorems at sample inputs *)

Lemma runUpdateBatchKeepMounted_too_few_witness :
  Z.of_nat (length [[buildFixedProps]; [buildFixedProps]]) < 2 + 1 /\
  runUpdateBatchKeepMounted (Sample.config 3 2) "local(FlexBasic)" FlexBasic
    [[buildFixedProps]; [buildFixedProps]] 2 (Sample.world true) =
  (Throw (Error "propsLists must include warmup + loops"), Sample.world true).
Proof.
  split; [simpl; lia |].
  apply (runUpdateBatchKeepMounted_too_few (Sample.config 3 2)
           "local(FlexBasic)" FlexBasic
           [[buildFixedProps]; [buildFixedProps]] 2 (Sample.world true)).
  simpl. lia.
Defined.

Lemma buildPropsList_fixed_witness :
  randomPropsEnabled (Sample.config 3 2) = false /\
  exists l : list PropSet,
    buildPropsList (Sample.config 3 2) (Sample.world true) =
      (Return l, Sample.world true) /\
    l = replicate (Z.to_nat (flexboxCount (Sample.config 3 2))) fixed_literal /\
    Z.of_nat (length l) = Z.max 0 (flexboxCount (Sample.config 3 2)) /\
    Forall (fun p => p = fixed_literal) l.
Proof.
  split; [reflexivity |].
  apply (buildPropsList_fixed (Sample.config 3 2) (Sample.world true)).
  reflexivity.
Defined.

Lemma sample_source_unit_interval (gc : bool) :
  unit_interval_source (host (Sample.world gc)).
Proof.
  intros k. simpl. split; [vm_compute; reflexivity |].
  split; [unfold Qle | unfold Qlt]; simpl; lia.
Defined.

Lemma buildRandomProps_enumerations_witness :
  unit_interval_source (host (Sample.world true)) /\
  exists (p : PropSet) (w' : World),
    buildRandomProps (Sample.world true) = (Return p, w') /\
    drawn_from directions "direction" p /\
    optional_from flexChoices "flex" p.
Proof.
  split; [apply sample_source_unit_interval |].
  destruct (buildRandomProps_enumerations (Sample.world true)
              (sample_source_unit_interval true))
    as (p & w' & E & Hd & _ & _ & _ & _ & _ & _ & _ & Hf & _).
  exists p, w'. auto.
Defined.

Lemma propsListsForUpdate_count_witness :
  0 <= mountLoops (Sample.config 3 2) /\
  exists ls w',
    propsListsForUpdate (Sample.config 3 2) (Sample.world true) = (Return ls, w') /\
    Z.of_nat (length ls) = mountLoops (Sample.config 3 2) + 1 /\
    exists r w3,
      runUpdateBatchKeepMounted (Sample.config 3 2) "local(FlexBasic)" FlexBasic
        ls 2 (Sample.world true) = (Return r, w3).
Proof.
  split; [simpl; lia |].
  destruct (propsListsForUpdate_count (Sample.config 3 2) (Sample.world true))
    as ((ls & w' & E & Hlen & _ & _ & _ & Hret) & _).
  exists ls, w'. split; [exact E |]. split; [exact Hlen |].
  apply (Hret ltac:(simpl; lia) "local(FlexBasic)" FlexBasic (Sample.world true)).
Defined.

Lemma sample_store_state :
  store_state (Some (upsert (Sample.result "native(WebComponent)" 1)
                       (Some (upsert (Sample.result "local(FlexBasic)" 2) None)))).
Proof. apply store_upserted, store_upserted, store_cleared. Defined.

Lemma upsert_idempotent_by_name_witness :
  let s := Some (upsert (Sample.result "native(WebComponent)" 1)
                   (Some (upsert (Sample.result "local(FlexBasic)" 2) None))) in
  let r1 := Sample.result "local(FlexBasic)" 3 in
  let r2 := Sample.result "local(FlexBasic)" 4 in
  store_state s /\ name r1 = name r2 /\
  upsert r2 (Some (upsert r1 s)) = upsert r2 s /\
  List.filter (named (name r2)) (upsert r2 (Some (upsert r1 s))) = [r2].
Proof.
  intros s r1 r2.
  split; [apply sample_store_state |]. split; [reflexivity |].
  destruct (upsert_idempotent_by_name s r1 r2 sample_store_state eq_refl)
    as (H1 & H2 & _).
  split; [exact H1 | exact H2].
Defined.

Lemma runCreateOnlyForest_no_iterations_witness :
  0 <= 0 /\
  runCreateOnlyForest (Sample.config 0 2) "local(FlexBasic)" FlexBasic
    [buildFixedProps] 0 (Sample.world true) =
  (Throw (Error "create-only sanity check failed"),
   create_started (Sample.world true)).
Proof.
  split; [lia |].
  destruct (runCreateOnlyForest_no_iterations (Sample.config 0 2)
              "local(FlexBasic)" FlexBasic [buildFixedProps] 0 (Sample.world true))
    as (_ & _ & H & _); [lia | exact H].
Defined.

(** * Further properties *)

(** ** Steps of the phases, with all they change *)

Lemma moved_refl (w : World) : moved w w 0 0 0 [].
Proof. split; try reflexivity; try lia. symmetry. apply app_nil_r. Qed.

Lemma moved_trans (w w1 w2 : World) (c1 c2 m1 m2 r1 r2 : nat) (e1 e2 : list Event) :
  moved w w1 c1 m1 r1 e1 -> moved w1 w2 c2 m2 r2 e2 ->
  moved w w2 (c1 + c2) (m1 + m2) (r1 + r2) (e1 ++ e2).
Proof.
  intros [] []. split; try congruence; try lia.
  rewrite app_assoc. congruence.
Qed.

Lemma moved_eq (w w' : World) (c c' m m' r r' : nat) (e e' : list Event) :
  moved w w' c m r e -> c = c' -> m = m' -> r = r' -> e = e' ->
  moved w w' c' m' r' e'.
Proof. intros H -> -> -> ->. exact H. Qed.

Ltac moved_by_computation :=
  split; cbn; try reflexivity; try lia;
  try (symmetry; apply app_nil_r).

Lemma step_maybeGC (w : World) :
  exists w',
    maybeGC w = (Return tt, w') /\
    moved w w' 0 0 0 (gc_events (host w)) /\
    document w' = document w.
Proof.
  unfold maybeGC, bind, get, gc_events.
  destruct (gc_exposed (host w)); eexists; (split; [reflexivity |]); split;
    try reflexivity; moved_by_computation.
  rewrite <- app_assoc. reflexivity.
Qed.

Lemma step_readMemory (w : World) :
  exists w',
    readMemory w = (Return (memory_at (host w) (memory_reads (cursors w))), w') /\
    moved w w' 0 1 0 [] /\
    document w' = document w.
Proof.
  unfold readMemory, memory_at.
  destruct (performance_memory (host w) (memory_reads (cursors w)));
    eexists; (split; [reflexivity |]); split; try reflexivity;
    moved_by_computation.
Qed.

Lemma step_now (w : World) :
  exists w',
    now w = (Return (Fin (performance_now (host w) (clock_reads (cursors w)))), w') /\
    moved w w' 1 0 0 [] /\
    document w' = document w.
Proof.
  eexists. split; [reflexivity |]. split; [moved_by_computation | reflexivity].
Qed.

Lemma step_raf (w : World) :
  exists w',
    raf w = (Return tt, w') /\
    moved w w' 0 0 0 [EvFrame] /\
    document w' = document w.
Proof.
  eexists. split; [reflexivity |]. split; [moved_by_computation | reflexivity].
Qed.

(** One render of the update phase: two clock readings around the
    render and one frame wait. *)
Lemma step_renderAndWait (cfg : Config) (root : nat) (impl : Impl)
    (l : list PropSet) (w : World) :
  exists w',
    renderAndWait cfg root impl (Some l) w =
      (Return (Num.sub (Fin (performance_now (host w) (S (clock_reads (cursors w)))))
                       (Fin (performance_now (host w) (clock_reads (cursors w)))),
               commit_duration (host w) (renders (cursors w))), w') /\
    moved w w' 2 0 1 [EvFrame] /\
    document w' =
      mkDocument (created (document w)) (body (document w))
        (head (document w) ++ injected_styles (host w) (renders (cursors w)))
        (set_root root (Some (buildBenchmarkTree cfg impl l)) (roots (document w))).
Proof.
  unfold renderAndWait.
  cbv beta iota delta [bind now ret root_render raf log_event modify].
  eexists. split; [reflexivity |]. split; [moved_by_computation | reflexivity].
Qed.

Lemma step_document_createElement (w : World) :
  exists w',
    document_createElement w = (Return (mkContainer (created (document w)) []), w') /\
    moved w w' 0 0 0 [] /\
    document w' =
      mkDocument (S (created (document w))) (body (document w))
                 (head (document w)) (roots (document w)).
Proof.
  eexists. split; [reflexivity |]. split; [moved_by_computation | reflexivity].
Qed.

Lemma step_body_appendChild (c : Container) (w : World) :
  exists w',
    body_appendChild c w = (Return tt, w') /\
    moved w w' 0 0 0 [] /\
    document w' =
      mkDocument (created (document w)) (body (document w) ++ [c])
                 (head (document w)) (roots (document w)).
Proof.
  eexists. split; [reflexivity |]. split; [moved_by_computation | reflexivity].
Qed.

Lemma step_createRoot (c : Container) (w : World) :
  exists w',
    createRoot c w = (Return (cid c), w') /\
    moved w w' 0 0 0 [] /\
    document w' =
      mkDocument (created (document w)) (body (document w))
                 (head (document w)) ((cid c, None) :: roots (document w)).
Proof.
  eexists. split; [reflexivity |]. split; [moved_by_computation | reflexivity].
Qed.

Lemma step_root_unmount (root : nat) (w : World) :
  exists w',
    root_unmount root w = (Return tt, w') /\
    moved w w' 0 0 0 [] /\
    document w' =
      mkDocument (created (document w)) (body (document w)) (head (document w))
        (List.filter (fun r => negb (Nat.eqb (fst r) root)) (roots (document w))).
Proof.
  eexists. split; [reflexivity |]. split; [moved_by_computation | reflexivity].
Qed.

Lemma step_container_remove (c : Container) (w : World) :
  exists w',
    container_remove c w = (Return tt, w') /\
    moved w w' 0 0 0 [] /\
    document w' =
      mkDocument (created (document w))
        (List.filter (fun c' => negb (Nat.eqb (cid c') (cid c))) (body (document w)))
        (head (document w)) (roots (document w)).
Proof.
  eexists. split; [reflexivity |]. split; [moved_by_computation | reflexivity].
Qed.

Lemma step_cleanupEmotionStyleTags (w : World) :
  exists w',
    cleanupEmotionStyleTags w = (Return tt, w') /\
    moved w w' 0 0 0 [] /\
    document w' =
      mkDocument (created (document w)) (body (document w))
        (List.filter (fun el => negb (is_emotion_css el)) (head (document w)))
        (roots (document w)).
Proof.
  eexists. split; [reflexivity |]. split; [moved_by_computation | reflexivity].
Qed.

(** Replacing the content of a root does not change the other roots. *)
Lemma filter_set_root (root : nat) (tree : option element)
    (rs : list (nat * option element)) :
  List.filter (fun r => negb (Nat.eqb (fst r) root)) (set_root root tree rs) =
  List.filter (fun r => negb (Nat.eqb (fst r) root)) rs.
Proof.
  unfold set_root. induction rs as [|r rs IH]; simpl; [reflexivity |].
  destruct (Nat.eqb (fst r) root) eqn:E; simpl.
  - rewrite Nat.eqb_refl. simpl. exact IH.
  - rewrite E. simpl. rewrite IH. reflexivity.
Qed.

Lemma injected_by_S (h : Host) (r j : nat) :
  injected_by h r (S j) = injected_by h r j ++ injected_styles h (r + j).
Proof.
  unfold injected_by. rewrite seq_S, flat_map_app. simpl.
  rewrite app_nil_r. reflexivity.
Qed.

(** Runs the first step of a sequence with the lemma [H] about it. *)
Ltac run_step H :=
  let w' := fresh "w" in
  let E := fresh "E" in
  let Mv := fresh "Mv" in
  let D := fresh "D" in
  destruct H as (w' & E & Mv & D);
  rewrite (bind_Return _ _ _ _ _ E); clear E.

(** The measured loop of the update phase, started in [w] with root
    [root], when the props lists [i + 1 .. i + n] exist. *)
Lemma update_loop (cfg : Config) (root : nat) (impl : Impl)
    (pls : list (list PropSet)) (n : nat) (w : World) :
  Z.of_nat n + 1 <= Z.of_nat (length pls) ->
  exists totals w',
    for_loop n 0
      (fun i totals =>
         r <- renderAndWait cfg root impl (js_index pls (i + 1)) ;;
         ret (Num.add (fst totals) (fst r), Num.add (snd totals) (snd r)))
      (Fin 0, Fin 0) w = (Return totals, w') /\
    moved w w' (2 * n) 0 n (replicate n EvFrame) /\
    created (document w') = created (document w) /\
    body (document w') = body (document w) /\
    head (document w') =
      head (document w) ++ injected_by (host w) (renders (cursors w)) n /\
    List.filter (fun r => negb (Nat.eqb (fst r) root)) (roots (document w')) =
      List.filter (fun r => negb (Nat.eqb (fst r) root)) (roots (document w)) /\
    fst totals = wall_total (host w) (clock_reads (cursors w)) n /\
    snd totals = actual_total (host w) (renders (cursors w)) n.
Proof.
  intros Hlen.
  cut (spec
         (for_loop n 0
            (fun i totals =>
               r <- renderAndWait cfg root impl (js_index pls (i + 1)) ;;
               ret (Num.add (fst totals) (fst r), Num.add (snd totals) (snd r)))
            (Fin 0, Fin 0)) w
         (fun totals w' =>
            moved w w' (2 * n) 0 n (replicate n EvFrame) /\
            created (document w') = created (document w) /\
            body (document w') = body (document w) /\
            head (document w') =
              head (document w) ++ injected_by (host w) (renders (cursors w)) n /\
            List.filter (fun r => negb (Nat.eqb (fst r) root)) (roots (document w')) =
              List.filter (fun r => negb (Nat.eqb (fst r) root)) (roots (document w)) /\
            fst totals = wall_total (host w) (clock_reads (cursors w)) n /\
            snd totals = actual_total (host w) (renders (cursors w)) n)
         (fun _ _ => False)).
  { intros H. apply spec_run in H as [H | (e & w' & _ & [])]. exact H. }
  apply (spec_for_loop n
           (fun j totals w' =>
              moved w w' (2 * j) 0 j (replicate j EvFrame) /\
              created (document w') = created (document w) /\
              body (document w') = body (document w) /\
              head (document w') =
                head (document w) ++ injected_by (host w) (renders (cursors w)) j /\
              List.filter (fun r => negb (Nat.eqb (fst r) root)) (roots (document w')) =
                List.filter (fun r => negb (Nat.eqb (fst r) root)) (roots (document w)) /\
              fst totals = wall_total (host w) (clock_reads (cursors w)) j /\
              snd totals = actual_total (host w) (renders (cursors w)) j)).
  - split; [apply moved_refl |]. unfold injected_by. simpl.
    rewrite app_nil_r. repeat split; reflexivity.
  - intros j s w1 Hj (Mv & Hc & Hb & Hh & Hr & Hw & Ha).
    destruct (js_index_Some pls (0 + Z.of_nat j + 1)) as [l Hl]; [lia |].
    rewrite Hl.
    destruct (step_renderAndWait cfg root impl l w1) as (w2 & E & Mv2 & D).
    apply spec_bind. unfold spec at 1. rewrite E. apply spec_ret. cbn [fst snd].
    destruct Mv as [Mh Mp Mr Mc Mm Mn Ml].
    split; [| split; [| split; [| split; [| split; [| split]]]]].
    + eapply moved_eq;
        [exact (moved_trans _ _ _ _ _ _ _ _ _ _ _
                  (mkMoved w w1 _ _ _ _ Mh Mp Mr Mc Mm Mn Ml) Mv2)
        | lia | lia | lia |].
      rewrite replicate_S_end. reflexivity.
    + rewrite D. cbn [created]. exact Hc.
    + rewrite D. cbn [body]. exact Hb.
    + rewrite D. cbn [head].
      rewrite Hh, injected_by_S, Mh, Mn, app_assoc. reflexivity.
    + rewrite D. cbn [roots]. rewrite filter_set_root. exact Hr.
    + rewrite Hw. cbn [wall_total]. rewrite Mh, Mc.
      replace (clock_reads (cursors w) + 2 * j)%nat
        with (clock_reads (cursors w) + 2 * j)%nat by reflexivity.
      reflexivity.
    + rewrite Ha. cbn [actual_total]. rewrite Mh, Mn. reflexivity.
  - intros s w1 H. exact H.
Qed.

(** All that a run of the update phase changes, when the length check
    passes and there is a warmup list. *)
Lemma update_phase_effect (cfg : Config) (name : BenchName) (impl : Impl)
    (pls : list (list PropSet)) (loops : Z) (w : World) :
  pls <> [] ->
  loops + 1 <= Z.of_nat (length pls) ->
  let n := Z.to_nat loops in
  let h := host w in
  let d := document w in
  let total := wall_total h (clock_reads (cursors w) + 2) n in
  exists w',
    runUpdateBatchKeepMounted cfg name impl pls loops w =
      (Return (Update.mkResult name total (Num.div total (Num.of_Z loops))
                 (actual_total h (S (renders (cursors w))) n)
                 (Update.mkMemory (memory_at h (memory_reads (cursors w)))
                                  (memory_at h (S (memory_reads (cursors w)))))),
       w') /\
    moved w w' (2 + 2 * n) 2 (1 + n)
      ([EvFrame] ++ gc_events h ++ replicate n EvFrame ++ gc_events h ++
       [EvFrame] ++ gc_events h) /\
    created (document w') = S (created d) /\
    body (document w') =
      List.filter (fun c' => negb (Nat.eqb (cid c') (created d)))
                  (body d ++ [offscreen d]) /\
    roots (document w') =
      List.filter (fun r => negb (Nat.eqb (fst r) (created d))) (roots d) /\
    head (document w') =
      List.filter (fun el => negb (is_emotion_css el))
                  (head d ++ injected_by h (renders (cursors w)) (S n)).
Proof.
  intros Hne Hlen n h d total.
  unfold runUpdateBatchKeepMounted.
  replace (Z.of_nat (length pls) <? loops + 1) with false
    by (symmetry; apply Z.ltb_ge; lia).
  run_step (step_document_createElement w).
  run_step (step_body_appendChild (offscreen d) w0).
  run_step (step_createRoot (offscreen d) w1).
  destruct pls as [|l0 pls']; [congruence |].
  change (js_index (l0 :: pls') 0) with (Some l0).
  run_step (step_renderAndWait cfg (created d) impl l0 w2).
  run_step (step_maybeGC w3).
  run_step (step_readMemory w4).
  unfold for_upto. fold n.
  destruct (update_loop cfg (created d) impl (l0 :: pls') n w5)
    as (totals & w6 & E6 & Mv6 & Hc6 & Hb6 & Hh6 & Hr6 & Hw6 & Ha6).
  { subst n. destruct (Z_le_gt_dec 0 loops); [lia |].
    replace (Z.to_nat loops) with 0%nat by lia. simpl length. lia. }
  rewrite (bind_Return _ _ _ _ _ E6). clear E6.
  run_step (step_maybeGC w6).
  run_step (step_readMemory w7).
  run_step (step_root_unmount (created d) w8).
  run_step (step_container_remove (offscreen d) w9).
  run_step (step_raf w10).
  run_step (step_cleanupEmotionStyleTags w11).
  run_step (step_maybeGC w12).
  (* the cursors and the host along the way *)
  pose proof (moved_trans _ _ _ _ _ _ _ _ _ _ _ Mv Mv0) as T1.
  pose proof (moved_trans _ _ _ _ _ _ _ _ _ _ _ T1 Mv1) as T2.
  pose proof (moved_trans _ _ _ _ _ _ _ _ _ _ _ T2 Mv2) as T3.
  pose proof (moved_trans _ _ _ _ _ _ _ _ _ _ _ T3 Mv3) as T4.
  pose proof (moved_trans _ _ _ _ _ _ _ _ _ _ _ T4 Mv4) as T5.
  pose proof (moved_trans _ _ _ _ _ _ _ _ _ _ _ T5 Mv6) as T6.
  pose proof (moved_trans _ _ _ _ _ _ _ _ _ _ _ T6 Mv5) as T7.
  pose proof (moved_trans _ _ _ _ _ _ _ _ _ _ _ T7 Mv7) as T8.
  pose proof (moved_trans _ _ _ _ _ _ _ _ _ _ _ T8 Mv8) as T9.
  pose proof (moved_trans _ _ _ _ _ _ _ _ _ _ _ T9 Mv9) as T10.
  pose proof (moved_trans _ _ _ _ _ _ _ _ _ _ _ T10 Mv10) as T11.
  pose proof (moved_trans _ _ _ _ _ _ _ _ _ _ _ T11 Mv11) as T12.
  pose proof (moved_trans _ _ _ _ _ _ _ _ _ _ _ T12 Mv12) as T13.
  pose proof (moved_host _ _ _ _ _ _ T2) as HH2.
  pose proof (moved_host _ _ _ _ _ _ T3) as HH3.
  pose proof (moved_host _ _ _ _ _ _ T4) as HH4.
  pose proof (moved_host _ _ _ _ _ _ T5) as HH5.
  pose proof (moved_host _ _ _ _ _ _ T6) as HH6.
  pose proof (moved_host _ _ _ _ _ _ T7) as HH7.
  pose proof (moved_host _ _ _ _ _ _ T12) as HH12.
  rewrite HH3, HH6, HH12 in T13.
  exists w13. split; [| split; [| split; [| split; [| split]]]].
  - unfold ret. rewrite Hw6, Ha6, HH5, HH4, HH7.
    rewrite (moved_clock _ _ _ _ _ _ T5), (moved_renders _ _ _ _ _ _ T5).
    rewrite (moved_memory _ _ _ _ _ _ T4), (moved_memory _ _ _ _ _ _ T7).
    subst total h.
    replace (clock_reads (cursors w) + (0 + 0 + 0 + 2 + 0 + 0))%nat
      with (clock_reads (cursors w) + 2)%nat by lia.
    replace (renders (cursors w) + (0 + 0 + 0 + 1 + 0 + 0))%nat
      with (S (renders (cursors w))) by lia.
    replace (memory_reads (cursors w) + (0 + 0 + 0 + 0 + 0))%nat
      with (memory_reads (cursors w)) by lia.
    replace (memory_reads (cursors w) + (0 + 0 + 0 + 0 + 0 + 1 + 0 + 0))%nat
      with (S (memory_reads (cursors w))) by lia.
    reflexivity.
  - eapply moved_eq; [exact T13 | lia | lia | lia |].
    fold h. rewrite ?app_nil_r. cbn [app].
    rewrite <- ?app_assoc. reflexivity.
  - rewrite D11, D10, D9, D8, D7, D6, D5; cbn [created].
    rewrite Hc6, D4, D3, D2, D1, D0, D; cbn [created]. reflexivity.
  - rewrite D11, D10, D9, D8; cbn [body]. rewrite D7, D6, D5; cbn [body].
    rewrite Hb6, D4, D3, D2, D1, D0, D; cbn [body]. reflexivity.
  - rewrite D11, D10, D9, D8, D7; cbn [roots]. rewrite D6, D5; cbn [roots].
    rewrite Hr6, D4, D3, D2; cbn [roots]. rewrite filter_set_root.
    rewrite D1, D0, D; cbn [roots offscreen set_style cid].
    cbn [List.filter fst]. rewrite Nat.eqb_refl. reflexivity.
  - rewrite D11, D10; cbn [head]. rewrite D9, D8, D7, D6, D5; cbn [head].
    rewrite Hh6, D4, D3, D2; cbn [head]. rewrite D1, D0, D; cbn [head].
    rewrite HH5, HH2, (moved_renders _ _ _ _ _ _ T5), (moved_renders _ _ _ _ _ _ T2).
    f_equal. rewrite <- app_assoc. f_equal.
    unfold injected_by. fold h.
    replace (renders (cursors w) + (0 + 0 + 0 + 1 + 0 + 0))%nat
      with (S (renders (cursors w))) by lia.
    replace (renders (cursors w) + (0 + 0 + 0))%nat
      with (renders (cursors w)) by lia.
    cbn [seq flat_map]. reflexivity.
Qed.

(** All that a run of the creation phase with at least one iteration
    changes. *)
Lemma create_phase_effect (cfg : Config) (name : BenchName) (impl : Impl)
    (propsList : list PropSet) (iterations : Z) (w : World) :
  1 <= iterations ->
  let h := host w in
  let total :=
    Num.sub (Fin (performance_now h (S (clock_reads (cursors w)))))
            (Fin (performance_now h (clock_reads (cursors w)))) in
  exists w',
    runCreateOnlyForest cfg name impl propsList iterations w =
      (Return (Create.mkResult name total (Num.div total (Num.of_Z iterations))
                 (Create.mkMemory (memory_at h (memory_reads (cursors w)))
                                  (memory_at h (S (memory_reads (cursors w)))))),
       w') /\
    moved w w' 2 2 0 (gc_events h ++ gc_events h) /\
    document w' = document w.
Proof.
  intros Hge h total. unfold runCreateOnlyForest.
  run_step (step_maybeGC w).
  run_step (step_readMemory w0).
  run_step (step_now w1).
  unfold for_upto at 1.
  destruct (Z.to_nat iterations) as [|n] eqn:Hn; [lia |].
  erewrite bind_Return by apply for_loop_const.
  cbn [isValidElement].
  erewrite bind_Return by reflexivity.
  run_step (step_now w2).
  run_step (step_maybeGC w3).
  run_step (step_readMemory w4).
  pose proof (moved_trans _ _ _ _ _ _ _ _ _ _ _ Mv Mv0) as T1.
  pose proof (moved_trans _ _ _ _ _ _ _ _ _ _ _ T1 Mv1) as T2.
  pose proof (moved_trans _ _ _ _ _ _ _ _ _ _ _ T2 Mv2) as T3.
  pose proof (moved_trans _ _ _ _ _ _ _ _ _ _ _ T3 Mv3) as T4.
  pose proof (moved_trans _ _ _ _ _ _ _ _ _ _ _ T4 Mv4) as T5.
  rewrite (moved_host _ _ _ _ _ _ T3) in T5.
  exists w5. split; [| split].
  - unfold ret.
    rewrite (moved_host _ _ _ _ _ _ Mv), (moved_host _ _ _ _ _ _ T1),
      (moved_host _ _ _ _ _ _ T2), (moved_host _ _ _ _ _ _ T4).
    rewrite (moved_memory _ _ _ _ _ _ Mv), (moved_clock _ _ _ _ _ _ T1),
      (moved_clock _ _ _ _ _ _ T2), (moved_memory _ _ _ _ _ _ T4).
    subst total h.
    replace (clock_reads (cursors w) + (0 + 0 + 1))%nat
      with (S (clock_reads (cursors w))) by lia.
    replace (clock_reads (cursors w) + (0 + 0))%nat
      with (clock_reads (cursors w)) by lia.
    replace (memory_reads (cursors w) + 0)%nat
      with (memory_reads (cursors w)) by lia.
    replace (memory_reads (cursors w) + (0 + 1 + 0 + 0 + 0))%nat
      with (S (memory_reads (cursors w))) by lia.
    reflexivity.
  - eapply moved_eq; [exact T5 | lia | lia | lia |].
    fold h. rewrite ?app_nil_r. cbn [app]. reflexivity.
  - congruence.
Qed.

(** What the creation phase has done when it throws for want of an
    iteration. *)
Lemma create_started_effect (w : World) :
  moved w (create_started w) 1 1 0 (gc_events (host w)) /\
  document (create_started w) = document w.
Proof.
  unfold create_started.
  destruct (step_maybeGC w) as (w0 & E0 & Mv0 & D0). rewrite E0. cbn [snd].
  destruct (step_readMemory w0) as (w1 & E1 & Mv1 & D1). rewrite E1. cbn [snd].
  destruct (step_now w1) as (w2 & E2 & Mv2 & D2). rewrite E2. cbn [snd].
  split; [| congruence].
  eapply moved_eq;
    [exact (moved_trans _ _ _ _ _ _ _ _ _ _ _
              (moved_trans _ _ _ _ _ _ _ _ _ _ _ Mv0 Mv1) Mv2)
    | lia | lia | lia |].
  rewrite !app_nil_r. reflexivity.
Qed.

Lemma filter_fresh_container (k : nat) (st : list (string * string))
    (l : list Container) :
  Forall (fun c => (cid c < k)%nat) l ->
  List.filter (fun c' => negb (Nat.eqb (cid c') k)) (l ++ [mkContainer k st]) = l.
Proof.
  intros Hall. induction Hall as [|c l Hc _ IH]; simpl.
  - rewrite Nat.eqb_refl. reflexivity.
  - replace (Nat.eqb (cid c) k) with false
      by (symmetry; apply Nat.eqb_neq; lia).
    simpl. rewrite IH. reflexivity.
Qed.

Lemma filter_fresh_root (k : nat) (rs : list (nat * option element)) :
  Forall (fun r => (fst r < k)%nat) rs ->
  List.filter (fun r => negb (Nat.eqb (fst r) k)) rs = rs.
Proof.
  intros Hall. induction Hall as [|r rs Hr _ IH]; simpl; [reflexivity |].
  replace (Nat.eqb (fst r) k) with false by (symmetry; apply Nat.eqb_neq; lia).
  simpl. rewrite IH. reflexivity.
Qed.

Lemma filter_all_false {A} (p : A -> bool) (l : list A) :
  Forall (fun x => p x = false) (List.filter (fun x => negb (p x)) l).
Proof.
  induction l as [|x l IH]; simpl; [constructor |].
  destruct (p x) eqn:E; simpl; [exact IH | constructor; assumption].
Qed.

(** ** The update phase and the document *)

(** X1: a successful update phase leaves no trace of its offscreen mount:
    with fresh identities, the body and the roots of the document are
    what they were before the run, one identity has been used, and no
    emotion style tag is left in the head. *)
Theorem runUpdateBatchKeepMounted_restores_document (cfg : Config)
    (name : BenchName) (impl : Impl) (propsLists : list (list PropSet))
    (loops : Z) (w : World) :
  propsLists <> [] ->
  loops + 1 <= Z.of_nat (length propsLists) ->
  fresh_ids (document w) ->
  exists r w',
    runUpdateBatchKeepMounted cfg name impl propsLists loops w = (Return r, w') /\
    body (document w') = body (document w) /\
    roots (document w') = roots (document w) /\
    created (document w') = S (created (document w)) /\
    fresh_ids (document w') /\
    Forall (fun el => is_emotion_css el = false) (head (document w')).
Proof.
  intros Hne Hlen [Hbody Hroots].
  destruct (update_phase_effect cfg name impl propsLists loops w Hne Hlen)
    as (w' & E & _ & Hc & Hb & Hr & Hh).
  assert (body (document w') = body (document w)) as Hb'.
  { rewrite Hb. apply filter_fresh_container. exact Hbody. }
  assert (roots (document w') = roots (document w)) as Hr'.
  { rewrite Hr. apply filter_fresh_root. exact Hroots. }
  eexists _, w'. split; [exact E |].
  split; [exact Hb' |]. split; [exact Hr' |]. split; [exact Hc |]. split.
  - unfold fresh_ids. rewrite Hb', Hr', Hc. split.
    + eapply Forall_impl; [exact Hbody | simpl; intros; lia].
    + eapply Forall_impl; [exact Hroots | simpl; intros; lia].
  - rewrite Hh. apply filter_all_false.
Qed.



(** The update phase with no props list at all, when the length check
    lets it through. *)
Lemma update_phase_no_warmup (cfg : Config) (name : BenchName) (impl : Impl)
    (loops : Z) (w : World) :
  loops <= -1 ->
  exists e w',
    runUpdateBatchKeepMounted cfg name impl [] loops w = (Throw (TypeError e), w') /\
    body (document w') = body (document w) ++ [offscreen (document w)] /\
    roots (document w') = (created (document w), None) :: roots (document w) /\
    renders (cursors w') = renders (cursors w) /\
    page w' = page w.
Proof.
  intros Hneg. unfold runUpdateBatchKeepMounted.
  replace (Z.of_nat (length (@nil (list PropSet))) <? loops + 1) with false
    by (symmetry; apply Z.ltb_ge; simpl; lia).
  eexists _, _. split; [reflexivity |]. repeat split; reflexivity.
Qed.

(** X4: called with an empty array and a loop count of -1 or less, the
    update phase passes the length check, attaches its offscreen
    container, creates the root, and then throws a TypeError on the
    missing warmup list before rendering anything; the container and the
    root stay in the document. *)
Theorem runUpdateBatchKeepMounted_no_lists_leaks (cfg : Config)
    (name : BenchName) (impl : Impl) (loops : Z) (w : World) :
  loops <= -1 ->
  exists e w',
    runUpdateBatchKeepMounted cfg name impl [] loops w = (Throw (TypeError e), w') /\
    body (document w') = body (document w) ++ [offscreen (document w)] /\
    roots (document w') = (created (document w), None) :: roots (document w) /\
    renders (cursors w') = renders (cursors w).
Proof.
  intros Hneg.
  destruct (update_phase_no_warmup cfg name impl loops w Hneg)
    as (e & w' & E & Hb & Hr & Hn & _).
  eauto 10.
Qed.

(** X5: the update phase returns a result exactly when it is given at
    least one props list and at least [loops + 1] of them. *)
Theorem runUpdateBatchKeepMounted_returns_iff (cfg : Config) (name : BenchName)
    (impl : Impl) (propsLists : list (list PropSet)) (loops : Z) (w : World) :
  (exists r w',
     runUpdateBatchKeepMounted cfg name impl propsLists loops w = (Return r, w'))
  <->
  propsLists <> [] /\ loops + 1 <= Z.of_nat (length propsLists).
Proof.
  split.
  - intros (r & w' & E).
    destruct (Z_lt_ge_dec (Z.of_nat (length propsLists)) (loops + 1)) as [Hlt | Hge].
    + unfold runUpdateBatchKeepMounted in E.
      apply Z.ltb_lt in Hlt. rewrite Hlt in E. discriminate E.
    + split; [| lia]. intros ->.
      destruct (update_phase_no_warmup cfg name impl loops w) as (e & w1 & E1 & _).
      { simpl in Hge. lia. }
      rewrite E1 in E. discriminate E.
  - intros [Hne Hlen].
    destruct (update_phase_effect cfg name impl propsLists loops w Hne Hlen)
      as (w' & E & _).
    eauto.
Qed.

(** ** The creation phase *)

(** X6: the creation phase never mounts: whether it returns or throws,
    it leaves the document, the render count, the random source and the
    component state as they were. *)
Theorem runCreateOnlyForest_never_mounts (cfg : Config) (name : BenchName)
    (impl : Impl) (propsList : list PropSet) (iterations : Z) (w : World) :
  let w' := snd (runCreateOnlyForest cfg name impl propsList iterations w) in
  document w' = document w /\
  renders (cursors w') = renders (cursors w) /\
  random_draws (cursors w') = random_draws (cursors w) /\
  page w' = page w.
Proof.
  destruct (Z_le_gt_dec iterations 0) as [Hle | Hgt].
  - destruct (runCreateOnlyForest_rejects cfg name impl propsList iterations w Hle)
      as [_ E].
    rewrite E. cbn [snd].
    destruct (create_started_effect w) as [[_ Hp Hr _ _ Hn _] Hd].
    repeat split; [exact Hd | lia | exact Hr | exact Hp].
  - destruct (create_phase_effect cfg name impl propsList iterations w)
      as (w' & E & [_ Hp Hr _ _ Hn _] & Hd); [lia |].
    rewrite E. cbn [snd].
    repeat split; [exact Hd | lia | exact Hr | exact Hp].
Qed.


(** ** Prop generation reads the random source and nothing else *)

Lemma after_draws_add (k1 k2 : nat) (w : World) :
  after_draws k2 (after_draws k1 w) = after_draws (k1 + k2) w.
Proof.
  unfold after_draws. rewrite (Nat.add_comm k1 k2). symmetry. apply Nat.iter_add.
Qed.

Lemma after_draws_fields (k : nat) (w : World) :
  host (after_draws k w) = host w /\
  page (after_draws k w) = page w /\
  log (after_draws k w) = log w /\
  document (after_draws k w) = document w /\
  clock_reads (cursors (after_draws k w)) = clock_reads (cursors w) /\
  memory_reads (cursors (after_draws k w)) = memory_reads (cursors w) /\
  renders (cursors (after_draws k w)) = renders (cursors w) /\
  random_draws (cursors (after_draws k w)) = (random_draws (cursors w) + k)%nat.
Proof.
  unfold after_draws. induction k as [|k IH]; simpl.
  - repeat split; lia.
  - destruct IH as (Hh & Hp & Hl & Hd & Hc & Hm & Hr & Hx).
    repeat split; try assumption. rewrite Hx. lia.
Qed.

Lemma generates_ret {A} (P : A -> Prop) (a : A) : P a -> generates 0 P (ret a).
Proof. intros H w. exists a. split; [reflexivity | exact H]. Qed.

Lemma generates_bind {A B} (k1 k2 : nat) (P : A -> Prop) (Q : B -> Prop)
    (m : M A) (f : A -> M B) :
  generates k1 P m -> (forall a, P a -> generates k2 Q (f a)) ->
  generates (k1 + k2) Q (bind m f).
Proof.
  intros Hm Hf w. destruct (Hm w) as (a & E1 & Pa).
  destruct (Hf a Pa (after_draws k1 w)) as (b & E2 & Qb).
  exists b. rewrite (bind_Return _ _ _ _ _ E1), E2, after_draws_add.
  split; [reflexivity | exact Qb].
Qed.

Lemma generates_pick (arr : list jsval) : generates 1 (fun _ => True) (pick arr).
Proof. intros w. eexists. split; [reflexivity | exact I]. Qed.

Lemma generates_maybe (v : jsval) (p : Q) : generates 1 (fun _ => True) (maybe v p).
Proof. intros w. eexists. split; [reflexivity | exact I]. Qed.

Lemma generates_buildRandomProps : generates 12 (fun _ => True) buildRandomProps.
Proof.
  unfold buildRandomProps.
  repeat match goal with
         | |- generates _ _ (bind (pick ?arr) _) =>
             apply (generates_bind 1 _ (fun _ => True) (fun _ => True) (pick arr));
             [apply generates_pick | intros ? _; cbv zeta]
         | |- generates _ _ (bind (maybe ?v ?p) _) =>
             apply (generates_bind 1 _ (fun _ => True) (fun _ => True) (maybe v p));
             [apply generates_maybe | intros ? _; cbv zeta]
         end.
  apply generates_ret. exact I.
Qed.

Lemma generates_for_loop_push {A} (k : nat) (g : M A) :
  generates k (fun _ => True) g ->
  forall (n : nat) (i : Z) (acc : list A),
    generates (n * k) (fun l => length l = (length acc + n)%nat)
      (for_loop n i (fun _ list => p <- g ;; ret (list ++ [p])) acc).
Proof.
  intros Hg n. induction n as [|n IH]; intros i acc; simpl.
  - apply generates_ret. lia.
  - apply (generates_bind k _ (fun l => length l = S (length acc))).
    + replace k with (k + 0)%nat at 1 by lia.
      apply (generates_bind k 0 (fun _ => True)); [exact Hg |].
      intros p _. apply generates_ret. rewrite length_app. simpl. lia.
    + intros l Hl w. destruct (IH (i + 1) l w) as (l' & E & Hlen).
      exists l'. split; [exact E | lia].
Qed.

Lemma generates_buildPropsList (cfg : Config) :
  generates (draws_per_list cfg)
    (fun l => length l = Z.to_nat (flexboxCount cfg)) (buildPropsList cfg).
Proof.
  unfold buildPropsList, for_upto, draws_per_list.
  destruct (randomPropsEnabled cfg).
  - rewrite Nat.mul_comm.
    apply (generates_for_loop_push 12 buildRandomProps generates_buildRandomProps
             (Z.to_nat (flexboxCount cfg)) 0 []).
  - replace 0%nat with (Z.to_nat (flexboxCount cfg) * 0)%nat by lia.
    apply (generates_for_loop_push 0 (ret buildFixedProps)
             (generates_ret _ _ I) (Z.to_nat (flexboxCount cfg)) 0 []).
Qed.

Lemma generates_repeatM {A} (k : nat) (P : A -> Prop) (f : M A) :
  generates k P f ->
  forall n : nat,
    generates (n * k) (fun ls => length ls = n /\ Forall P ls) (repeatM n f).
Proof.
  intros Hf n. induction n as [|n IH]; simpl.
  - apply generates_ret. split; [reflexivity | constructor].
  - apply (generates_bind k _ P); [exact Hf | intros x Px].
    replace (n * k)%nat with (n * k + 0)%nat by lia.
    apply (generates_bind _ 0 (fun ls => length ls = n /\ Forall P ls)); [exact IH |].
    intros xs [Hlen Hall]. apply generates_ret. split; [simpl; lia |].
    constructor; assumption.
Qed.

(** X8: in either mode [buildPropsList] returns a list of
    [flexboxCount] PropSets (none for a count of zero or less) and does
    nothing but read the random source, twelve times per PropSet in
    random mode and never in fixed mode: it reads no clock, waits for no
    frame and does not touch the document or the component state. *)
Theorem buildPropsList_only_draws (cfg : Config) (w : World) :
  exists l,
    buildPropsList cfg w = (Return l, after_draws (draws_per_list cfg) w) /\
    length l = Z.to_nat (flexboxCount cfg) /\
    draws_per_list cfg =
      (if randomPropsEnabled cfg then 12 * Z.to_nat (flexboxCount cfg) else 0)%nat /\
    host (after_draws (draws_per_list cfg) w) = host w /\
    page (after_draws (draws_per_list cfg) w) = page w /\
    log (after_draws (draws_per_list cfg) w) = log w /\
    document (after_draws (draws_per_list cfg) w) = document w /\
    clock_reads (cursors (after_draws (draws_per_list cfg) w)) =
      clock_reads (cursors w) /\
    random_draws (cursors (after_draws (draws_per_list cfg) w)) =
      (random_draws (cursors w) + draws_per_list cfg)%nat.
Proof.
  destruct (generates_buildPropsList cfg w) as (l & E & Hlen).
  destruct (after_draws_fields (draws_per_list cfg) w)
    as (Hh & Hp & Hl & Hd & Hc & _ & _ & Hx).
  exists l. repeat split; assumption || reflexivity.
Qed.

(** ** The driver, step by step *)

Lemma find_case (name : BenchName) :
  match List.find (fun x => String.eqb (fst x) name) cases with
  | Some c => fst c = name /\ name ∈ case_names
  | None => name ∉ case_names
  end.
Proof.
  assert (case_names =
          ["local(FlexBasic)"; "native(WebComponent)"; "react-layout-kit(Flexbox)"])
    as -> by reflexivity.
  unfold cases. cbn [List.find fst].
  destruct (String.eqb "local(FlexBasic)" name) eqn:E1.
  { apply String.eqb_eq in E1. subst. split; [reflexivity | set_solver]. }
  destruct (String.eqb "native(WebComponent)" name) eqn:E2.
  { apply String.eqb_eq in E2. subst. split; [reflexivity | set_solver]. }
  destruct (String.eqb "react-layout-kit(Flexbox)" name) eqn:E3.
  { apply String.eqb_eq in E3. subst. split; [reflexivity | set_solver]. }
  apply String.eqb_neq in E1, E2, E3.
  rewrite !elem_of_cons, elem_of_nil. intuition congruence.
Qed.

(** [runOne] in terms of its [try] block. *)
Lemma runOne_of_try (cfg : Config) (name : BenchName) (w : World) :
  runOne cfg name w =
  match runOne_try cfg name (started w) with
  | (Return _, w1) =>
      (Return tt, with_page (fun p => mkPage false (results p) (error p)) w1)
  | (Throw e, w1) =>
      (Return tt,
       with_page (fun p => mkPage false (results p) (Some (message e))) w1)
  end.
Proof.
  unfold runOne, bind, setError, setRunning, modify, try_catch_finally.
  change (with_page (fun p => mkPage true (results p) (error p))
            (with_page (fun p => mkPage (running p) (results p) None) w))
    with (started w).
  destruct (runOne_try cfg name (started w)) as [[[]|e] w1]; reflexivity.
Qed.

(** All that the [try] block does when the case is registered, there is
    at least one creation iteration and the loop count is not negative. *)
Lemma runOne_try_effect (cfg : Config) (name : BenchName) (w : World) :
  name ∈ case_names ->
  1 <= createIterations cfg ->
  0 <= mountLoops cfg ->
  exists propsList w',
    runOne_try cfg name w = (Return tt, w') /\
    host w' = host w /\
    page w' = mkPage (running (page w))
                     (Some (upsert (expected_result cfg name w) (results (page w))))
                     (error (page w)) /\
    log w' =
      log w ++ run_events cfg (host w) ++
      [EvConsoleTable [console_row cfg propsList (expected_result cfg name w)]] /\
    length propsList = Z.to_nat (flexboxCount cfg) /\
    random_draws (cursors w') =
      (random_draws (cursors w) +
       (1 + Z.to_nat (mountLoops cfg + 1)) * draws_per_list cfg)%nat /\
    created (document w') = S (created (document w)) /\
    body (document w') =
      List.filter (fun c' => negb (Nat.eqb (cid c') (created (document w))))
                  (body (document w) ++ [offscreen (document w)]) /\
    roots (document w') =
      List.filter (fun r => negb (Nat.eqb (fst r) (created (document w))))
                  (roots (document w)) /\
    head (document w') =
      List.filter (fun el => negb (is_emotion_css el))
        (head (document w) ++
         injected_by (host w) (renders (cursors w)) (S (Z.to_nat (mountLoops cfg)))).
Proof.
  intros Hknown Hit Hloops. unfold runOne_try.
  run_step (step_raf w).
  pose proof (find_case name) as Hfind.
  destruct (List.find _ cases) as [c|]; [| contradiction].
  destruct Hfind as [Hc _].
  erewrite bind_Return by reflexivity.
  destruct (generates_buildPropsList cfg w0) as (propsList & E1 & Hlen1).
  rewrite (bind_Return _ _ _ _ _ E1). clear E1.
  set (w1 := after_draws (draws_per_list cfg) w0).
  destruct (generates_repeatM _ _ _ (generates_buildPropsList cfg)
              (Z.to_nat (mountLoops cfg + 1)) w1) as (pls & E2 & Hlen2 & _).
  unfold propsListsForUpdate, array_from.
  rewrite (bind_Return _ _ _ _ _ E2). clear E2.
  set (w2 := after_draws (Z.to_nat (mountLoops cfg + 1) * draws_per_list cfg) w1).
  destruct (create_phase_effect cfg (fst c) (snd c) propsList
              (createIterations cfg) w2 Hit) as (w3 & E3 & Mv3 & D3).
  rewrite (bind_Return _ _ _ _ _ E3). clear E3.
  destruct (update_phase_effect cfg (fst c) (snd c) pls (mountLoops cfg) w3)
    as (w4 & E4 & Mv4 & Hcr & Hbo & Hro & Hhe).
  { intros ->. simpl in Hlen2. lia. }
  { lia. }
  rewrite (bind_Return _ _ _ _ _ E4). clear E4.
  destruct (after_draws_fields (draws_per_list cfg) w0)
    as (Gh1 & Gp1 & Gl1 & Gd1 & Gc1 & Gm1 & Gr1 & Gx1).
  destruct (after_draws_fields (Z.to_nat (mountLoops cfg + 1) * draws_per_list cfg) w1)
    as (Gh2 & Gp2 & Gl2 & Gd2 & Gc2 & Gm2 & Gr2 & Gx2).
  fold w1 in Gh1, Gp1, Gl1, Gd1, Gc1, Gm1, Gr1, Gx1.
  fold w2 in Gh2, Gp2, Gl2, Gd2, Gc2, Gm2, Gr2, Gx2.
  destruct Mv as [Ah Ap Ax Ac Am Ar Al].
  destruct Mv3 as [Bh Bp Bx Bc Bm Br Bl].
  destruct Mv4 as [Ch Cp Cx Cc Cm Cr Cl].
  assert (host w2 = host w) as Hh2 by congruence.
  assert (host w3 = host w) as Hh3 by congruence.
  assert (clock_reads (cursors w2) = clock_reads (cursors w)) as Hc2 by lia.
  assert (memory_reads (cursors w2) = memory_reads (cursors w)) as Hm2 by lia.
  assert (renders (cursors w2) = renders (cursors w)) as Hr2 by lia.
  assert (merge (fst c) 
            (Create.mkResult (fst c)
               (Num.sub (Fin (performance_now (host w2) (S (clock_reads (cursors w2)))))
                        (Fin (performance_now (host w2) (clock_reads (cursors w2)))))
               (Num.div
                  (Num.sub (Fin (performance_now (host w2) (S (clock_reads (cursors w2)))))
                           (Fin (performance_now (host w2) (clock_reads (cursors w2)))))
                  (Num.of_Z (createIterations cfg)))
               (Create.mkMemory (memory_at (host w2) (memory_reads (cursors w2)))
                                (memory_at (host w2) (S (memory_reads (cursors w2))))))
            (Update.mkResult (fst c)
               (wall_total (host w3) (clock_reads (cursors w3) + 2)
                  (Z.to_nat (mountLoops cfg)))
               (Num.div
                  (wall_total (host w3) (clock_reads (cursors w3) + 2)
                     (Z.to_nat (mountLoops cfg)))
                  (Num.of_Z (mountLoops cfg)))
               (actual_total (host w3) (S (renders (cursors w3)))
                  (Z.to_nat (mountLoops cfg)))
               (Update.mkMemory (memory_at (host w3) (memory_reads (cursors w3)))
                                (memory_at (host w3) (S (memory_reads (cursors w3)))))) =
          expected_result cfg name w) as Hmerged.
  { unfold merge, expected_result. cbn.
    rewrite Hh2, Hh3, Hc2, Hm2, Bc, Bm, Br, Hc2, Hm2, Hr2, Hc.
    replace (clock_reads (cursors w) + 2 + 2)%nat
      with (clock_reads (cursors w) + 4)%nat by lia.
    replace (memory_reads (cursors w) + 2)%nat
      with (S (S (memory_reads (cursors w)))) by lia.
    replace (renders (cursors w) + 0)%nat with (renders (cursors w)) by lia.
    reflexivity. }
  rewrite Hmerged.
  exists propsList. eexists. split; [reflexivity |].
  cbn [host page log document cursors with_page with_log random_draws
       upsertResult setResults modify log_event bind fst snd].
  split; [congruence |].
  split.
  { rewrite Cp, Bp, Gp2, Gp1, Ap. reflexivity. }
  split.
  { rewrite Cl, Bl, Gl2, Gl1, Al, Hh3, Hh2.
    unfold run_events. rewrite <- !app_assoc. reflexivity. }
  split; [exact Hlen1 |].
  split.
  { rewrite Cx, Bx, Gx2, Gx1, Ax. lia. }
  rewrite D3, Gd2, Gd1, D in Hcr, Hbo, Hro, Hhe.
  rewrite Bh, Hh2 in Hhe.
  replace (renders (cursors w3)) with (renders (cursors w)) in Hhe by lia.
  auto.
Qed.

(** The [try] block with an unregistered name. *)
Lemma runOne_try_unknown (cfg : Config) (name : BenchName) (w : World) :
  name ∉ case_names ->
  runOne_try cfg name w =
    (Throw (Error ("Unknown case: " +:+ name)), with_log (fun l => l ++ [EvFrame]) w).
Proof.
  intros Hunknown. unfold runOne_try.
  pose proof (find_case name) as Hfind.
  destruct (List.find _ cases) as [c|]; [destruct Hfind; contradiction |].
  reflexivity.
Qed.

(** The [try] block with a registered name and no creation iteration. *)
Lemma runOne_try_no_iterations (cfg : Config) (name : BenchName) (w : World) :
  name ∈ case_names ->
  createIterations cfg <= 0 ->
  exists w',
    runOne_try cfg name w = (Throw (Error "create-only sanity check failed"), w') /\
    page w' = page w /\
    document w' = document w /\
    renders (cursors w') = renders (cursors w) /\
    log w' = log w ++ [EvFrame] ++ gc_events (host w).
Proof.
  intros Hknown Hit. unfold runOne_try.
  run_step (step_raf w).
  pose proof (find_case name) as Hfind.
  destruct (List.find _ cases) as [c|]; [| contradiction].
  erewrite bind_Return by reflexivity.
  destruct (generates_buildPropsList cfg w0) as (propsList & E1 & _).
  rewrite (bind_Return _ _ _ _ _ E1). clear E1.
  set (w1 := after_draws (draws_per_list cfg) w0).
  destruct (generates_repeatM _ _ _ (generates_buildPropsList cfg)
              (Z.to_nat (mountLoops cfg + 1)) w1) as (pls & E2 & _).
  unfold propsListsForUpdate, array_from.
  rewrite (bind_Return _ _ _ _ _ E2). clear E2.
  set (w2 := after_draws (Z.to_nat (mountLoops cfg + 1) * draws_per_list cfg) w1).
  destruct (runCreateOnlyForest_rejects cfg (fst c) (snd c) propsList
              (createIterations cfg) w2 Hit) as [_ E3].
  unfold bind at 1. rewrite E3.
  destruct (create_started_effect w2) as [[Bh Bp _ _ _ Br Bl] Bd].
  destruct (after_draws_fields (draws_per_list cfg) w0)
    as (Gh1 & Gp1 & Gl1 & Gd1 & _ & _ & Gr1 & _).
  destruct (after_draws_fields (Z.to_nat (mountLoops cfg + 1) * draws_per_list cfg) w1)
    as (Gh2 & Gp2 & Gl2 & Gd2 & _ & _ & Gr2 & _).
  fold w1 in Gh1, Gp1, Gl1, Gd1, Gr1. fold w2 in Gh2, Gp2, Gl2, Gd2, Gr2.
  destruct Mv as [Ah Ap _ _ _ Ar Al].
  eexists. split; [reflexivity |].
  split; [congruence |]. split; [congruence |]. split; [lia |].
  rewrite Bl, Gl2, Gl1, Al, Gh2, Gh1, Ah, <- app_assoc. reflexivity.
Qed.

(** The [try] block with a registered name, at least one creation
    iteration and a negative loop count. *)
Lemma runOne_try_negative_loops (cfg : Config) (name : BenchName) (w : World) :
  name ∈ case_names ->
  1 <= createIterations cfg ->
  mountLoops cfg <= -1 ->
  exists e w',
    runOne_try cfg name w = (Throw (TypeError e), w') /\
    page w' = page w /\
    body (document w') = body (document w) ++ [offscreen (document w)] /\
    roots (document w') = (created (document w), None) :: roots (document w) /\
    renders (cursors w') = renders (cursors w).
Proof.
  intros Hknown Hit Hloops. unfold runOne_try.
  run_step (step_raf w).
  pose proof (find_case name) as Hfind.
  destruct (List.find _ cases) as [c|]; [| contradiction].
  erewrite bind_Return by reflexivity.
  destruct (generates_buildPropsList cfg w0) as (propsList & E1 & _).
  rewrite (bind_Return _ _ _ _ _ E1). clear E1.
  set (w1 := after_draws (draws_per_list cfg) w0).
  unfold propsListsForUpdate, array_from.
  replace (Z.to_nat (mountLoops cfg + 1)) with 0%nat by lia.
  cbn [repeatM]. erewrite bind_Return by reflexivity.
  destruct (create_phase_effect cfg (fst c) (snd c) propsList
              (createIterations cfg) w1 Hit) as (w2 & E3 & [Bh Bp _ _ _ Br _] & Bd).
  rewrite (bind_Return _ _ _ _ _ E3). clear E3.
  destruct (update_phase_no_warmup cfg (fst c) (snd c) (mountLoops cfg) w2 Hloops)
    as (e & w3 & E4 & Hb & Hr & Hn & Hp).
  unfold bind at 1. rewrite E4.
  destruct (after_draws_fields (draws_per_list cfg) w0)
    as (Gh1 & Gp1 & Gl1 & Gd1 & _ & _ & Gr1 & _).
  fold w1 in Gh1, Gp1, Gl1, Gd1, Gr1.
  destruct Mv as [Ah Ap _ _ _ Ar Al].
  exists e, w3. split; [reflexivity |].
  split; [congruence |].
  rewrite Bd, Gd1, D in Hb, Hr.
  split; [exact Hb |]. split; [exact Hr |]. lia.
Qed.

(** ** The driver, case by case *)

(** X9: a run of a registered case with at least one creation iteration
    and a loop count of zero or more succeeds: the running flag is
    cleared, no error is stored, and the store receives by upsert the
    result whose creation total is the difference of the first two clock
    readings, whose update total is the sum over the measured renders,
    whose per-operation times are the totals divided by the counts and
    whose memory samples are the first four heap readings of the run. *)
Theorem runOne_success_stores_result (cfg : Config) (name : BenchName)
    (w : World) :
  name ∈ case_names ->
  1 <= createIterations cfg ->
  0 <= mountLoops cfg ->
  exists w',
    runOne cfg name w = (Return tt, w') /\
    page w' =
      mkPage false
        (Some (upsert (expected_result cfg name w) (results (page w)))) None /\
    name ∈ names (results (page w')).
Proof.
  intros Hknown Hit Hloops.
  destruct (runOne_try_effect cfg name (started w) Hknown Hit Hloops)
    as (propsList & w1 & E & _ & Hp & _).
  rewrite runOne_of_try, E.
  eexists. split; [reflexivity |]. cbn [page with_page]. rewrite Hp.
  cbn [running results error page started with_page].
  change (expected_result cfg name (started w)) with (expected_result cfg name w).
  split; [reflexivity |].
  unfold names. cbn [default].
  rewrite upsert_replace_or_append.
  apply replace_or_append_names. left. reflexivity.
Qed.


(** X11: a successful run leaves the document as it found it: with
    fresh identities, the body and the roots are unchanged, identities
    stay fresh, and no emotion style tag remains in the head, so that
    runs do not pile up containers, roots or emotion styles. *)
Theorem runOne_success_restores_document (cfg : Config) (name : BenchName)
    (w : World) :
  name ∈ case_names ->
  1 <= createIterations cfg ->
  0 <= mountLoops cfg ->
  fresh_ids (document w) ->
  let w' := snd (runOne cfg name w) in
  body (document w') = body (document w) /\
  roots (document w') = roots (document w) /\
  fresh_ids (document w') /\
  Forall (fun el => is_emotion_css el = false) (head (document w')).
Proof.
  intros Hknown Hit Hloops [Hbody Hroots].
  destruct (runOne_try_effect cfg name (started w) Hknown Hit Hloops)
    as (propsList & w1 & E & _ & _ & _ & _ & _ & Hc & Hb & Hr & Hh).
  rewrite runOne_of_try, E. cbn [snd document with_page].
  cbn [started document with_page] in Hc, Hb, Hr, Hh.
  assert (body (document w1) = body (document w)) as Hb'.
  { rewrite Hb. apply filter_fresh_container. exact Hbody. }
  assert (roots (document w1) = roots (document w)) as Hr'.
  { rewrite Hr. apply filter_fresh_root. exact Hroots. }
  split; [exact Hb' |]. split; [exact Hr' |]. split.
  - unfold fresh_ids. rewrite Hb', Hr', Hc. split.
    + eapply Forall_impl; [exact Hbody | simpl; intros; lia].
    + eapply Forall_impl; [exact Hroots | simpl; intros; lia].
  - rewrite Hh. apply filter_all_false.
Qed.

(** X12: a run of an unregistered name fails right after the warmup
    frame: the error reads "Unknown case: " followed by the name, and
    nothing else has happened: no props generated, no clock or heap
    reading, no change to the document or the results. *)
Theorem runOne_unknown_case_fails_first (cfg : Config) (name : BenchName)
    (w : World) :
  name ∉ case_names ->
  runOne cfg name w =
    (Return tt,
     mkWorld (host w) (cursors w) (log w ++ [EvFrame]) (document w)
             (mkPage false (results (page w)) (Some ("Unknown case: " +:+ name)))).
Proof.
  intros Hunknown.
  rewrite runOne_of_try, (runOne_try_unknown cfg name (started w) Hunknown).
  reflexivity.
Qed.

(** X13: a run of a registered case with no creation iteration stores
    the sanity check message, leaves the results and the document as they
    were and renders nothing: the update phase is not reached. *)
Theorem runOne_no_iterations_fails (cfg : Config) (name : BenchName)
    (w : World) :
  name ∈ case_names ->
  createIterations cfg <= 0 ->
  let w' := snd (runOne cfg name w) in
  page w' = mkPage false (results (page w))
                   (Some "create-only sanity check failed") /\
  document w' = document w /\
  renders (cursors w') = renders (cursors w) /\
  log w' = log w ++ [EvFrame] ++ gc_events (host w).
Proof.
  intros Hknown Hit.
  destruct (runOne_try_no_iterations cfg name (started w) Hknown Hit)
    as (w1 & E & Hp & Hd & Hr & Hl).
  rewrite runOne_of_try, E. cbn [snd page document cursors log with_page message].
  rewrite Hp. repeat split; assumption.
Qed.

(** X14: a run of a registered case with at least one creation
    iteration and a negative loop count builds no props list for the
    update phase, which then throws a TypeError after attaching its
    container: the message is stored, the results are unchanged, and the
    offscreen container and its root stay in the document. *)
Theorem runOne_negative_loops_leaks (cfg : Config) (name : BenchName)
    (w : World) :
  name ∈ case_names ->
  1 <= createIterations cfg ->
  mountLoops cfg <= -1 ->
  let w' := snd (runOne cfg name w) in
  running (page w') = false /\
  results (page w') = results (page w) /\
  is_Some (error (page w')) /\
  body (document w') = body (document w) ++ [offscreen (document w)] /\
  roots (document w') = (created (document w), None) :: roots (document w).
Proof.
  intros Hknown Hit Hloops.
  destruct (runOne_try_negative_loops cfg name (started w) Hknown Hit Hloops)
    as (e & w1 & E & Hp & Hb & Hr & _).
  rewrite runOne_of_try, E. cbn [snd page document with_page].
  rewrite Hp. cbn [started page with_page running results error].
  repeat split; try assumption. eexists. reflexivity.
Qed.

(** ** The result store under the page's buttons *)

(** What any run does to the component state. *)
Lemma runOne_store (cfg : Config) (name : BenchName) (w : World) :
  exists w',
    runOne cfg name w = (Return tt, w') /\
    running (page w') = false /\
    (results (page w') = results (page w) \/
     (name ∈ case_names /\
      results (page w') =
        Some (upsert (expected_result cfg name w) (results (page w))))).
Proof.
  destruct (decide (name ∈ case_names)) as [Hknown | Hunknown].
  - destruct (Z_le_gt_dec (createIterations cfg) 0) as [Hle | Hgt].
    + destruct (runOne_try_no_iterations cfg name (started w) Hknown Hle)
        as (w1 & E & Hp & _).
      rewrite runOne_of_try, E. eexists. split; [reflexivity |].
      cbn [page with_page running results]. rewrite Hp.
      split; [reflexivity | left; reflexivity].
    + destruct (Z_le_gt_dec 0 (mountLoops cfg)) as [Hloops | Hneg].
      * destruct (runOne_try_effect cfg name (started w) Hknown) as
          (propsList & w1 & E & _ & Hp & _); [lia | lia |].
        rewrite runOne_of_try, E. eexists. split; [reflexivity |].
        cbn [page with_page running results]. rewrite Hp.
        split; [reflexivity |]. right. split; [exact Hknown | reflexivity].
      * destruct (runOne_try_negative_loops cfg name (started w) Hknown)
          as (e & w1 & E & Hp & _); [lia | lia |].
        rewrite runOne_of_try, E. eexists. split; [reflexivity |].
        cbn [page with_page running results]. rewrite Hp.
        split; [reflexivity | left; reflexivity].
  - rewrite runOne_of_try, (runOne_try_unknown cfg name (started w) Hunknown).
    eexists. split; [reflexivity |].
    split; [reflexivity | left; reflexivity].
Qed.

Lemma store_ok_upsert (r : CaseResult) (s : option (list CaseResult)) :
  name r ∈ case_names -> store_ok s -> store_ok (Some (upsert r s)).
Proof.
  intros Hr [Hnd Hsub]. unfold store_ok, names in *. cbn [default].
  rewrite upsert_replace_or_append. split.
  - apply replace_or_append_NoDup. exact Hnd.
  - intros n Hn. apply replace_or_append_names in Hn as [-> | Hn]; auto.
Qed.

Lemma store_ok_size (s : option (list CaseResult)) :
  store_ok s -> (length (default [] s) <= 3)%nat.
Proof.
  intros [Hnd Hsub].
  assert (names s ⊆+ case_names) as Hsm by (apply NoDup_submseteq; assumption).
  apply submseteq_length in Hsm.
  unfold names in Hsm. rewrite length_fmap in Hsm. exact Hsm.
Qed.

Lemma click_store (cfg : Config) (b : Button) (w : World) :
  store_ok (results (page w)) ->
  exists w',
    click cfg b w = (Return tt, w') /\
    store_ok (results (page w')) /\
    running (page w') = running (page w).
Proof.
  intros Hok. unfold click, bind at 1, get.
  destruct (running (page w)) eqn:Hrun.
  - exists w. split; [reflexivity |]. split; [exact Hok | exact Hrun].
  - assert (forall name, exists w',
              runOne cfg name w = (Return tt, w') /\
              store_ok (results (page w')) /\ running (page w') = false) as Hrun1.
    { intros name.
      destruct (runOne_store cfg name w) as (w' & E & Hr & [Hsame | [Hk Hup]]).
      - exists w'. rewrite Hsame. auto.
      - exists w'. rewrite Hup. split; [exact E |]. split; [| exact Hr].
        apply store_ok_upsert; [exact Hk | exact Hok]. }
    destruct b; try apply Hrun1.
    eexists. split; [reflexivity |]. cbn [page with_page results running].
    split; [| exact Hrun].
    split; [apply NoDup_nil_2 | intros n Hn; inversion Hn].
Qed.

Lemma store_ok_empty : store_ok None.
Proof. split; [apply NoDup_nil_2 | intros n Hn; inversion Hn]. Qed.

(** The store invariant and the idle flag, over any sequence of clicks. *)
Lemma clicks_store (l : list (Config * Button)) :
  forall w : World,
    running (page w) = false ->
    store_ok (results (page w)) ->
    exists w',
      clicks l w = (Return tt, w') /\
      running (page w') = false /\
      store_ok (results (page w')).
Proof.
  induction l as [|[cfg b] l IH]; intros w Hrun Hok; cbn [clicks].
  - exists w. split; [reflexivity |]. split; assumption.
  - destruct (click_store cfg b w Hok) as (w1 & E & Hok1 & Hrun1).
    rewrite (bind_Return _ _ _ _ _ E).
    apply IH; [congruence | exact Hok1].
Qed.

(** X15: whatever buttons are clicked, with whatever settings, from a
    page with an empty result store: no click throws, no run is left in
    flight, and the store holds one row per case name, only names of
    registered cases, hence at most three rows. *)
Theorem clicks_keep_store (l : list (Config * Button)) (w : World) :
  results (page w) = None ->
  running (page w) = false ->
  exists w',
    clicks l w = (Return tt, w') /\
    running (page w') = false /\
    NoDup (names (results (page w'))) /\
    (forall n, n ∈ names (results (page w')) -> n ∈ case_names) /\
    (length (default [] (results (page w'))) <= 3)%nat.
Proof.
  intros Hnone Hrun.
  destruct (clicks_store l w Hrun) as (w' & E & Hrun' & Hok).
  { rewrite Hnone. apply store_ok_empty. }
  exists w'. split; [exact E |]. split; [exact Hrun' |].
  pose proof (store_ok_size _ Hok) as Hsize.
  destruct Hok as [Hnd Hsub]. auto.
Qed.

(** X29: after any clicks from an empty store, the results table, when
    it is rendered, has one row per stored result, in store order, each
    with eight cells, and the React keys of its rows are pairwise
    distinct; no table is rendered exactly when the store is [null]. *)
Theorem render_table_rows (l : list (Config * Button)) (w : World) :
  results (page w) = None ->
  running (page w) = false ->
  exists w',
    clicks l w = (Return tt, w') /\
    match render_table (results (page w')) with
    | None => results (page w') = None
    | Some rows =>
        fst <$> rows = names (results (page w')) /\
        NoDup (fst <$> rows) /\
        Forall (fun row => length (snd row) = 8%nat) rows
    end.
Proof.
  intros Hnone Hrun.
  destruct (clicks_store l w Hrun) as (w' & E & _ & [Hnd _]).
  { rewrite Hnone. apply store_ok_empty. }
  exists w'. split; [exact E |].
  unfold render_table, names in *.
  destruct (results (page w')) as [rs|]; cbn in *; [| reflexivity].
  assert (fst <$> List.map table_row rs = name <$> rs) as Hkeys.
  { clear. induction rs as [|r rs IH]; cbn; [reflexivity | f_equal; exact IH]. }
  split; [exact Hkeys |]. split; [rewrite Hkeys; exact Hnd |].
  clear. induction rs as [|r rs IH]; cbn; constructor; [reflexivity | exact IH].
Qed.

(** ** The prop generator, draw by draw *)




Lemma pick_run (arr : list jsval) (w : World) :
  unit_interval_source (host w) -> arr <> [] ->
  Z.of_nat (length arr) < 2 ^ 32 ->
  exists v,
    pick arr w = (Return v, after_draws 1 w) /\
    bucket arr (nth_draw w 0) = Some v.
Proof.
  intros Hsrc Hne Hlen.
  destruct (Hsrc (random_draws (cursors w))) as [Hd Hr].
  rewrite pick_scaled by (apply scaled_small; assumption). cbv zeta.
  unfold bucket, scaled, nth_draw. rewrite Nat.add_0_r.
  set (r := math_random (host w) (random_draws (cursors w))) in *.
  destruct (floor_scaled_in_range r (length arr) Hd Hr) as [Hlo Hhi].
  { destruct arr; [congruence | simpl; lia]. }
  unfold js_index.
  replace (Qfloor (Double.round (r * inject_Z (Z.of_nat (length arr)))) <? 0)
    with false by (symmetry; apply Z.ltb_ge; exact Hlo).
  destruct (lookup_lt_is_Some_2 arr
              (Z.to_nat (Qfloor (Double.round
                                   (r * inject_Z (Z.of_nat (length arr)))))))
    as [v Hv]; [lia |].
  exists v. rewrite Hv. split; reflexivity.
Qed.


(** The draw nearest to 4/7 and the seven alignments: the exact product
    is below 4 and the rounded product is 4, so [pick] returns the entry
    at index 4, not the one at index 3. *)
Example pick_rounds_up :
  Qfloor (nth_draw rounding_world 0 * inject_Z (Z.of_nat (length aligns))) = 3 /\
  (scaled aligns (nth_draw rounding_world 0) == 4)%Q /\
  pick aligns rounding_world =
    (Return (VStr "start"), after_draws 1 rounding_world).
Proof. split; [| split]; vm_compute; reflexivity. Qed.

Lemma maybe_run (value : jsval) (p : Q) (w : World) :
  maybe value p w =
    (Return (if Qlt_le_dec (nth_draw w 0) p then value else VUndef),
     after_draws 1 w).
Proof.
  unfold maybe, bind, random, ret, nth_draw. rewrite Nat.add_0_r. reflexivity.
Qed.

Lemma nth_draw_after (k j : nat) (w : World) :
  nth_draw (after_draws k w) j = nth_draw w (k + j).
Proof.
  unfold nth_draw.
  destruct (after_draws_fields k w) as (Hh & _ & _ & _ & _ & _ & _ & Hx).
  rewrite Hh, Hx. f_equal. lia.
Qed.

Lemma unit_interval_after (k : nat) (w : World) :
  unit_interval_source (host w) -> unit_interval_source (host (after_draws k w)).
Proof.
  destruct (after_draws_fields k w) as (Hh & _). rewrite Hh. auto.
Qed.

Lemma lookup_set_if_defined_gated (k : string) (p r : Q) (v : jsval)
    (arr : list jsval) (i : nat) (m : PropSet) :
  m !! k = None -> arr !! i = Some v -> VUndef ∉ arr ->
  set_if_defined k (if Qlt_le_dec r p then v else VUndef) m !! k =
  gated p r (arr !! i).
Proof.
  intros Hm Hv Hdef. unfold gated. destruct (Qlt_le_dec r p).
  - assert (v <> VUndef) as Hne.
    { intros ->. apply Hdef. eapply list_elem_of_lookup_2; exact Hv. }
    rewrite Hv. destruct v; try congruence; simpl; apply lookup_insert_eq.
  - exact Hm.
Qed.

Lemma sizes_defined : VUndef ∉ sizes.
Proof.
  unfold sizes. intros H.
  repeat (apply elem_of_cons in H as [H | H]; [discriminate H |]).
  inversion H.
Qed.

Lemma flexChoices_defined : VUndef ∉ flexChoices.
Proof.
  unfold flexChoices. intros H.
  repeat (apply elem_of_cons in H as [H | H]; [discriminate H |]).
  inversion H.
Qed.

Ltac pick_run_step arr Hsrc :=
  match goal with
  | |- context [bind (pick arr) _ ?w] =>
      let v := fresh "v" in
      let Hb := fresh "Hb" in
      let E := fresh "E" in
      destruct (pick_run arr w) as (v & E & Hb);
      [first [exact Hsrc | apply unit_interval_after; exact Hsrc]
      | discriminate | reflexivity |];
      rewrite (bind_Return _ _ _ _ _ E); clear E;
      rewrite ?after_draws_add in *; rewrite ?nth_draw_after in Hb;
      cbn [Nat.add] in *
  end.

Ltac maybe_run_step :=
  match goal with
  | |- context [bind (maybe ?x ?p) _ ?w] =>
      rewrite (bind_Return _ _ _ _ _ (maybe_run x p w));
      rewrite ?after_draws_add, ?nth_draw_after; cbn [Nat.add]
  end.

(** X17: with a random source of doubles in [0, 1), the PropSet of
    [buildRandomProps] is a function of the next twelve answers: the
    first six choose direction, align, justify, wrap, gap and padding by
    bucket, the product being rounded as the code rounds it; the seventh
    chooses a size and the eighth, when below the double that [0.35]
    denotes, sets it as width; the ninth and tenth do the same for height;
    the eleventh chooses a flex value and the twelfth, when below the
    double that [0.4] denotes, sets it.  The first of these two doubles is
    below 35/100 and the second above 4/10. *)
Theorem buildRandomProps_by_draws (w : World) :
  unit_interval_source (host w) ->
  (Double.round (35 # 100) < 35 # 100)%Q /\
  (4 # 10 < Double.round (4 # 10))%Q /\
  exists p : PropSet,
    buildRandomProps w = (Return p, after_draws 12 w) /\
    p !! "direction" = bucket directions (nth_draw w 0) /\
    p !! "align" = bucket aligns (nth_draw w 1) /\
    p !! "justify" = bucket justifies (nth_draw w 2) /\
    p !! "wrap" = bucket wraps (nth_draw w 3) /\
    p !! "gap" = bucket gaps (nth_draw w 4) /\
    p !! "padding" = bucket paddings (nth_draw w 5) /\
    p !! "width" =
      gated (Double.round (35 # 100)) (nth_draw w 7)
            (bucket sizes (nth_draw w 6)) /\
    p !! "height" =
      gated (Double.round (35 # 100)) (nth_draw w 9)
            (bucket sizes (nth_draw w 8)) /\
    p !! "flex" =
      gated (Double.round (4 # 10)) (nth_draw w 11)
            (bucket flexChoices (nth_draw w 10)).
Proof.
  intros Hsrc.
  split; [vm_compute; reflexivity |]. split; [vm_compute; reflexivity |].
  unfold buildRandomProps.
  pick_run_step directions Hsrc. pick_run_step aligns Hsrc.
  pick_run_step justifies Hsrc. pick_run_step wraps Hsrc.
  pick_run_step gaps Hsrc. pick_run_step paddings Hsrc.
  cbv zeta.
  pick_run_step sizes Hsrc. maybe_run_step.
  pick_run_step sizes Hsrc. maybe_run_step.
  pick_run_step flexChoices Hsrc. maybe_run_step.
  eexists. split; [reflexivity |].
  rewrite Hb, Hb0, Hb1, Hb2, Hb3, Hb4.
  repeat match goal with |- _ /\ _ => split end.
  1-6: rewrite !lookup_set_if_defined_ne by discriminate; reflexivity.
  - rewrite !lookup_set_if_defined_ne by discriminate.
    apply lookup_set_if_defined_gated;
      [reflexivity | exact Hb5 | exact sizes_defined].
  - rewrite lookup_set_if_defined_ne by discriminate.
    apply lookup_set_if_defined_gated; [| exact Hb6 | exact sizes_defined].
    rewrite lookup_set_if_defined_ne by discriminate. reflexivity.
  - apply lookup_set_if_defined_gated; [| exact Hb7 | exact flexChoices_defined].
    rewrite !lookup_set_if_defined_ne by discriminate. reflexivity.
Qed.

Lemma pick_any (arr : list jsval) (w : World) :
  exists v, pick arr w = (Return v, after_draws 1 w).
Proof. eexists. reflexivity. Qed.

Ltac pick_any_step :=
  match goal with
  | |- context [bind (pick ?arr) _ ?w] =>
      let v := fresh "v" in
      let E := fresh "E" in
      destruct (pick_any arr w) as (v & E);
      rewrite (bind_Return _ _ _ _ _ E); clear E
  end.

(** The shape of a random PropSet, whatever the random source answers. *)
Lemma buildRandomProps_shape (w : World) :
  exists d a j wr g pd wd h f w',
    buildRandomProps w =
      (Return
         (set_if_defined "flex" f
            (set_if_defined "height" h
               (set_if_defined "width" wd
                  (<["padding" := pd]> (<["gap" := g]> (<["wrap" := wr]>
                   (<["justify" := j]> (<["align" := a]>
                   (<["direction" := d]> (∅ : PropSet)))))))))),
       w').
Proof.
  unfold buildRandomProps.
  do 6 pick_any_step. cbv zeta.
  pick_any_step. rewrite (bind_Return _ _ _ _ _ (maybe_run _ _ _)).
  pick_any_step. rewrite (bind_Return _ _ _ _ _ (maybe_run _ _ _)).
  pick_any_step. rewrite (bind_Return _ _ _ _ _ (maybe_run _ _ _)).
  unfold ret. eauto 12.
Qed.

Lemma lookup_set_if_defined_None (k k' : string) (v : jsval) (m : PropSet) :
  k <> k' -> m !! k' = None -> set_if_defined k v m !! k' = None.
Proof. intros Hne Hm. rewrite lookup_set_if_defined_ne by exact Hne. exact Hm. Qed.

(** X18: whatever the random source answers, a random PropSet has the
    six keys direction, align, justify, wrap, gap and padding, and no key
    other than those and width, height and flex; in particular it never
    carries a [key] or [children] entry of its own. *)
Theorem buildRandomProps_keys (w w' : World) (p : PropSet) :
  buildRandomProps w = (Return p, w') ->
  (forall k, k ∈ ["direction"; "align"; "justify"; "wrap"; "gap"; "padding"] ->
             is_Some (p !! k)) /\
  (forall k, is_Some (p !! k) -> k ∈ prop_keys) /\
  p !! "key" = None /\ p !! "children" = None.
Proof.
  intros E.
  destruct (buildRandomProps_shape w) as (d & a & j & wr & g & pd & wd & h & f & w1 & E1).
  rewrite E1 in E. injection E as <- _.
  assert (forall k, k ∉ prop_keys ->
            set_if_defined "flex" f
              (set_if_defined "height" h
                 (set_if_defined "width" wd
                    (<["padding" := pd]> (<["gap" := g]> (<["wrap" := wr]>
                     (<["justify" := j]> (<["align" := a]>
                     (<["direction" := d]> (∅ : PropSet))))))))) !! k = None)
    as Hother.
  { intros k Hk. unfold prop_keys in Hk.
    rewrite !not_elem_of_cons in Hk.
    destruct Hk as (H1 & H2 & H3 & H4 & H5 & H6 & H7 & H8 & H9 & _).
    rewrite !lookup_set_if_defined_ne by congruence.
    rewrite !lookup_insert_ne by congruence.
    apply lookup_empty. }
  split; [| split; [| split]].
  - intros k Hk.
    repeat (apply elem_of_cons in Hk as [-> | Hk];
            [rewrite !lookup_set_if_defined_ne by discriminate;
             rewrite ?lookup_insert_ne by discriminate;
             rewrite lookup_insert_eq; eauto |]).
    inversion Hk.
  - intros k [v Hv]. destruct (decide (k ∈ prop_keys)) as [Hin | Hout]; [exact Hin |].
    rewrite (Hother k Hout) in Hv. discriminate Hv.
  - apply Hother. unfold prop_keys. intros H.
    repeat (apply elem_of_cons in H as [H | H]; [discriminate H |]). inversion H.
  - apply Hother. unfold prop_keys. intros H.
    repeat (apply elem_of_cons in H as [H | H]; [discriminate H |]). inversion H.
Qed.

(** ** The element trees *)

Lemma createElement_keyed (type : ElementType) (i : Z) (p : PropSet)
    (children : list element) :
  createElement type (Some (<["key" := VNum i]> p)) children =
  Element type (Some (pretty i)) (delete "key" p) children.
Proof.
  unfold createElement. cbn [from_option]. unfold id. cbv zeta.
  rewrite lookup_insert_eq, delete_insert_eq. reflexivity.
Qed.

Lemma pretty_N_go_ne_underscore (x : N) (s s' : string) :
  s <> "_" +:+ s' -> pretty_N_go x s <> "_" +:+ s'.
Proof.
  revert s. induction (N.lt_wf_0 x) as [x _ IH]; intros s Hs.
  assert (x = 0 \/ 0 < x)%N as [-> | Hpos] by lia.
  - rewrite pretty_N_go_0. exact Hs.
  - rewrite pretty_N_go_step by exact Hpos. apply IH.
    + apply N.div_lt; [exact Hpos | reflexivity].
    + unfold pretty_N_char. repeat case_match; discriminate.
Qed.

Lemma pretty_nat_ne_mount_key (i : nat) : pretty (Z.of_nat i) <> "__m".
Proof.
  destruct (Z.of_nat i) as [|p|p] eqn:E; [discriminate | | lia].
  unfold pretty, pretty_Z, pretty, pretty_positive, pretty, pretty_N.
  rewrite decide_False by discriminate.
  apply (pretty_N_go_ne_underscore (N.pos p) "" "_m"). discriminate.
Qed.

Lemma implElements_lookup (cfg : Config) (impl : Impl) (l : list PropSet)
    (i : nat) :
  implElements cfg impl l !! i =
  (fun p => Element (ImplT impl) (Some (pretty (Z.of_nat i))) (delete "key" p)
                    (buildChildren (itemsPerFlexbox cfg))) <$> l !! i.
Proof.
  unfold implElements. rewrite list_lookup_imap.
  destruct (l !! i); cbn; [rewrite createElement_keyed |]; reflexivity.
Qed.

Lemma implElements_keys (cfg : Config) (impl : Impl) (l : list PropSet) :
  element_key <$> implElements cfg impl l =
  (fun i : nat => Some (pretty (Z.of_nat i))) <$> seq 0 (length l).
Proof.
  apply list_eq. intros i.
  rewrite !list_lookup_fmap, implElements_lookup.
  destruct (l !! i) as [p|] eqn:E.
  - rewrite (lookup_seq_lt 0 (length l) i) by (eapply lookup_lt_Some; exact E).
    reflexivity.
  - rewrite lookup_seq_ge by (apply lookup_ge_None; exact E). reflexivity.
Qed.

Lemma keys_of_indices_NoDup (n : nat) :
  NoDup ((fun i : nat => Some (pretty (Z.of_nat i))) <$> seq 0 n).
Proof.
  apply NoDup_fmap_2_strong; [| apply NoDup_seq].
  intros i j _ _ H. injection H as H.
  apply (inj pretty) in H. lia.
Qed.

(** X19: the i-th element made for an implementation has the decimal
    index as its key, the implementation as its type, the children of
    [buildChildren] and, as props, the PropSet without any [key] entry;
    a PropSet that has none, as all generated ones, is passed on
    unchanged. *)
Theorem implElements_passes_props (cfg : Config) (impl : Impl)
    (l : list PropSet) (i : nat) (p : PropSet) :
  l !! i = Some p ->
  p !! "key" = None ->
  implElements cfg impl l !! i =
    Some (Element (ImplT impl) (Some (pretty (Z.of_nat i))) p
                  (buildChildren (itemsPerFlexbox cfg))) /\
  length (implElements cfg impl l) = length l.
Proof.
  intros Hl Hk. split.
  - rewrite implElements_lookup, Hl. cbn. rewrite delete_id by exact Hk.
    reflexivity.
  - unfold implElements. apply length_imap.
Qed.

(** X20: the benchmark tree is a profiler around one fragment whose
    children are the implementation elements, in the order of the props
    list, followed by the commit signal; the keys of these children are
    pairwise distinct. *)
Theorem buildBenchmarkTree_keys (cfg : Config) (impl : Impl) (l : list PropSet) :
  exists children,
    buildBenchmarkTree cfg impl l =
      Element ProfilerT None (<["id" := VStr "bench"]> ∅)
              [Element FragmentT None ∅ children] /\
    children = implElements cfg impl l ++ [mount_signal] /\
    length children = S (length l) /\
    NoDup (element_key <$> children).
Proof.
  eexists. split; [| split; [reflexivity | split]].
  - unfold buildBenchmarkTree. reflexivity.
  - rewrite length_app. unfold implElements. rewrite length_imap. simpl. lia.
  - rewrite fmap_app, implElements_keys. apply NoDup_app.
    split; [apply keys_of_indices_NoDup |]. split; [| apply NoDup_singleton].
    intros k Hk Hm. apply list_elem_of_fmap in Hk as (i & -> & _).
    apply list_elem_of_singleton in Hm. injection Hm as Hm.
    exact (pretty_nat_ne_mount_key i Hm).
Qed.

(** X21: [buildChildren] makes one placeholder per item, none for a
    count of zero or less, each a 4 by 4 [<div>] without children, keyed
    by its index, with pairwise distinct keys. *)
Theorem buildChildren_placeholders (count : Z) :
  buildChildren count = placeholder <$> seqZ 0 count /\
  length (buildChildren count) = Z.to_nat count /\
  NoDup (element_key <$> buildChildren count).
Proof.
  assert (buildChildren count = placeholder <$> seqZ 0 count) as Hshape.
  { unfold buildChildren. apply list_fmap_ext. intros i x _.
    unfold createElement, placeholder. cbn [from_option]. unfold id. cbv zeta.
    rewrite lookup_insert_ne by discriminate.
    rewrite lookup_insert_eq.
    rewrite delete_insert_ne by discriminate.
    rewrite delete_insert_eq. reflexivity. }
  split; [exact Hshape |]. rewrite Hshape. split.
  - rewrite length_fmap, length_seqZ. reflexivity.
  - rewrite <- list_fmap_compose. apply NoDup_fmap_2_strong; [| apply NoDup_seqZ].
    intros i j _ _ H. cbn in H. injection H as H. apply (inj pretty) in H. exact H.
Qed.

(** ** Formatting *)

(** X22: swapping the two samples of a heap delta flips the printed
    sign and nothing else: when the second used count is the larger one,
    the delta taken the other way round prints as a minus sign followed
    by the same text. *)
Theorem formatBytes_memDelta_swap (a b : option MemorySample) (av bv : Z) :
  a ≫= usedJSHeapSize = Some av ->
  b ≫= usedJSHeapSize = Some bv ->
  av < bv ->
  formatBytes (memDelta b a) = "-" +:+ formatBytes (memDelta a b).
Proof.
  intros Ha Hb Hlt. unfold memDelta. rewrite Ha, Hb. unfold formatBytes.
  replace (Z.abs (av - bv)) with (Z.abs (bv - av)) by lia.
  replace (av - bv <? 0) with true by (symmetry; apply Z.ltb_lt; lia).
  replace (bv - av <? 0) with false by (symmetry; apply Z.ltb_ge; lia).
  destruct (scaleBytes (Z.abs (bv - av))) as [v i]. reflexivity.
Qed.

Lemma Qdiv_ge_1 (a b : Z) :
  0 < b -> (1 <= inject_Z a / inject_Z b)%Q -> b <= a.
Proof.
  intros Hb H.
  assert (0 < inject_Z b)%Q as Hq.
  { replace 0%Q with (inject_Z 0) by reflexivity. rewrite <- Zlt_Qlt. exact Hb. }
  rewrite Zle_Qle.
  apply (Qmult_le_compat_r _ _ (inject_Z b)) in H; [| apply Qlt_le_weak, Hq].
  rewrite Qmult_1_l in H.
  assert (inject_Z a / inject_Z b * inject_Z b == inject_Z a)%Q as E.
  { field. intros Hz. rewrite Hz in Hq. exact (Qlt_irrefl 0 Hq). }
  rewrite E in H. exact H.
Qed.

Lemma Qdiv_lt_1024 (a b : Z) :
  0 < b -> (inject_Z a / inject_Z b < 1024)%Q -> a < 1024 * b.
Proof.
  intros Hb H.
  assert (0 < inject_Z b)%Q as Hq.
  { replace 0%Q with (inject_Z 0) by reflexivity. rewrite <- Zlt_Qlt. exact Hb. }
  rewrite Zlt_Qlt, inject_Z_mult.
  apply (Qmult_lt_compat_r _ _ (inject_Z b)) in H; [| exact Hq].
  assert (inject_Z a / inject_Z b * inject_Z b == inject_Z a)%Q as E.
  { field. intros Hz. rewrite Hz in Hq. exact (Qlt_irrefl 0 Hq). }
  rewrite E in H. exact H.
Qed.

(** The number and the unit [formatBytes] prints. *)
Lemma formatBytes_scaled (d : Z) :
  exists v : Q,
    (v == inject_Z (Z.abs d) / inject_Z (unit_scale (Z.abs d)))%Q /\
    formatBytes (Some d) =
      delta_sign d +:+ Fmt.toFixed 2 v +:+ " " +:+ unit_of (Z.abs d).
Proof.
  unfold formatBytes, scaleBytes.
  pose proof (scale_loop_spec (length units - 1) (inject_Z (Z.abs d)) 0) as H.
  destruct (scale_loop (length units - 1) (inject_Z (Z.abs d)) 0) as [v i].
  destruct H as ([_ Hhi] & Hv & Hstop & Hone).
  change (length units - 1)%nat with 3%nat in *.
  replace (i - 0)%nat with i in Hv by lia.
  exists v. fold (delta_sign d).
  assert (0 <= Z.abs d) as Habs by lia.
  set (a := Z.abs d) in *.
  assert (i = 0 \/ i = 1 \/ i = 2 \/ i = 3)%nat as Hi by lia.
  assert (forall k : nat, (i = k -> (k < 3)%nat -> a < 1024 * 1024 ^ Z.of_nat k)) as Hup.
  { intros k -> Hk. destruct Hstop as [-> | Hlt]; [lia |].
    rewrite Hv in Hlt. apply Qdiv_lt_1024 in Hlt; [exact Hlt |].
    apply Z.pow_pos_nonneg; lia. }
  assert (forall k : nat, (i = k -> (0 < k)%nat -> 1024 ^ Z.of_nat k <= a)) as Hlow.
  { intros k -> Hk. destruct Hone as [-> | Hge]; [lia |].
    rewrite Hv in Hge. apply Qdiv_ge_1 in Hge; [exact Hge |].
    apply Z.pow_pos_nonneg; lia. }
  unfold unit_of, unit_scale.
  destruct Hi as [-> | [-> | [-> | ->]]].
  - specialize (Hup 0%nat eq_refl). change (1024 ^ Z.of_nat 0) with 1 in *.
    replace (a <? 1024) with true by (symmetry; apply Z.ltb_lt; lia).
    split; [exact Hv | reflexivity].
  - specialize (Hup 1%nat eq_refl). specialize (Hlow 1%nat eq_refl).
    change (1024 ^ Z.of_nat 1) with 1024 in *. change (1024 ^ 2) with 1048576.
    replace (a <? 1024) with false by (symmetry; apply Z.ltb_ge; lia).
    replace (a <? 1048576) with true by (symmetry; apply Z.ltb_lt; lia).
    split; [exact Hv | reflexivity].
  - specialize (Hup 2%nat eq_refl). specialize (Hlow 2%nat eq_refl).
    change (1024 ^ Z.of_nat 2) with 1048576 in *.
    change (1024 ^ 2) with 1048576. change (1024 ^ 3) with 1073741824.
    replace (a <? 1024) with false by (symmetry; apply Z.ltb_ge; lia).
    replace (a <? 1048576) with false by (symmetry; apply Z.ltb_ge; lia).
    replace (a <? 1073741824) with true by (symmetry; apply Z.ltb_lt; lia).
    split; [exact Hv | reflexivity].
  - specialize (Hlow 3%nat eq_refl).
    change (1024 ^ Z.of_nat 3) with 1073741824 in *.
    change (1024 ^ 2) with 1048576. change (1024 ^ 3) with 1073741824.
    replace (a <? 1024) with false by (symmetry; apply Z.ltb_ge; lia).
    replace (a <? 1048576) with false by (symmetry; apply Z.ltb_ge; lia).
    replace (a <? 1073741824) with false by (symmetry; apply Z.ltb_ge; lia).
    split; [exact Hv | reflexivity].
Qed.

(** X23: [formatBytes] chooses the unit by the magnitude of the count:
    B below 1024, KB below 1024^2, MB below 1024^3 and GB from there on,
    however large; the number printed is the magnitude divided by the
    power of 1024 of that unit. *)
Theorem formatBytes_unit_by_magnitude (d : Z) :
  exists v : Q,
    (v == inject_Z (Z.abs d) / inject_Z (unit_scale (Z.abs d)))%Q /\
    formatBytes (Some d) =
      delta_sign d +:+ Fmt.toFixed 2 v +:+ " " +:+ unit_of (Z.abs d).
Proof.
  destruct (formatBytes_scaled d) as (v & Hv & E).
  exists v. split; [exact Hv | exact E].
Qed.

Lemma unit_scale_pos (a : Z) : 0 < unit_scale a.
Proof. unfold unit_scale. repeat case_match; lia. Qed.

Lemma two_digits_padded (m : Z) :
  0 <= m < 100 -> String.length (Fmt.pad_zeros 2 (Fmt.digits m)) = 2%nat.
Proof.
  intros Hm.
  assert (forallb (fun k => Nat.eqb (String.length
                              (Fmt.pad_zeros 2 (Fmt.digits (Z.of_nat k)))) 2)
                  (seq 0 100) = true) as Hall by (vm_compute; reflexivity).
  rewrite forallb_forall in Hall.
  specialize (Hall (Z.to_nat m)).
  rewrite Z2Nat.id in Hall by lia.
  apply Nat.eqb_eq, Hall, in_seq. lia.
Qed.

Lemma string_app_assoc (a b c : string) : (a +:+ b) +:+ c = a +:+ b +:+ c.
Proof.
  induction a as [|ch a IH]; [reflexivity |].
  change (String ch ((a +:+ b) +:+ c) = String ch (a +:+ b +:+ c)).
  f_equal. exact IH.
Qed.

Lemma toFixed2_shape (x : Q) :
  (Qabs x < inject_Z (10 ^ 21))%Q ->
  exists int frac,
    Fmt.toFixed 2 x =
      (if Qlt_le_dec x 0 then "-" else "") +:+ int +:+ "." +:+ frac /\
    String.length frac = 2%nat.
Proof.
  intros Hx. unfold Fmt.toFixed, Fmt.fixed_point.
  replace (Qle_bool (inject_Z (10 ^ 21)) (Qabs x)) with false.
  2: { symmetry. destruct (Qle_bool _ (Qabs x)) eqn:E; [| reflexivity].
       apply Qle_bool_iff in E. exfalso. exact (Qlt_not_le _ _ Hx E). }
  change (10 ^ Z.of_nat 2) with 100.
  destruct (Qlt_le_dec x 0); eexists _, _; (split; [reflexivity |]);
    apply two_digits_padded, Z.mod_pos_bound; lia.
Qed.

(** The number [formatBytes] hands to [toFixed] is below 1e21 when the
    count is below 1e21 GB. *)
Lemma unit_scaled_small (a : Z) (v : Q) :
  0 <= a < 10 ^ 21 * 1024 ^ 3 ->
  (v == inject_Z a / inject_Z (unit_scale a))%Q ->
  (0 <= v < inject_Z (10 ^ 21))%Q.
Proof.
  intros [Ha0 Ha1] Hv.
  pose proof (unit_scale_pos a) as Hpos.
  assert (a < 10 ^ 21 * unit_scale a) as Hlt.
  { unfold unit_scale in *. repeat case_match; lia. }
  assert (0 < inject_Z (unit_scale a))%Q as Hq.
  { change 0%Q with (inject_Z 0). rewrite <- Zlt_Qlt. exact Hpos. }
  rewrite Hv. split.
  - apply Qle_shift_div_l; [exact Hq |]. rewrite Qmult_0_l.
    change 0%Q with (inject_Z 0). rewrite <- Zle_Qle. exact Ha0.
  - apply Qlt_shift_div_r; [exact Hq |].
    rewrite <- inject_Z_mult, <- Zlt_Qlt. exact Hlt.
Qed.

(** From 1e21 on [toFixed] prints the shortest digits that read back as
    the double, whatever the number of fraction digits asked for; the
    double next below 1e21 still prints in full. *)
Example toFixed_large :
  Fmt.toFixed 2 (inject_Z (2 ^ 70)) = "1.1805916207174113e+21" /\
  Fmt.toFixed 2 (inject_Z (- 10 ^ 21)) = "-1e+21" /\
  Fmt.toFixed 2 (inject_Z (10 ^ 21 - 2 ^ 17)) = "999999999999999868928.00".
Proof. split; [| split]; vm_compute; reflexivity. Qed.

(** X24: a byte delta of magnitude below 1e21 GB and a duration of
    magnitude below 1e21 ms print with exactly two digits after the
    point, then a space and the unit; from 1e21 on [toFixed] prints the
    exponent notation of the number instead, so that 1e21 ms prints
    without a point. *)
Theorem two_fraction_digits (d : Z) (ms : Q) :
  Z.abs d < 10 ^ 21 * 1024 ^ 3 ->
  (Qabs ms < inject_Z (10 ^ 21))%Q ->
  (exists int frac,
     formatBytes (Some d) =
       delta_sign d +:+ int +:+ "." +:+ frac +:+ " " +:+ unit_of (Z.abs d) /\
     String.length frac = 2%nat) /\
  (exists int frac,
     formatMs (Fin ms) =
       (if Qlt_le_dec ms 0 then "-" else "") +:+ int +:+ "." +:+ frac +:+ " ms" /\
     String.length frac = 2%nat) /\
  formatMs (Fin (inject_Z (10 ^ 21))) = "1e+21 ms".
Proof.
  intros Hd Hms. split; [| split; [| vm_compute; reflexivity]].
  - destruct (formatBytes_scaled d) as (v & Hv & E).
    destruct (unit_scaled_small (Z.abs d) v) as [Hv0 Hv1]; [lia | exact Hv |].
    destruct (toFixed2_shape v) as (int & frac & Ev & Hlen).
    { rewrite Qabs_pos by exact Hv0. exact Hv1. }
    exists int, frac. split; [| exact Hlen].
    rewrite E, Ev.
    destruct (Qlt_le_dec v 0) as [Hneg | _].
    + exfalso. exact (Qlt_not_le _ _ Hneg Hv0).
    + cbn [String.append]. rewrite !string_app_assoc. reflexivity.
  - destruct (toFixed2_shape ms Hms) as (int & frac & E & Hlen).
    exists int, frac. split; [| exact Hlen].
    unfold formatMs, Num.toFixed. rewrite E.
    rewrite !string_app_assoc. reflexivity.
Qed.

(** ** One upsert *)

Lemma replace_or_append_names_eq (next : CaseResult) (l : list CaseResult) :
  name <$> replace_or_append next l =
  if decide (name next ∈ name <$> l) then name <$> l
  else (name <$> l) ++ [name next].
Proof.
  induction l as [|r l IH]; cbn.
  - rewrite decide_False by apply not_elem_of_nil. reflexivity.
  - destruct (String.eqb (name r) (name next)) eqn:E; cbn.
    + apply String.eqb_eq in E.
      rewrite decide_True by (rewrite E; apply list_elem_of_here).
      rewrite E. reflexivity.
    + apply String.eqb_neq in E. rewrite IH.
      destruct (decide (name next ∈ name <$> l)) as [Hin | Hout].
      * rewrite decide_True by (apply list_elem_of_further; exact Hin). reflexivity.
      * rewrite decide_False; [reflexivity |].
        rewrite not_elem_of_cons. split; [congruence | exact Hout].
Qed.

(** X25: an upsert never reorders or drops a row: the names of the
    store are unchanged when the name is already there, and the new name
    is added at the end otherwise; the store grows by at most one row. *)
Theorem upsert_names (r : CaseResult) (s : option (list CaseResult)) :
  names (Some (upsert r s)) =
    (if decide (name r ∈ names s) then names s else names s ++ [name r]) /\
  (length (default [] s) <= length (upsert r s) <= S (length (default [] s)))%nat.
Proof.
  unfold names. cbn [from_option]. rewrite upsert_replace_or_append.
  pose proof (replace_or_append_names_eq r (default [] s)) as H.
  split; [exact H |].
  apply (f_equal length) in H. rewrite length_fmap in H. rewrite H.
  destruct (decide _); rewrite ?length_app, length_fmap; simpl; lia.
Qed.

Lemma find_replace_or_append_same (next : CaseResult) (l : list CaseResult) :
  List.find (named (name next)) (replace_or_append next l) = Some next.
Proof.
  unfold named. induction l as [|r l IH]; cbn.
  - rewrite String.eqb_refl. reflexivity.
  - destruct (String.eqb (name r) (name next)) eqn:E; cbn.
    + rewrite String.eqb_refl. reflexivity.
    + rewrite E. exact IH.
Qed.

Lemma find_replace_or_append_other (next : CaseResult) (l : list CaseResult)
    (n : string) :
  n <> name next ->
  List.find (named n) (replace_or_append next l) = List.find (named n) l.
Proof.
  intros Hne. unfold named. induction l as [|r l IH]; cbn.
  - replace (String.eqb (name next) n) with false
      by (symmetry; apply String.eqb_neq; congruence).
    reflexivity.
  - destruct (String.eqb (name r) (name next)) eqn:E; cbn.
    + apply String.eqb_eq in E.
      replace (String.eqb (name next) n) with false
        by (symmetry; apply String.eqb_neq; congruence).
      replace (String.eqb (name r) n) with false
        by (symmetry; apply String.eqb_neq; congruence).
      reflexivity.
    + destruct (String.eqb (name r) n); [reflexivity | exact IH].
Qed.

(** X26: looking a case up after an upsert: the first row with the
    upserted name is the upserted result, in any store, and the first row
    with any other name is the one from before. *)
Theorem upsert_then_find (r : CaseResult) (s : option (list CaseResult))
    (n : string) :
  n <> name r ->
  List.find (named (name r)) (upsert r s) = Some r /\
  List.find (named n) (upsert r s) = List.find (named n) (default [] s).
Proof.
  intros Hne. rewrite upsert_replace_or_append. split.
  - apply find_replace_or_append_same.
  - apply find_replace_or_append_other. exact Hne.
Qed.

(** ** Style cleanup and heap deltas *)

Lemma filter_filter_same {A} (p : A -> bool) (l : list A) :
  List.filter p (List.filter p l) = List.filter p l.
Proof.
  induction l as [|x l IH]; cbn; [reflexivity |].
  destruct (p x) eqn:E; cbn; [rewrite E, IH |]; auto.
Qed.

Lemma trim_start_split (s : DOMString) :
  exists ws,
    s = ws ++ trim_start s /\ Forall (fun c => is_white_space c = true) ws.
Proof.
  induction s as [|c s (ws & E & Hws)]; [exists []; split; [reflexivity | constructor] |].
  cbn [trim_start]. destruct (is_white_space c) eqn:Hc.
  - exists (c :: ws). split; [cbn; f_equal; exact E | constructor; assumption].
  - exists []. split; [reflexivity | constructor].
Qed.

Lemma trim_start_skips (ws : DOMString) (c : N) (s : DOMString) :
  Forall (fun c => is_white_space c = true) ws ->
  is_white_space c = false ->
  trim_start (ws ++ c :: s) = c :: s.
Proof.
  intros Hws Hc. induction Hws as [|a ws Ha _ IH]; cbn.
  - rewrite Hc. reflexivity.
  - rewrite Ha. exact IH.
Qed.

(** Trimming the start stops at the latest at a code unit that is not
    white space. *)
Lemma trim_start_keeps (l : DOMString) (c : N) (s : DOMString) :
  is_white_space c = false ->
  exists l', trim_start (l ++ c :: s) = l' ++ c :: s.
Proof.
  intros Hc. induction l as [|a l [l' IH]]; cbn.
  - rewrite Hc. exists []. reflexivity.
  - destruct (is_white_space a); [exists l'; exact IH | exists (a :: l); reflexivity].
Qed.

Lemma starts_with_app (p s : DOMString) :
  starts_with p s = true <-> exists rest, s = p ++ rest.
Proof.
  revert s. induction p as [|a p IH]; intros s; cbn.
  - split; [intros _; exists s; reflexivity | reflexivity].
  - destruct s as [|b s].
    + split; [discriminate | intros [rest E]; discriminate E].
    + rewrite andb_true_iff, N.eqb_eq, IH. split.
      * intros [-> [rest ->]]. exists rest. reflexivity.
      * intros [rest E]. injection E as -> ->. split; [reflexivity | eauto].
Qed.

(** Which attribute values the test [key.trim().startsWith('css')]
    accepts: white space at the end plays no part. *)
Lemma trim_starts_with_css (key : DOMString) :
  starts_with (code_units "css") (trim key) = true <-> css_keyed key.
Proof.
  unfold css_keyed, trim, trim_end. rewrite starts_with_app. split.
  - intros [rest E].
    destruct (trim_start_split key) as (ws & Ek & Hws).
    destruct (trim_start_split (rev (trim_start key))) as (ws2 & E2 & _).
    exists ws, (rest ++ rev ws2). split; [| exact Hws].
    rewrite Ek at 1. f_equal.
    rewrite <- (rev_involutive (trim_start key)), E2, rev_app_distr, E.
    rewrite <- app_assoc. reflexivity.
  - intros (ws & rest & -> & Hws).
    change (code_units "css" ++ rest) with (99 :: 115 :: 115 :: rest)%N.
    change (code_units "css") with [99; 115; 115]%N.
    rewrite (trim_start_skips ws 99 (115 :: 115 :: rest)%N Hws) by reflexivity.
    cbn [rev]. rewrite <- !app_assoc. cbn [app].
    destruct (trim_start_keeps (rev rest) 115 [115; 99]%N) as [l' E];
      [reflexivity |].
    rewrite E, rev_app_distr. cbn [rev app]. eauto.
Qed.

Lemma is_emotion_css_tag (el : StyleTag) :
  is_emotion_css el = true <-> emotion_tag el.
Proof.
  unfold is_emotion_css, emotion_tag. destruct (data_emotion el) as [key|].
  - rewrite trim_starts_with_css. split; [eauto |].
    intros (k & E & H). injection E as <-. exact H.
  - split; [discriminate | intros (k & E & _); discriminate E].
Qed.

Lemma filter_without_emotion_tags (l : list StyleTag) :
  without_emotion_tags l (List.filter (fun el => negb (is_emotion_css el)) l).
Proof.
  induction l as [|el l IH]; cbn [List.filter]; [constructor |].
  destruct (is_emotion_css el) eqn:E; cbn [negb].
  - apply tag_removed; [apply is_emotion_css_tag, E | exact IH].
  - apply tag_kept; [| exact IH].
    intros H. apply is_emotion_css_tag in H. congruence.
Qed.

Lemma without_emotion_tags_unique (l l1 l2 : list StyleTag) :
  without_emotion_tags l l1 -> without_emotion_tags l l2 -> l1 = l2.
Proof.
  intros H1. revert l2.
  induction H1 as [|el l l1 Hel _ IH|el l l1 Hel _ IH]; intros l2 H2;
    inversion H2; subst; try contradiction; auto.
  f_equal. auto.
Qed.

(** X27: [cleanupEmotionStyleTags] takes out of the head the style tags
    whose [data-emotion] attribute reads [css] after any white space of
    ECMAScript, a no-break space or a byte order mark as well as a blank,
    whatever follows and however the value ends, and no other: it keeps
    every other tag in its place, also style tags without the attribute
    and tags of another cache key such as [my-css]; the head it leaves
    is the only list of that kind; it changes nothing else, and a second
    call changes nothing. *)
Theorem cleanupEmotionStyleTags_removes_css (w : World) :
  exists w',
    cleanupEmotionStyleTags w = (Return tt, w') /\
    without_emotion_tags (head (document w)) (head (document w')) /\
    (forall l, without_emotion_tags (head (document w)) l ->
               l = head (document w')) /\
    (forall el, el ∈ head (document w') <->
                el ∈ head (document w) /\ ~ emotion_tag el) /\
    (forall el, is_emotion_css el = true <-> emotion_tag el) /\
    emotion_tag (mkStyleTag (Some (160%N :: code_units "css-1x2y3z"))) /\
    ~ emotion_tag (mkStyleTag (Some (code_units "my-css"))) /\
    ~ emotion_tag (mkStyleTag None) /\
    (created (document w'), body (document w'), roots (document w')) =
      (created (document w), body (document w), roots (document w)) /\
    (host w', cursors w', log w', page w') = (host w, cursors w, log w, page w) /\
    cleanupEmotionStyleTags w' = (Return tt, w').
Proof.
  eexists. split; [reflexivity |]. cbn [document with_document head].
  pose proof (filter_without_emotion_tags (head (document w))) as Hf.
  split; [exact Hf |].
  split; [intros l Hl; exact (without_emotion_tags_unique _ _ _ Hl Hf) |].
  split.
  { intros el. rewrite list_elem_of_In, filter_In, <- list_elem_of_In.
    rewrite negb_true_iff, <- is_emotion_css_tag.
    split; intros [H1 H2]; (split; [exact H1 |]).
    - change (is_emotion_css el = false) in H2. rewrite H2. discriminate.
    - change (is_emotion_css el = false). apply not_true_is_false, H2. }
  split; [exact is_emotion_css_tag |].
  split; [apply is_emotion_css_tag; reflexivity |].
  split; [rewrite <- is_emotion_css_tag; discriminate |].
  split; [rewrite <- is_emotion_css_tag; discriminate |].
  split; [reflexivity |]. split; [reflexivity |].
  unfold cleanupEmotionStyleTags, modify, with_document.
  cbn [host cursors log document page created body head roots].
  f_equal. f_equal. f_equal.
  apply (filter_filter_same (fun el => negb (is_emotion_css el))).
Qed.

(** X28: the heap delta of two successive samples of [readMemory] is
    the difference of the used-heap counts of the two readings, and it is
    unavailable, printed as ["-"], exactly when the browser gave no heap
    counters at one of the two readings. *)
Theorem readMemory_delta (w : World) :
  let h := host w in
  let m := memory_reads (cursors w) in
  exists s1 s2 w1 w2,
    readMemory w = (Return s1, w1) /\
    readMemory w1 = (Return s2, w2) /\
    memDelta s1 s2 =
      match performance_memory h m, performance_memory h (S m) with
      | Some a, Some b => Some (heap_used b - heap_used a)
      | _, _ => None
      end /\
    (formatBytes (memDelta s1 s2) = "-" <->
     performance_memory h m = None \/ performance_memory h (S m) = None).
Proof.
  intros h m.
  destruct (step_readMemory w) as (w1 & E1 & [Hh _ _ _ Hm _ _] & _).
  destruct (step_readMemory w1) as (w2 & E2 & _).
  exists (memory_at h m), (memory_at (host w1) (memory_reads (cursors w1))), w1, w2.
  split; [exact E1 |]. split; [exact E2 |].
  rewrite Hh, Hm. fold h m. replace (m + 1)%nat with (S m) by lia.
  unfold memory_at, memDelta.
  destruct (performance_memory h m) as [a|], (performance_memory h (S m)) as [b|];
    cbn; (split; [reflexivity |]).
  - split; [intros H; exfalso; exact (formatBytes_Some_not_marker _ H) |].
    intros [H | H]; discriminate H.
  - split; [right; reflexivity | reflexivity].
  - split; [left; reflexivity | reflexivity].
  - split; [left; reflexivity | reflexivity].
Qed.

(** ** The further properties at sample inputs *)

Lemma sample_lists_nonempty :
  sample_lists <> [].
Proof. discriminate. Defined.

Lemma sample_fresh_ids (gc : bool) : fresh_ids (document (Sample.world gc)).
Proof. split; constructor. Defined.

Lemma sample_case_known : "local(FlexBasic)" ∈ case_names.
Proof. apply list_elem_of_here. Defined.

Lemma sample_case_unknown : "nope" ∉ case_names.
Proof.
  intros H. unfold case_names, cases in H. cbn in H.
  repeat (apply elem_of_cons in H as [H | H]; [discriminate H |]).
  inversion H.
Defined.

Lemma runUpdateBatchKeepMounted_restores_document_witness :
  sample_lists <> [] /\
  2 + 1 <= Z.of_nat (length sample_lists) /\
  fresh_ids (document (Sample.world true)) /\
  exists r w',
    runUpdateBatchKeepMounted (Sample.config 3 2) "local(FlexBasic)" FlexBasic
      sample_lists 2 (Sample.world true)
    = (Return r, w') /\
    body (document w') = body (document (Sample.world true)).
Proof.
  split; [exact sample_lists_nonempty |]. split; [simpl; lia |].
  split; [apply sample_fresh_ids |].
  destruct (runUpdateBatchKeepMounted_restores_document (Sample.config 3 2)
              "local(FlexBasic)" FlexBasic
              sample_lists 2 (Sample.world true)
              sample_lists_nonempty)
    as (r & w' & E & Hb & _); [simpl; lia | apply sample_fresh_ids |].
  exists r, w'. split; [exact E | exact Hb].
Defined.



Lemma runUpdateBatchKeepMounted_no_lists_leaks_witness :
  -1 <= -1 /\
  exists e w',
    runUpdateBatchKeepMounted (Sample.config 3 (-1)) "local(FlexBasic)" FlexBasic
      [] (-1) (Sample.world true) = (Throw (TypeError e), w') /\
    body (document w') =
      body (document (Sample.world true)) ++ [offscreen (document (Sample.world true))].
Proof.
  split; [lia |].
  destruct (runUpdateBatchKeepMounted_no_lists_leaks (Sample.config 3 (-1))
              "local(FlexBasic)" FlexBasic (-1) (Sample.world true))
    as (e & w' & E & Hb & _); [lia |].
  exists e, w'. split; [exact E | exact Hb].
Defined.

Lemma runUpdateBatchKeepMounted_returns_iff_witness :
  sample_lists <> [] /\
  2 + 1 <= Z.of_nat (length sample_lists) /\
  exists r w',
    runUpdateBatchKeepMounted (Sample.config 3 2) "local(FlexBasic)" FlexBasic
      sample_lists 2 (Sample.world true)
    = (Return r, w').
Proof.
  split; [exact sample_lists_nonempty |]. split; [simpl; lia |].
  apply (runUpdateBatchKeepMounted_returns_iff (Sample.config 3 2)
           "local(FlexBasic)" FlexBasic
           sample_lists 2 (Sample.world true)).
  split; [exact sample_lists_nonempty | simpl; lia].
Defined.


Lemma runOne_success_stores_result_witness :
  "local(FlexBasic)" ∈ case_names /\
  1 <= createIterations (Sample.config 3 2) /\
  0 <= mountLoops (Sample.config 3 2) /\
  exists w',
    runOne (Sample.config 3 2) "local(FlexBasic)" (Sample.world true) = (Return tt, w') /\
    "local(FlexBasic)" ∈ names (results (page w')).
Proof.
  split; [exact sample_case_known |]. split; [simpl; lia |]. split; [simpl; lia |].
  destruct (runOne_success_stores_result (Sample.config 3 2) "local(FlexBasic)"
              (Sample.world true) sample_case_known)
    as (w' & E & _ & Hn); [simpl; lia | simpl; lia |].
  exists w'. split; [exact E | exact Hn].
Defined.


Lemma runOne_success_restores_document_witness :
  "local(FlexBasic)" ∈ case_names /\
  1 <= createIterations (Sample.config 3 2) /\
  0 <= mountLoops (Sample.config 3 2) /\
  fresh_ids (document (Sample.world true)) /\
  body (document (snd (runOne (Sample.config 3 2) "local(FlexBasic)"
                              (Sample.world true)))) =
  body (document (Sample.world true)).
Proof.
  split; [exact sample_case_known |]. split; [simpl; lia |]. split; [simpl; lia |].
  split; [apply sample_fresh_ids |].
  destruct (runOne_success_restores_document (Sample.config 3 2) "local(FlexBasic)"
              (Sample.world true) sample_case_known)
    as (Hb & _); [simpl; lia | simpl; lia | apply sample_fresh_ids |].
  exact Hb.
Defined.

Lemma runOne_unknown_case_fails_first_witness :
  ("nope" ∉ case_names) /\
  error (page (snd (runOne (Sample.config 3 2) "nope" (Sample.world true)))) =
  Some "Unknown case: nope".
Proof.
  split; [exact sample_case_unknown |].
  rewrite (runOne_unknown_case_fails_first (Sample.config 3 2) "nope"
             (Sample.world true) sample_case_unknown).
  reflexivity.
Defined.

Lemma runOne_no_iterations_fails_witness :
  "local(FlexBasic)" ∈ case_names /\
  createIterations (Sample.config 0 2) <= 0 /\
  page (snd (runOne (Sample.config 0 2) "local(FlexBasic)" (Sample.world true))) =
  mkPage false (results (page (Sample.world true)))
         (Some "create-only sanity check failed").
Proof.
  split; [exact sample_case_known |]. split; [simpl; lia |].
  destruct (runOne_no_iterations_fails (Sample.config 0 2) "local(FlexBasic)"
              (Sample.world true) sample_case_known)
    as (Hp & _); [simpl; lia |].
  exact Hp.
Defined.

Lemma runOne_negative_loops_leaks_witness :
  "local(FlexBasic)" ∈ case_names /\
  1 <= createIterations (Sample.config 3 (-1)) /\
  mountLoops (Sample.config 3 (-1)) <= -1 /\
  body (document (snd (runOne (Sample.config 3 (-1)) "local(FlexBasic)"
                              (Sample.world true)))) =
  body (document (Sample.world true)) ++ [offscreen (document (Sample.world true))].
Proof.
  split; [exact sample_case_known |]. split; [simpl; lia |]. split; [simpl; lia |].
  destruct (runOne_negative_loops_leaks (Sample.config 3 (-1)) "local(FlexBasic)"
              (Sample.world true) sample_case_known)
    as (_ & _ & _ & Hb & _); [simpl; lia | simpl; lia |].
  exact Hb.
Defined.

Lemma clicks_keep_store_witness :
  results (page (Sample.world true)) = None /\
  running (page (Sample.world true)) = false /\
  exists w',
    clicks [(Sample.config 3 2, RunLocal); (Sample.config 0 2, RunNative);
            (Sample.config 3 1, RunLocal); (Sample.config 3 2, ClearBtn);
            (Sample.config 3 0, RunRlk)] (Sample.world true) = (Return tt, w') /\
    (length (default [] (results (page w'))) <= 3)%nat.
Proof.
  split; [reflexivity |]. split; [reflexivity |].
  destruct (clicks_keep_store
              [(Sample.config 3 2, RunLocal); (Sample.config 0 2, RunNative);
               (Sample.config 3 1, RunLocal); (Sample.config 3 2, ClearBtn);
               (Sample.config 3 0, RunRlk)] (Sample.world true) eq_refl eq_refl)
    as (w' & E & _ & _ & _ & Hlen).
  exists w'. split; [exact E | exact Hlen].
Defined.




Lemma buildRandomProps_by_draws_witness :
  unit_interval_source (host (Sample.world true)) /\
  exists p : PropSet,
    buildRandomProps (Sample.world true) = (Return p, after_draws 12 (Sample.world true)) /\
    p !! "gap" = bucket gaps (nth_draw (Sample.world true) 4).
Proof.
  split; [apply sample_source_unit_interval |].
  destruct (buildRandomProps_by_draws (Sample.world true)
              (sample_source_unit_interval true))
    as (_ & _ & p & E & _ & _ & _ & _ & Hg & _).
  exists p. split; [exact E | exact Hg].
Defined.

Lemma two_fraction_digits_witness :
  Z.abs 48576 < 10 ^ 21 * 1024 ^ 3 /\
  (Qabs (3 # 2) < inject_Z (10 ^ 21))%Q /\
  exists int frac,
    formatMs (Fin (3 # 2)) =
      (if Qlt_le_dec (3 # 2) 0 then "-" else "") +:+ int +:+ "." +:+ frac +:+ " ms" /\
    String.length frac = 2%nat.
Proof.
  split; [reflexivity |]. split; [reflexivity |].
  destruct (two_fraction_digits 48576 (3 # 2)) as (_ & H & _);
    [reflexivity | reflexivity | exact H].
Defined.

Lemma buildRandomProps_keys_witness :
  exists (p : PropSet) (w' : World),
    buildRandomProps (Sample.world true) = (Return p, w') /\
    p !! "key" = None.
Proof.
  destruct (buildRandomProps_shape (Sample.world true))
    as (d & a & j & wr & g & pd & wd & h & f & w' & E).
  eexists _, w'. split; [exact E |].
  destruct (buildRandomProps_keys (Sample.world true) w' _ E) as (_ & _ & Hk & _).
  exact Hk.
Defined.

Lemma implElements_passes_props_witness :
  [buildFixedProps] !! 0%nat = Some buildFixedProps /\
  buildFixedProps !! "key" = None /\
  length (implElements (Sample.config 3 2) FlexBasic [buildFixedProps]) =
  length [buildFixedProps].
Proof.
  split; [reflexivity |]. split; [reflexivity |].
  destruct (implElements_passes_props (Sample.config 3 2) FlexBasic
              [buildFixedProps] 0 buildFixedProps eq_refl eq_refl) as [_ H].
  exact H.
Defined.

Lemma formatBytes_memDelta_swap_witness :
  used_only 1000 ≫= usedJSHeapSize = Some 1000 /\
  used_only 5000 ≫= usedJSHeapSize = Some 5000 /\
  1000 < 5000 /\
  formatBytes (memDelta (used_only 5000) (used_only 1000)) =
  "-" +:+ formatBytes (memDelta (used_only 1000) (used_only 5000)).
Proof.
  split; [reflexivity |]. split; [reflexivity |]. split; [lia |].
  apply (formatBytes_memDelta_swap (used_only 1000) (used_only 5000) 1000 5000
           eq_refl eq_refl).
  lia.
Defined.

Lemma upsert_then_find_witness :
  "native(WebComponent)" <> name (Sample.result "local(FlexBasic)" 3) /\
  List.find (named (name (Sample.result "local(FlexBasic)" 3)))
            (upsert (Sample.result "local(FlexBasic)" 3)
                    (Some [Sample.result "native(WebComponent)" 1])) =
  Some (Sample.result "local(FlexBasic)" 3).
Proof.
  assert ("native(WebComponent)" <> name (Sample.result "local(FlexBasic)" 3))
    as Hne by discriminate.
  split; [exact Hne |].
  destruct (upsert_then_find (Sample.result "local(FlexBasic)" 3)
              (Some [Sample.result "native(WebComponent)" 1])
              "native(WebComponent)" Hne) as [H _].
  exact H.
Defined.

Lemma render_table_rows_witness :
  results (page (Sample.world true)) = None /\
  running (page (Sample.world true)) = false /\
  exists w',
    clicks [(Sample.config 3 2, RunLocal); (Sample.config 3 1, RunNative)]
           (Sample.world true) = (Return tt, w') /\
    match render_table (results (page w')) with
    | None => results (page w') = None
    | Some rows =>
        fst <$> rows = names (results (page w')) /\
        NoDup (fst <$> rows) /\
        Forall (fun row => length (snd row) = 8%nat) rows
    end.
Proof.
  split; [reflexivity |]. split; [reflexivity |].
  exact (render_table_rows
           [(Sample.config 3 2, RunLocal); (Sample.config 3 1, RunNative)]
           (Sample.world true) eq_refl eq_refl).
Defined.
